(** * sol101: the Markdown splitter of [split.py]

    A shallow embedding of [heading_to_name], [parse_markdown],
    [create_file_structure], [generate_sidebar_config], [update_config_file]
    and [split], and the properties of the splitter proved on it.

    Conventions of the embedding.
    - Python [str] is [string].  The character classes [\w], [\d], [\s] and
      [str.lower]/[str.upper] are Python's on code points below 128; a byte
      above 127 belongs to no class and is left alone by the case maps (such
      bytes occur only in the fixed landing page text, which is never
      classified).
    - [mistune] is an external library: its AST is an input of the model
      (a function from the document text to the list of block nodes).
    - The file system is a finite map from a path to the text [read()]
      returns for it; a directory exists implicitly through the paths
      below it.
    - [print] appends a line to the standard output kept in the world.
    - [open(path, 'w')] finds the directory of the path: the splitter makes
      the directory of a document before it writes there.  The code does
      not make the directory [docs/.vitepress] of the configuration file:
      the write of that file is embedded for a directory that exists, and
      the statements about it take this as a hypothesis.
    - A source is read as UTF-8 text: the map holds the text of a file
      that can be read.  Sources that exist and cannot be read are embedded
      beside the world, with the loop of [split] that meets them, in the
      section on sources that cannot be read.

    The downloader of [update.py] is embedded after the splitter. *)

From Stdlib Require Import ZArith Ascii String List Lia.
From stdpp Require Import base tactics option list gmap strings pretty fin_maps fin_sets.

#[local] Set Warnings "-clear-no-such-hyp".


(** ** Text *)

Module Text.

Definition code (c : ascii) : nat := nat_of_ascii c.

Definition between (lo hi : nat) (c : ascii) : bool :=
  (lo <=? code c)%nat && (code c <=? hi)%nat.

(** [\d] *)
Definition is_digit (c : ascii) : bool := between 48 57 c.
Definition is_upper (c : ascii) : bool := between 65 90 c.
Definition is_lower (c : ascii) : bool := between 97 122 c.

(** [\w]: letters, digits and the underscore. *)
Definition is_word (c : ascii) : bool :=
  is_digit c || is_upper c || is_lower c || (code c =? 95)%nat.

(** [\s] and the characters [str.strip()] removes: tab, line feed, vertical
    tab, form feed, carriage return, the separators 28 to 31 and the space. *)
Definition is_space (c : ascii) : bool :=
  between 9 13 c || between 28 32 c.

Definition lower_char (c : ascii) : ascii :=
  if is_upper c then ascii_of_nat (code c + 32) else c.

Definition upper_char (c : ascii) : ascii :=
  if is_lower c then ascii_of_nat (code c - 32) else c.

Fixpoint map_chars (f : ascii → ascii) (s : string) : string :=
  match s with
  | EmptyString => EmptyString
  | String c s' => String (f c) (map_chars f s')
  end.

(** [s.lower()] and [s.upper()] *)
Definition lower (s : string) : string := map_chars lower_char s.
Definition upper (s : string) : string := map_chars upper_char s.

Fixpoint filter_chars (keep : ascii → bool) (s : string) : string :=
  match s with
  | EmptyString => EmptyString
  | String c s' =>
      if keep c then String c (filter_chars keep s') else filter_chars keep s'
  end.

Fixpoint lstrip (p : ascii → bool) (s : string) : string :=
  match s with
  | EmptyString => EmptyString
  | String c s' => if p c then lstrip p s' else s
  end.

Fixpoint rstrip (p : ascii → bool) (s : string) : string :=
  match s with
  | EmptyString => EmptyString
  | String c s' =>
      match rstrip p s' with
      | EmptyString => if p c then EmptyString else String c EmptyString
      | r => String c r
      end
  end.

(** [s.strip(chars)], with the set of characters given as a predicate. *)
Definition strip (p : ascii → bool) (s : string) : string :=
  rstrip p (lstrip p s).

(** [s.startswith(p)] *)
Fixpoint startswith (p s : string) : bool :=
  match p, s with
  | EmptyString, _ => true
  | String a p', String b s' => if decide (a = b) then startswith p' s' else false
  | String _ _, EmptyString => false
  end.

(** [p in s]: [p] occurs in [s] as a substring. *)
Fixpoint contains (p s : string) : bool :=
  startswith p s ||
  match s with
  | EmptyString => false
  | String _ s' => contains p s'
  end.

(** [s[:n]] and [s[n:]] for [0 <= n]. *)
Fixpoint take_chars (n : nat) (s : string) : string :=
  match n, s with
  | S n', String c s' => String c (take_chars n' s')
  | _, _ => EmptyString
  end.

Fixpoint drop_chars (n : nat) (s : string) : string :=
  match n, s with
  | S n', String _ s' => drop_chars n' s'
  | _, _ => s
  end.

Definition newline : ascii := ascii_of_nat 10.
Definition nl : string := String newline EmptyString.

(** [s.split('\n')]: never empty, [''.split('\n') = ['']]. *)
Fixpoint split_lines (s : string) : list string :=
  match s with
  | EmptyString => [EmptyString]
  | String c s' =>
      if decide (c = newline) then EmptyString :: split_lines s'
      else match split_lines s' with
           | l :: ls => String c l :: ls
           | [] => [String c EmptyString]
           end
  end.

(** A line feed occurs in [s]. *)
Fixpoint has_newline (s : string) : bool :=
  match s with
  | EmptyString => false
  | String c s' => bool_decide (c = newline) || has_newline s'
  end.

(** ['\n'.join(ls)] *)
Fixpoint join_lines (ls : list string) : string :=
  match ls with
  | [] => EmptyString
  | [l] => l
  | l :: ls' => l +:+ nl +:+ join_lines ls'
  end.

(** [sep.join(ls)] for an arbitrary separator. *)
Fixpoint join (sep : string) (ls : list string) : string :=
  match ls with
  | [] => EmptyString
  | [l] => l
  | l :: ls' => l +:+ sep +:+ join sep ls'
  end.

(** [ls[a:b]] for [0 <= a] and [0 <= b]: empty when [b <= a]. *)
Definition slice {A} (ls : list A) (a b : nat) : list A :=
  take (b - a) (drop a ls).

(** [s.replace(old, new)] for a non-empty [old]: every non-overlapping
    occurrence, leftmost first.  The recursion is on a fuel above the length
    of [s], which is enough ([replace_go_fuel]). *)
Fixpoint replace_go (fuel : nat) (old new s : string) : string :=
  match fuel with
  | 0 => s
  | S fuel' =>
      if startswith old s
      then new +:+ replace_go fuel' old new (drop_chars (String.length old) s)
      else match s with
           | EmptyString => EmptyString
           | String c s' => String c (replace_go fuel' old new s')
           end
  end.

Definition replace (old new s : string) : string :=
  replace_go (S (String.length s)) old new s.

End Text.

Import Text.

(** ** Name allocator: [heading_to_name] *)

(** Group 1 of [re.match] on the pattern of rule 1, which reads, piece by
    piece: the start of the text, a lazy [\w*?], the group of [\d+] and
    [\w*], and [\W].  Every piece before [\W] consumes word characters only,
    and [\W] consumes one character that is not a word character: it is the
    first such character of the text, so the pieces before it cover exactly
    the leading run of word characters.  The lazy [\w*?] stops at the first
    digit of that run, where the group starts; the group runs to the end of
    the run.  There is no match when the run holds no digit or reaches the
    end of the text. *)
Fixpoint word_run (s : string) : string * string :=
  match s with
  | EmptyString => (EmptyString, EmptyString)
  | String c s' =>
      if is_word c then let '(w, r) := word_run s' in (String c w, r)
      else (EmptyString, s)
  end.

Definition match_problem_id (heading_text : string) : option string :=
  let '(run, rest) := word_run heading_text in
  match rest with
  | EmptyString => None
  | String _ _ =>
      match lstrip (λ c, negb (is_digit c)) run with
      | EmptyString => None
      | id => Some id
      end
  end.

(** [re.sub(r'[^\w\s-]', '', text)] *)
Definition strip_special (s : string) : string :=
  filter_chars (λ c, is_word c || is_space c || (code c =? 45)%nat) s.

(** [re.sub(r'[-\s]+', '-', s)]: [in_run] tells that the previous character
    belonged to the run being replaced. *)
Fixpoint collapse_runs (in_run : bool) (s : string) : string :=
  match s with
  | EmptyString => EmptyString
  | String c s' =>
      if is_space c || (code c =? 45)%nat
      then (if in_run then collapse_runs true s'
            else String "-" (collapse_runs true s'))
      else String c (collapse_runs false s')
  end.

Definition slugify (heading_text : string) : string :=
  let base_name := strip_special heading_text in
  let base_name := collapse_runs false base_name in
  let base_name := lower (strip (λ c, (code c =? 45)%nat) base_name) in
  if decide (base_name = "") then "unnamed" else base_name.

(** Rules 1 and 2. *)
Definition base_name_of (heading_text : string) : string :=
  match match_problem_id heading_text with
  | Some id => lower id
  | None => slugify heading_text
  end.

(** [f"{base_name}-{counter}"] *)
Definition suffixed (base_name : string) (counter : nat) : string :=
  base_name +:+ "-" +:+ pretty counter.

(** The [while] loop of rule 3.  It tests a name that is in the set at most
    once per element of the set, so [S (size used_names)] iterations are
    enough ([next_counter_spec] shows that the fuel never runs out). *)
Fixpoint next_counter (used_names : gset string) (base_name : string)
    (fuel counter : nat) : nat :=
  match fuel with
  | 0 => counter
  | S fuel' =>
      if decide (suffixed base_name counter ∈ used_names)
      then next_counter used_names base_name fuel' (S counter)
      else counter
  end.

(** The set is mutated in place: it is threaded through the call.  The
    default [used_names=None] is the call on the empty set. *)
Definition heading_to_name (heading_text : string) (used_names : gset string)
    : string * gset string :=
  let base_name := base_name_of heading_text in
  if decide (base_name ∈ used_names)
  then
    let counter := next_counter used_names base_name (S (size used_names)) 1 in
    let final_name := suffixed base_name counter in
    (final_name, {[final_name]} ∪ used_names)
  else (base_name, {[base_name]} ∪ used_names).

(** One pass: the headings of a document, named in order against one set. *)
Fixpoint heading_names (texts : list string) (used_names : gset string)
    : list string * gset string :=
  match texts with
  | [] => ([], used_names)
  | t :: texts' =>
      let '(n, used') := heading_to_name t used_names in
      let '(ns, used'') := heading_names texts' used' in
      (n :: ns, used'')
  end.

(** ** Heading extractor: [parse_markdown] *)

(** The inline nodes of a heading, as [extract_heading_text] reads them: a
    node with a ['raw'] entry (text, codespan, inline_html and any other such
    node), a node without it that has ['children'], and a node with neither. *)
#[warnings="-register-all"] Inductive inline : Type :=
| IRaw (type raw : string)
| INested (type : string) (children : list inline)
| IBare (type : string).

(** The block nodes of the AST: headings with their level ([attrs.level]) and
    children, and everything else. *)
Inductive block : Type :=
| Heading (level : nat) (children : list inline)
| Other (type : string).

Fixpoint inline_text (child : inline) : string :=
  match child with
  | IRaw _ raw => raw
  | INested _ children =>
      (fix parts (cs : list inline) : string :=
         match cs with
         | [] => ""
         | c :: cs' => inline_text c +:+ parts cs'
         end) children
  | IBare _ => ""
  end.

Fixpoint extract_heading_text (children : list inline) : string :=
  match children with
  | [] => ""
  | c :: cs => inline_text c +:+ extract_heading_text cs
  end.

(** A raw heading position [(level, line)] and the dictionary
    [heading_positions], kept as the list of its items in insertion order
    (increasing line number); a matched heading [(level, text, line)]; a
    section [(level, text, start_line, end_line)]. *)
Record heading : Type := mk_heading {
  h_level : nat;
  h_text : string;
  h_line : nat
}.

Record section : Type := mk_section {
  level : nat;
  heading_text : string;
  start_line : nat;
  end_line : nat
}.

Abbreviation positions := (list (nat * (nat * string))).

(** [re.match] of a line against the pattern of the first pass: one or two
    "#" (greedily two), [\s*], and [.+] to the end of the line, on a line
    that holds no line feed.  Two marks are taken when something follows
    them; otherwise one mark is taken when something follows it (so the line
    "##" is a level 1 position).  The value is [len(match.group(1))]. *)
Definition raw_heading_level (line : string) : option nat :=
  match line with
  | String "#" (String "#" (String _ _)) => Some 2
  | String "#" (String _ _) => Some 1
  | _ => None
  end.

(** First pass: [enumerate(lines)] from index [i]. *)
Fixpoint scan_headings (i : nat) (lines : list string) : positions :=
  match lines with
  | [] => []
  | line :: lines' =>
      match raw_heading_level line with
      | Some lvl => (i, (lvl, line)) :: scan_headings (S i) lines'
      | None => scan_headings (S i) lines'
      end
  end.

(** The test of the inner loop on one item of the dictionary. *)
Definition heading_matches (lvl : nat) (text : string) (entry : nat * string)
    : bool :=
  let '(line_level, line_content) := entry in
  (line_level =? lvl) &&
  (let line_text := strip is_space (drop_chars lvl line_content) in
   contains text line_text
   || startswith (if 20 <=? String.length text then take_chars 20 text else text)
                 line_text).

Definition better (lvl : nat) (text : string) (best_match : option nat)
    (item : nat * (nat * string)) : option nat :=
  let '(line_num, entry) := item in
  if heading_matches lvl text entry
  then match best_match with
       | None => Some line_num
       | Some b => if line_num <? b then Some line_num else best_match
       end
  else best_match.

(** The inner loop: the smallest matching line number, if any. *)
Definition find_best_match (lvl : nat) (text : string)
    (heading_positions : positions) : option nat :=
  foldl (better lvl text) None heading_positions.

(** [del heading_positions[best_match]] *)
Definition del_position (line_num : nat) (heading_positions : positions)
    : positions :=
  filter (λ item, item.1 ≠ line_num) heading_positions.

(** One turn of the second pass. *)
Definition match_node (st : positions * list heading) (node : block)
    : positions * list heading :=
  let '(heading_positions, headings) := st in
  match node with
  | Heading lvl children =>
      if lvl <=? 2 then
        let text := extract_heading_text children in
        match find_best_match lvl text heading_positions with
        | Some best_match =>
            (del_position best_match heading_positions,
             headings ++ [mk_heading lvl text best_match])
        | None => st
        end
      else st
  | Other _ => st
  end.

Definition match_headings (ast : list block) (heading_positions : positions)
    : list heading :=
  (foldl match_node (heading_positions, []) ast).2.

(** The end of a section: the line of the first later heading of the same
    or a higher rank, else the number of lines. *)
Fixpoint section_end (lvl : nat) (later : list heading) (n_lines : nat) : nat :=
  match later with
  | [] => n_lines
  | h :: later' =>
      if h_level h <=? lvl then h_line h else section_end lvl later' n_lines
  end.

Fixpoint build_sections (headings : list heading) (n_lines : nat)
    : list section :=
  match headings with
  | [] => []
  | h :: rest =>
      mk_section (h_level h) (h_text h) (h_line h)
                 (section_end (h_level h) rest n_lines)
      :: build_sections rest n_lines
  end.

(** [parse_markdown], with the AST that [mistune] gives for [content]. *)
Definition parse_markdown (ast : list block) (content : string)
    : list section :=
  let lines := split_lines content in
  let heading_positions := scan_headings 0 lines in
  let headings := match_headings ast heading_positions in
  build_sections headings (length lines).

(** ** Section splitter: [create_file_structure] *)

(** A sidebar item [{'text', 'link'}] and a sidebar entry
    [{'text', 'link', 'items'}], whose link may be [None]. *)
Record nav_item : Type := mk_item {
  item_text : string;
  item_link : string
}.

Record nav_entry : Type := mk_entry {
  text : string;
  link : option string;
  items : list nav_item
}.

(** The variables of the loop.  The loop touches the file system only by
    writing whole files: [written] collects the files in the order of the
    writes, the latest last, and [create_file_structure] below puts them
    into the file system in that order. *)
Record loop_state : Type := mk_state {
  used_names : gset string;
  current_l1_name : option string;
  sidebar_structure : list nav_entry;
  current_l1_items : list nav_item;
  current_l1_link : option string;
  written : list (string * string)
}.

Definition TOO_LONG_THRESHOLD : Z := 500.

Definition initial_state : loop_state :=
  mk_state ∅ None [] [] None [].

(** [if current_l1_name: sidebar_structure.append({...})]: the test is
    Python's truth of the name, false for [None] and for the empty text. *)
Definition save_current_l1 (st : loop_state) : list nav_entry :=
  match current_l1_name st with
  | Some l1_name =>
      if decide (l1_name = "") then sidebar_structure st
      else sidebar_structure st
           ++ [mk_entry l1_name (current_l1_link st) (current_l1_items st)]
  | None => sidebar_structure st
  end.

(** The loop over [content_lines] that turns the first line starting with
    "## " into its tail after the first character, and stops. *)
Fixpoint demote_first_marker (content_lines : list string) : list string :=
  match content_lines with
  | [] => []
  | line :: rest =>
      if startswith "## " line then drop_chars 1 line :: rest
      else line :: demote_first_marker rest
  end.

(** [base_dir / f'{file_name}.md'] and [f'/{name}/{file_name}'] *)
Definition file_path_of (name file_name : string) : string :=
  "docs/" +:+ name +:+ "/" +:+ file_name +:+ ".md".

Definition link_of (name file_name : string) : string :=
  "/" +:+ name +:+ "/" +:+ file_name.

(** The content of a section, [lines[start_line:end_line]] joined. *)
Definition section_content (lines : list string) (sec : section) : string :=
  join_lines (slice lines (start_line sec) (end_line sec)).

Definition content_line_count (sec : section) : Z :=
  (Z.of_nat (end_line sec) - Z.of_nat (start_line sec))%Z.

Definition is_too_long (sec : section) : bool :=
  (TOO_LONG_THRESHOLD <? content_line_count sec)%Z.

(** The content written for a level 2 section of a long parent. *)
Definition level2_content (content : string) : string :=
  join_lines (demote_first_marker (split_lines content)).

Definition step_level1 (name : string) (lines : list string)
    (st : loop_state) (sec : section) : loop_state :=
  let sidebar := save_current_l1 st in
  if is_too_long sec then
    mk_state (used_names st) (Some (heading_text sec)) sidebar [] None
             (written st)
  else
    let '(file_name, used) := heading_to_name (heading_text sec) (used_names st) in
    mk_state used (Some (heading_text sec)) sidebar []
             (Some (link_of name file_name))
             (written st ++ [(file_path_of name file_name,
                              section_content lines sec)]).

(** [if current_l1_name is None:] the default level 1 group. *)
Definition default_l1 (st : loop_state) : loop_state :=
  match current_l1_name st with
  | None =>
      mk_state (used_names st) (Some "Content") (sidebar_structure st) [] None
               (written st)
  | Some _ => st
  end.

Definition step_level2 (name : string) (lines : list string)
    (st : loop_state) (sec : section) : loop_state :=
  let st := default_l1 st in
  match current_l1_link st with
  | None =>
      let '(file_name, used) := heading_to_name (heading_text sec) (used_names st) in
      mk_state used (current_l1_name st) (sidebar_structure st)
               (current_l1_items st
                ++ [mk_item (heading_text sec) (link_of name file_name)])
               None
               (written st ++ [(file_path_of name file_name,
                                level2_content (section_content lines sec))])
  | Some _ => st
  end.

(** The body of the loop over [sections]. *)
Definition section_step (name : string) (lines : list string)
    (st : loop_state) (sec : section) : loop_state :=
  if level sec =? 1 then step_level1 name lines st sec
  else if level sec =? 2 then step_level2 name lines st sec
  else st.

Definition run_sections (name : string) (lines : list string)
    (st : loop_state) (sections : list section) : loop_state :=
  foldl (section_step name lines) st sections.

(** The files written and the sidebar structure returned, for the lines of
    [original/{name}.md]. *)
Definition file_structure (name : string) (lines : list string)
    (sections : list section) : list (string * string) * list nav_entry :=
  let st := run_sections name lines initial_state sections in
  (written st, save_current_l1 st).

(** ** The world: files and standard output *)

Record world : Type := mk_world {
  files : gmap string string;
  stdout : list string
}.

Inductive exn : Type :=
| FileNotFoundError (path : string).

(** Computations that read and change the world and may raise. *)
Definition io (A : Type) : Type := world → (exn + A) * world.

Definition ret {A} (a : A) : io A := λ w, (inr a, w).

Definition raise {A} (e : exn) : io A := λ w, (inl e, w).

Definition bind {A B} (m : io A) (k : A → io B) : io B :=
  λ w, match m w with
       | (inr a, w') => k a w'
       | (inl e, w') => (inl e, w')
       end.

(** The notations [x ← m; k] and [m;; k] are those of the monad classes. *)
#[global] Instance io_ret : MRet io := @ret.
#[global] Instance io_bind : MBind io := λ A B k m, bind m k.

(** [os.path.exists(path)] for a file. *)
Definition path_exists (path : string) : io bool :=
  λ w, (inr (bool_decide (is_Some (files w !! path))), w).

(** [open(path, 'r').read()] *)
Definition read_file (path : string) : io string :=
  λ w, match files w !! path with
       | Some content => (inr content, w)
       | None => (inl (FileNotFoundError path), w)
       end.

(** [open(path, 'w').write(content)] *)
Definition write_file (path content : string) : io unit :=
  λ w, (inr (), mk_world (<[path := content]> (files w)) (stdout w)).

Definition print (line : string) : io unit :=
  λ w, (inr (), mk_world (files w) (stdout w ++ [line])).

(** A path lies under the directory [dir]. *)
Definition under (dir path : string) : bool := startswith (dir +:+ "/") path.

(** [dir.exists()]: some file lies under it (a directory without any file
    below it is not represented). *)
Definition dir_exists (dir : string) : io bool :=
  λ w, (inr (bool_decide (filter (λ kv, under dir kv.1 = true) (files w) ≠ ∅)), w).

(** [shutil.rmtree(dir)] *)
Definition rmtree (dir : string) : io unit :=
  λ w, (inr (), mk_world (filter (λ kv, under dir kv.1 = false) (files w))
                         (stdout w)).

Fixpoint write_files (ws : list (string * string)) : io unit :=
  match ws with
  | [] => ret ()
  | (path, content) :: ws' => write_file path content;; write_files ws'
  end.

(** [create_file_structure(name, sections)] *)
Definition create_file_structure (name : string) (sections : list section)
    : io (list nav_entry) :=
  let original_path := "original/" +:+ name +:+ ".md" in
  found ← path_exists original_path;
  if negb found then raise (FileNotFoundError original_path)
  else
    content ← read_file original_path;
    let lines := split_lines content in
    let base_dir := "docs/" +:+ name in
    rmtree base_dir;;
    let '(ws, sidebar_structure) := file_structure name lines sections in
    write_files ws;;
    ret sidebar_structure.

(** ** Navigation builder: [generate_sidebar_config] *)

(** [text.replace("'", "\\'")] *)
Definition escape_quotes (s : string) : string := replace "'" "\'" s.

Definition render_item (sub_item : nav_item) : string :=
  "                    { text: '" +:+ escape_quotes (item_text sub_item)
  +:+ "', link: '" +:+ item_link sub_item +:+ "' }," +:+ nl.

(** A link is rendered when [section.get('link')] is true: neither [None]
    nor empty. *)
Definition render_entry (entry : nav_entry) : string :=
  "            {" +:+ nl
  +:+ "                text: '" +:+ escape_quotes (text entry) +:+ "'," +:+ nl
  +:+ match link entry with
      | Some l =>
          if decide (l = "") then ""
          else "                link: '" +:+ l +:+ "'," +:+ nl
      | None => ""
      end
  +:+ match items entry with
      | [] => ""
      | sub_items =>
          "                collapsed: true," +:+ nl
          +:+ "                items: [" +:+ nl
          +:+ String.concat "" (render_item <$> sub_items)
          +:+ "                ]" +:+ nl
      end
  +:+ "            }," +:+ nl.

Definition render_document (doc : string * list nav_entry) : string :=
  "'/" +:+ doc.1 +:+ "': {" +:+ nl
  +:+ "        items: [" +:+ nl
  +:+ String.concat "" (render_entry <$> doc.2)
  +:+ "        ]" +:+ nl
  +:+ "    }".

(** [structures] is the dictionary as the list of its items in insertion
    order. *)
Definition generate_sidebar_config (structures : list (string * list nav_entry))
    : string :=
  join ("," +:+ nl +:+ "        ") (render_document <$> structures).

(** [update_config_file(sidebar_config)] *)
Definition update_config_file (sidebar_config : string) : io unit :=
  template ← read_file "config.templ.mjs";
  let updated_config := replace "// template: sidebar" sidebar_config template in
  write_file "docs/.vitepress/config.mjs" updated_config.

(** ** Orchestrator: [split] *)

(** [re.match] on the pattern "^[a-zA-Z0-9_-]+$": one or more characters of
    the class up to the end of the name, where "$" also accepts the position
    before a line feed that ends the name. *)
Definition name_char (c : ascii) : bool :=
  is_lower c || is_upper c || is_digit c
  || (code c =? 95) || (code c =? 45).

Fixpoint valid_tail (s : string) : bool :=
  match s with
  | EmptyString => true
  | String c s' =>
      if name_char c then valid_tail s'
      else bool_decide (c = newline) && bool_decide (s' = "")
  end.

Definition valid_name (name : string) : bool :=
  match name with
  | EmptyString => false
  | String c s' => name_char c && valid_tail s'
  end.

(** [all_structures[name] = structure]: a key that is present keeps its
    place, a new key goes last. *)
Fixpoint dict_set {V} (k : string) (v : V) (d : list (string * V))
    : list (string * V) :=
  match d with
  | [] => [(k, v)]
  | (k', v') :: d' =>
      if decide (k' = k) then (k, v) :: d' else (k', v') :: dict_set k v d'
  end.

Definition guide_title (name : string) : string :=
  if decide (name = "oj") then "OpenJudge题库"
  else if decide (name = "cf") then "Codeforces题库"
  else upper name +:+ "题库".

Definition guide_content (name : string) : string :=
  let title := guide_title name in
  "# " +:+ title +:+ nl +:+ nl +:+ "欢迎来到" +:+ title
  +:+ "，点击左边目录选择题目。" +:+ nl.

Section orchestrator.

(** [mistune.create_markdown(renderer='ast')] applied to a text. *)
Variable markdown : string → list block.

(** The body of the loop over [names]; [continue] returns the dictionary
    as it is. *)
Definition split_document (all_structures : list (string * list nav_entry))
    (name : string) : io (list (string * list nav_entry)) :=
  if negb (valid_name name) then
    print ("Error: Invalid name '" +:+ name
           +:+ "'. Only alphanumeric characters, underscore and hyphen "
           +:+ "are allowed. Skipping...");;
    ret all_structures
  else
    let original_path := "original/" +:+ name +:+ ".md" in
    found ← path_exists original_path;
    if negb found then
      print ("Warning: " +:+ original_path +:+ " not found, skipping...");;
      ret all_structures
    else
      print ("Processing " +:+ name +:+ " from original/" +:+ name +:+ ".md...");;
      content ← read_file original_path;
      let sections := parse_markdown (markdown content) content in
      print ("  Found " +:+ pretty (length sections) +:+ " sections");;
      let docs_dir := "docs/" +:+ name in
      there ← dir_exists docs_dir;
      (if there : bool then
         rmtree docs_dir;;
         print ("  Removed existing docs/" +:+ name +:+ "/ directory")
       else ret () : io unit);;
      structure ← create_file_structure name sections;
      let all_structures := dict_set name structure all_structures in
      print ("  Created file structure in docs/" +:+ name +:+ "/");;
      let index_path := "docs/" +:+ name +:+ "/index.md" in
      write_file index_path (guide_content name);;
      print "  Created index.md (guide page)";;
      ret all_structures.

Fixpoint split_documents (all_structures : list (string * list nav_entry))
    (names : list string) : io (list (string * list nav_entry)) :=
  match names with
  | [] => ret all_structures
  | name :: names' =>
      all_structures ← split_document all_structures name;
      split_documents all_structures names'
  end.

(** [split(names)]; the dictionary built by the loop is returned so that
    the configuration generated from it can be named. *)
Definition split (names : list string) : io (list (string * list nav_entry)) :=
  all_structures ← split_documents [] names;
  (match all_structures with
   | [] => ret ()
   | _ =>
       print "Generating sidebar configuration...";;
       let sidebar_config := generate_sidebar_config all_structures in
       update_config_file sidebar_config;;
       print "Updated docs/.vitepress/config.mjs"
   end : io unit);;
  print "Done!";;
  ret all_structures.

End orchestrator.


(** * The downloader of [update.py]

    Conventions of the embedding.
    - [requests.get] is an external call: the answer to a request is an
      input of the model, a function from the URL and the value of the
      [If-None-Match] header, if one is sent, to the response, or to nothing
      when [requests] itself raises (no connection, time out).
    - A file opened in text mode is read with universal newlines, and the
      file system holds for a path the text that [read()] returns: a write
      of this module stores the text with its carriage returns translated.
    - Paths are the texts that the code builds, [etag/{name}] and
      [original/{name}.md]; two different texts are two different files, as
      they are for names without path separator.  A tag path without a
      directory part makes [os.makedirs] raise; for a tag path
      [{dir}/{name}] the directory is made and the write succeeds. *)

(** [config.py] *)
Module Config.

Record Answer := mk_answer { name : string; url : string }.

Definition ANSWERS : list Answer :=
  [ mk_answer "oj"
      ("https://raw.githubusercontent.com/GMyhf/2020fall-cs101/refs/heads/"
       +:+ "main/2020fall_cs101.openjudge.cn_problems.md");
    mk_answer "cf"
      ("https://raw.githubusercontent.com/GMyhf/2020fall-cs101/refs/heads/"
       +:+ "main/2020fall_Codeforces_problems.md") ].

End Config.

(** What the code reads of a response: [resp.status_code],
    [resp.headers.get("ETag")] and [resp.text]. *)
Record response := mk_response {
  status_code : Z;
  header_etag : option string;
  resp_text : string
}.

(** [requests.HTTPError(status)], raised by [sync_github], the exceptions
    that [requests.get] raises itself, and the exceptions of the file
    system. *)
Inductive fetch_exn :=
  | HTTPError (status : Z)
  | RequestException
  | FileError (e : exn).

Definition carriage_return : ascii := ascii_of_nat 13.

(** The text that [read()] returns for a text that was written: a carriage
    return becomes a line feed, and a line feed that follows a carriage
    return is dropped. *)
Fixpoint universal_newlines (after_cr : bool) (s : string) : string :=
  match s with
  | EmptyString => EmptyString
  | String c s' =>
      if decide (c = carriage_return)
      then String newline (universal_newlines true s')
      else if decide (c = newline)
      then (if after_cr then universal_newlines false s'
            else String newline (universal_newlines false s'))
      else String c (universal_newlines false s')
  end.

(** [open(path, 'w').write(content)] after [os.makedirs(..., exist_ok=True)] *)
Definition write_text (path content : string) (w : world) : world :=
  mk_world (<[path := universal_newlines false content]> (files w)) (stdout w).

(** [os.makedirs(os.path.split(etag_path)[0], exist_ok=True)] and the write
    of the tag.  The head that [os.path.split] gives for a path without a
    separator is the empty path, for which [os.makedirs] raises
    [FileNotFoundError]; nothing is written then. *)
Definition store_tag (etag_path etag : string) (w : world)
    : (fetch_exn + unit) * world :=
  if contains "/" etag_path then (inr (), write_text etag_path etag w)
  else (inl (FileError (FileNotFoundError "")), w).

Section downloader.

(** [requests.get(url, headers=headers, timeout=10)] *)
Variable get : string → option string → option response.

(** [sync_github(url, etag_path)] *)
Definition sync_github (url etag_path : string) (w : world)
    : (fetch_exn + (Z * string)) * world :=
  let headers :=
    match files w !! etag_path with
    | Some content =>
        let etag := strip is_space content in
        if decide (etag = "") then None else Some etag
    | None => None
    end in
  match get url headers with
  | None => (inl RequestException, w)
  | Some resp =>
      if (status_code resp =? 304)%Z then (inr ((-1)%Z, ""), w)
      else if (status_code resp =? 200)%Z then
        match header_etag resp with
        | Some etag =>
            if decide (etag = "") then (inr (0%Z, resp_text resp), w)
            else match store_tag etag_path etag w with
                 | (inr _, w') => (inr (0%Z, resp_text resp), w')
                 | (inl e, w') => (inl e, w')
                 end
        | None => (inr (0%Z, resp_text resp), w)
        end
      else (inl (HTTPError (status_code resp)), w)
  end.

(** The loop of [main] over the answers, with the counter [changed]. *)
Fixpoint main_loop (answers : list Config.Answer) (changed : Z) (w : world)
    : (fetch_exn + Z) * world :=
  match answers with
  | [] => (inr changed, w)
  | answer :: answers' =>
      let name := Config.name answer in
      let url := Config.url answer in
      match sync_github url ("etag/" +:+ name) w with
      | (inl e, w') => (inl e, w')
      | (inr (ret, content), w') =>
          if (ret =? 0)%Z
          then main_loop answers' (changed + 1)%Z
                 (write_text ("original/" +:+ name +:+ ".md") content w')
          else main_loop answers' changed w'
      end
  end.

(** [main()], with the list that it iterates over as a parameter. *)
Definition main_on (answers : list Config.Answer) (w : world)
    : (fetch_exn + unit) * world :=
  match main_loop answers 0%Z w with
  | (inl e, w') => (inl e, w')
  | (inr changed, w') =>
      (inr (),
       mk_world (files w')
         (stdout w' ++ [if (changed =? 0)%Z then "false" else "true"]))
  end.

Definition main : world → (fetch_exn + unit) * world :=
  main_on Config.ANSWERS.

End downloader.

(** The entry point of [split.py]: [split(answer.name for answer in ANSWERS)] *)
Definition split_main (markdown : string → list block)
    : io (list (string * list nav_entry)) :=
  split markdown (Config.name <$> Config.ANSWERS).
(** * Vocabulary of the statements *)

(** ** Heading extractor *)

(** A node is a heading of level 1 or 2. *)
Definition top_heading (node : block) : bool :=
  match node with
  | Heading lvl _ => lvl <=? 2
  | Other _ => false
  end.

(** What the second pass keeps true: the lines of the matched headings are
    distinct and are no longer in the dictionary, whose items all come from
    the first pass. *)
Definition reconciled (ps0 : positions) (st : positions * list heading) : Prop :=
  NoDup st.1.*1
  ∧ NoDup (h_line <$> st.2)
  ∧ (∀ h, h ∈ st.2 → h_line h ∉ st.1.*1)
  ∧ (∀ item, item ∈ st.1 → item ∈ ps0)
  ∧ (∀ h, h ∈ st.2 → ∃ line, (h_line h, (h_level h, line)) ∈ ps0).

(** The end of a section in the words of the specification: the first line
    of the first later section whose level is at most [lvl], or the number
    of lines when there is none. *)
Definition ends_at (lvl : nat) (later : list section) (n_lines e : nat) : Prop :=
  (∃ mid s' rest,
      later = mid ++ s' :: rest
      ∧ Forall (λ x, lvl < level x) mid
      ∧ level s' ≤ lvl
      ∧ e = start_line s')
  ∨ (Forall (λ x, lvl < level x) later ∧ e = n_lines).

(** Spans of sections of one level do not share a line. *)
Definition disjoint_spans (sections : list section) : Prop :=
  ∀ i j s1 s2 k,
    i ≠ j → sections !! i = Some s1 → sections !! j = Some s2 →
    level s1 = level s2 →
    ¬ (start_line s1 ≤ k < end_line s1 ∧ start_line s2 ≤ k < end_line s2).

(** The sections are met in the order of their first lines. *)
Definition increasing_starts (sections : list section) : Prop :=
  ∀ i j s1 s2,
    i < j → sections !! i = Some s1 → sections !! j = Some s2 →
    start_line s1 < start_line s2.

(** ** Section splitter *)

(** The undoing of the rewrite of the leading mark: a text that starts with
    "# " gets one more "#" in front. *)
Definition restore_marker (content : string) : string :=
  if startswith "# " content then String "#" content else content.

(** [ls'] is [ls] except that the first line of [ls] that starts with "## "
    has lost its first character, a "#". *)
Definition first_marker_demoted (ls ls' : list string) : Prop :=
  (Forall (λ l, startswith "## " l = false) ls ∧ ls' = ls)
  ∨ (∃ pre l post,
        ls = pre ++ l :: post
        ∧ Forall (λ l, startswith "## " l = false) pre
        ∧ startswith "## " l = true
        ∧ l = String "#" (drop_chars 1 l)
        ∧ ls' = pre ++ drop_chars 1 l :: post).

(** The spans of [children] follow one another without a gap and without an
    empty span, up to the line [e]. *)
Fixpoint chained (children : list section) (e : nat) : Prop :=
  match children with
  | [] => False
  | [c] => start_line c < end_line c ∧ end_line c = e
  | c :: (c' :: _) as rest =>
      start_line c < end_line c ∧ end_line c = start_line c' ∧ chained rest e
  end.

(** The first line of the span of a section starts with "## ". *)
Definition starts_with_marker (lines : list string) (c : section) : Prop :=
  ∃ l, lines !! start_line c = Some l ∧ startswith "## " l = true.

(** The text of a file comes from the span of a section: it is the content
    of the section, or its content with the first mark rewritten. *)
Definition from_span (lines : list string) (sec : section) (text : string)
    : Prop :=
  text = section_content lines sec
  ∨ text = level2_content (section_content lines sec).

(** Every file comes from the span of a section that starts at or after the
    first line of the first section of the list. *)
Definition nothing_before_first (lines : list string)
    (sections : list section) (ws : list (string * string)) : Prop :=
  ∀ first path text,
    head sections = Some first → (path, text) ∈ ws →
    ∃ sec, sec ∈ sections ∧ from_span lines sec text
           ∧ start_line first ≤ start_line sec.

(** The files written so far have distinct paths, each made from a name
    that is in the set of used names. *)
Definition distinct_files (name : string) (st : loop_state) : Prop :=
  NoDup (written st).*1
  ∧ ∀ p, p ∈ (written st).*1 →
         ∃ file_name, file_name ∈ used_names st ∧ p = file_path_of name file_name.

(** ** Orchestrator *)

Definition original_path_of (name : string) : string :=
  "original/" +:+ name +:+ ".md".

Definition index_path_of (name : string) : string :=
  "docs/" +:+ name +:+ "/index.md".

Definition config_path : string := "docs/.vitepress/config.mjs".
Definition template_path : string := "config.templ.mjs".

(** A document is processed: its name is valid and its source exists. *)
Definition processable (fs : gmap string string) (name : string) : bool :=
  valid_name name && bool_decide (is_Some (fs !! original_path_of name)).

(** The line printed for a document that is skipped. *)
Definition diagnostic (name : string) : string :=
  if valid_name name
  then "Warning: " +:+ original_path_of name +:+ " not found, skipping..."
  else "Error: Invalid name '" +:+ name
       +:+ "'. Only alphanumeric characters, underscore and hyphen "
       +:+ "are allowed. Skipping...".

(** The writes of a list of files, in order. *)
Definition put_files (ws : list (string * string)) (fs : gmap string string)
    : gmap string string :=
  foldl (λ m kv, <[kv.1 := kv.2]> m) fs ws.

(** Two file systems hold the same files outside [docs/]. *)
Definition same_inputs (fs1 fs2 : gmap string string) : Prop :=
  ∀ p, startswith "docs/" p = false → fs1 !! p = fs2 !! p.

(** The configuration fragment of a run that returned. *)
Definition manifest_of (r : exn + list (string * list nav_entry))
    : option string :=
  match r with
  | inr structures => Some (generate_sidebar_config structures)
  | inl _ => None
  end.

Section run_vocabulary.
Variable markdown : string → list block.

(** What processing a document gives: the files written by the splitter and
    the sidebar structure, from the text of the source. *)
Definition doc_output (name content : string)
    : list (string * string) * list nav_entry :=
  file_structure name (split_lines content)
    (parse_markdown (markdown content) content).

(** The file system after processing a document: the directory of the
    document is emptied, the files of the splitter are written, then the
    landing page. *)
Definition doc_files (name content : string) (fs : gmap string string)
    : gmap string string :=
  <[index_path_of name := guide_content name]>
    (put_files (doc_output name content).1
       (filter (λ kv, under ("docs/" +:+ name) kv.1 = false) fs)).

(** One turn of the loop of [split], on the dictionary and the files. *)
Definition document_step
    (acc : list (string * list nav_entry) * gmap string string)
    (name : string) : list (string * list nav_entry) * gmap string string :=
  match acc.2 !! original_path_of name with
  | Some content =>
      if valid_name name
      then (dict_set name (doc_output name content).2 acc.1,
            doc_files name content acc.2)
      else acc
  | None => acc
  end.

Definition documents_result (d : list (string * list nav_entry))
    (fs : gmap string string) (names : list string)
    : list (string * list nav_entry) * gmap string string :=
  foldl document_step (d, fs) names.

(** What the documents of [names] that are processed put at the path [p]:
    the text, or the absence, left by the last of them whose directory holds
    [p]; [None] when [p] is in the directory of none of them. *)
Fixpoint overlay (fs : gmap string string) (names : list string) (p : string)
    : option (option string) :=
  match names with
  | [] => None
  | name :: names' =>
      match overlay fs names' p with
      | Some v => Some v
      | None =>
          match fs !! original_path_of name with
          | Some content =>
              if valid_name name && under ("docs/" +:+ name) p
              then Some (doc_files name content ∅ !! p)
              else None
          | None => None
          end
      end
  end.

(** The value of [split] and the files it leaves, from the files it
    starts with. *)
Definition split_result (names : list string) (fs : gmap string string)
    : (exn + list (string * list nav_entry)) * gmap string string :=
  let '(d, fs') := documents_result [] fs names in
  match d with
  | [] => (inr d, fs')
  | _ =>
      match fs' !! template_path with
      | Some template =>
          (inr d,
           <[config_path :=
               replace "// template: sidebar" (generate_sidebar_config d)
                 template]> fs')
      | None => (inl (FileNotFoundError template_path), fs')
      end
  end.

End run_vocabulary.

(** ** Sample documents *)

(** The document "oj" of ten lines under the single heading "Basics". *)
Definition basics_doc : string :=
  join_lines ["# Basics"; "l2"; "l3"; "l4"; "l5"; "l6"; "l7"; "l8"; "l9"; "l10"].

Definition basics_ast : list block :=
  [Heading 1 [IRaw "text" "Basics"]; Other "paragraph"].

(** A world that holds the source of the document "oj" and the template of
    the configuration file, and nothing else. *)
Definition sample_world : world :=
  mk_world {[ "original/oj.md" := basics_doc;
              "config.templ.mjs" := "sidebar: { // template: sidebar }" ]} [].

(** A document without any heading. *)
Definition plain_doc : string := join_lines ["plain text"; "more text"].

Definition plain_ast : list block := [Other "paragraph"].

(** A document whose only heading holds an image and no text: the image
    node has no ['raw'] entry and no children to take text from. *)
Definition untitled_doc : string := join_lines ["# ![](logo.png)"; "intro"].

Definition untitled_ast : list block :=
  [Heading 1 [INested "image" []]; Other "paragraph"].

(** A document whose only heading is a mark followed by a space. *)
Definition blank_title_doc : string := join_lines ["# "; "intro"].

Definition blank_title_ast : list block :=
  [Heading 1 []; Other "paragraph"].

(** A document that opens with a fenced block showing a line that is also
    the second heading, which takes that line. *)
Definition fence_doc : string :=
  join_lines ["```"; "# B"; "```"; "# A"; "# B"].

Definition fence_ast : list block :=
  [Other "block_code"; Heading 1 [IRaw "text" "A"];
   Heading 1 [IRaw "text" "B"]].

(** A document of 502 lines: a level 1 heading, a level 2 heading and 500
    lines of text. *)
Definition long_doc : string :=
  join_lines ("# A" :: "## B" :: replicate 500 "x").

Definition long_ast : list block :=
  [Heading 1 [IRaw "text" "A"]; Heading 2 [IRaw "text" "B"];
   Other "paragraph"].

(** A document whose headings are met in the order of their lines. *)
Definition ordered_doc : string := join_lines ["# P"; "## X"; "## Y"].

Definition ordered_ast : list block :=
  [Heading 1 [IRaw "text" "P"]; Heading 2 [IRaw "text" "X"];
   Heading 2 [IRaw "text" "Y"]].

(** A document in which a fenced block shows a line that is also a later
    heading: the heading Z takes the line inside the block. *)
Definition overlap_doc : string :=
  join_lines ["# P"; "## X"; "```"; "## Z"; "```"; "## Y"; "## Z"].

Definition overlap_ast : list block :=
  [Heading 1 [IRaw "text" "P"]; Heading 2 [IRaw "text" "X"];
   Other "block_code"; Heading 2 [IRaw "text" "Y"];
   Heading 2 [IRaw "text" "Z"]].

(** ** Further vocabulary *)

(** Every character of [s] satisfies [p]. *)
Fixpoint all_chars (p : ascii → bool) (s : string) : bool :=
  match s with
  | EmptyString => true
  | String c s' => p c && all_chars p s'
  end.

(** A character of a file name: a word character or a hyphen, and not an
    upper case letter. *)
Definition safe_char (c : ascii) : bool :=
  (is_word c || (code c =? 45)) && negb (is_upper c).

(** A file name made by the allocator. *)
Definition safe_name (file_name : string) : Prop :=
  file_name ≠ "" ∧ all_chars safe_char file_name = true.

(** The links of a sidebar entry, that of the entry first, and those of a
    sidebar structure. *)
Definition entry_links (entry : nav_entry) : list string :=
  option_list (link entry) ++ (item_link <$> items entry).

Definition structure_links (structure : list nav_entry) : list string :=
  concat (entry_links <$> structure).

(** The file that a link of the sidebar names. *)
Definition path_of_link (l : string) : string := "docs" +:+ l +:+ ".md".

(** A sidebar entry as the splitter makes them: a title, and either a link
    to its own file and no items, or no link and one item per file of a
    level 2 section. *)
Definition well_shaped (entry : nav_entry) : Prop :=
  text entry ≠ "" ∧ (link entry = None ∨ items entry = []).

(** What the loop of the splitter keeps true of the sidebar: every link,
    saved or current, names a file that was written, and the current entry
    has a link or items but not both. *)
Definition linked (st : loop_state) : Prop :=
  (∀ l, l ∈ structure_links (sidebar_structure st) →
        path_of_link l ∈ (written st).*1)
  ∧ (∀ l, current_l1_link st = Some l → path_of_link l ∈ (written st).*1)
  ∧ (∀ item, item ∈ current_l1_items st →
             path_of_link (item_link item) ∈ (written st).*1)
  ∧ Forall well_shaped (sidebar_structure st)
  ∧ (current_l1_link st = None ∨ current_l1_items st = []).

(** The headings of level 1 and 2 of an AST, with the texts that
    [extract_heading_text] gives them, in the order of the AST. *)
Fixpoint ast_headings (ast : list block) : list (nat * string) :=
  match ast with
  | [] => []
  | Heading lvl children :: ast' =>
      if lvl <=? 2
      then (lvl, extract_heading_text children) :: ast_headings ast'
      else ast_headings ast'
  | Other _ :: ast' => ast_headings ast'
  end.

(** The positions of the first pass are, one for one and in order, the lines
    of the headings of level 1 and 2 of the AST: same level, and the test of
    the second pass holds between the heading and its line. *)
Fixpoint aligned (ast : list block) (ps : positions) : Prop :=
  match ast with
  | [] => ps = []
  | Heading lvl children :: ast' =>
      if lvl <=? 2
      then match ps with
           | (_, (l, line)) :: ps' =>
               l = lvl
               ∧ heading_matches lvl (extract_heading_text children) (l, line)
                 = true
               ∧ aligned ast' ps'
           | [] => False
           end
      else aligned ast' ps
  | Other _ :: ast' => aligned ast' ps
  end.

(** The line numbers of a list of positions increase. *)
Fixpoint increasing_keys (ps : positions) : Prop :=
  match ps with
  | [] => True
  | (n, _) :: ps' => Forall (λ item, n < item.1) ps' ∧ increasing_keys ps'
  end.


(** The names of a list in the order of their first occurrence, leaving out
    those that are in [seen]: the order of the keys of a Python dictionary
    that the names are assigned to in turn. *)
Fixpoint first_occurrences (seen : list string) (l : list string)
    : list string :=
  match l with
  | [] => []
  | x :: l' =>
      if decide (x ∈ seen) then first_occurrences seen l'
      else x :: first_occurrences (x :: seen) l'
  end.

(** A world with the source of one document and no template. *)
Definition bare_world : world :=
  mk_world {[ "original/oj.md" := basics_doc ]} [].

(** The marker of the template that [update_config_file] replaces. *)
Definition sidebar_marker : string := "// template: sidebar".

(** The text [old] does not occur in [s] from a position before [n]. *)
Definition absent_before (old s : string) (n : nat) : Prop :=
  ∀ i, i < n → startswith old (drop_chars i s) = false.

(** The level of the first section whose level is 1 or 2. *)
Fixpoint leading_level (sections : list section) : option nat :=
  match sections with
  | [] => None
  | sec :: sections' =>
      if (level sec =? 1) || (level sec =? 2) then Some (level sec)
      else leading_level sections'
  end.

(** The titles that the sidebar has or will have for the state of the loop:
    those of the saved entries, then that of the current one when it will be
    saved. *)
Definition titles (st : loop_state) : list string :=
  (text <$> sidebar_structure st)
  ++ match current_l1_name st with
     | Some l1_name => if decide (l1_name = "") then [] else [l1_name]
     | None => []
     end.

(** What the loop keeps true of the files when every level 1 section has a
    title: each file written is named by a link, saved or current. *)
Definition covered (st : loop_state) : Prop :=
  current_l1_name st ≠ Some ""
  ∧ (current_l1_name st = None →
     current_l1_link st = None ∧ current_l1_items st = [])
  ∧ ∀ p, p ∈ (written st).*1 →
      ∃ l, p = path_of_link l
           ∧ (l ∈ structure_links (sidebar_structure st)
              ∨ current_l1_link st = Some l
              ∨ l ∈ item_link <$> current_l1_items st).

(** A document with a short section, then a long one with two parts. *)
Definition two_part_sections : list section :=
  [ mk_section 1 "Intro" 0 3;
    mk_section 1 "Problems" 3 600;
    mk_section 2 "1A. Theatre Square" 4 300;
    mk_section 2 "4A. Watermelon" 300 600 ].

(** ** Vocabulary for texts in ASCII

    On a text whose characters are all below 128 the characters of the
    model are the characters of Python: lengths and slices count the same
    units, and the classes [\w], [\d], [\s], [str.strip] and [str.lower]
    are those of the model. *)
Definition is_ascii (s : string) : bool :=
  all_chars (λ c, code c <? 128) s.



(** The directory of the configuration file exists: [update_config_file]
    opens the file for writing without making the directory, and the write
    raises when it is missing.  In the world a directory exists through a
    file below it. *)
Definition config_directory : string := "docs/.vitepress".

Definition has_directory (w : world) (dir : string) : Prop :=
  (dir_exists dir w).1 = inr true.

(** ** Vocabulary of the downloader *)

Definition etag_path_of (name : string) : string := "etag/" +:+ name.

(** The value of the [If-None-Match] header of a request: the stored tag
    without the white space around it, when there is one and it is not
    empty. *)
Definition request_header (fs : gmap string string) (etag_path : string)
    : option string :=
  match fs !! etag_path with
  | Some content =>
      let etag := strip is_space content in
      if decide (etag = "") then None else Some etag
  | None => None
  end.

Definition is_new (resp : response) : bool := (status_code resp =? 200)%Z.

Definition not_modified (resp : response) : bool :=
  (status_code resp =? 304)%Z.

(** The files after a response with new content has been handled: the tag
    of the response is stored when it has one that is not empty. *)
Definition store_etag (etag_path : string) (resp : response)
    (fs : gmap string string) : gmap string string :=
  match header_etag resp with
  | Some etag =>
      if decide (etag = "") then fs
      else <[etag_path := universal_newlines false etag]> fs
  | None => fs
  end.

(** The exception that [sync_github] raises for an answer that is neither
    new content nor not modified. *)
Definition failure_of (answer : option response) : fetch_exn :=
  match answer with
  | Some resp => HTTPError (status_code resp)
  | None => RequestException
  end.

Section downloads.
Variable get : string → option string → option response.

(** The answer to the request for a document, sent from the files [fs]. *)
Definition fetched (fs : gmap string string) (answer : Config.Answer)
    : option response :=
  get (Config.url answer)
    (request_header fs (etag_path_of (Config.name answer))).

Definition has_new (fs : gmap string string) (answer : Config.Answer) : bool :=
  match fetched fs answer with
  | Some resp => is_new resp
  | None => false
  end.

(** The request is answered with new content or with not modified. *)
Definition answered (fs : gmap string string) (answer : Config.Answer)
    : bool :=
  match fetched fs answer with
  | Some resp => is_new resp || not_modified resp
  | None => false
  end.

(** What one turn of the loop of [main] makes of the files [fs], for the
    answer to the request sent from the files [fs0]. *)
Definition downloaded (fs0 fs : gmap string string) (answer : Config.Answer)
    : gmap string string :=
  match fetched fs0 answer with
  | Some resp =>
      if is_new resp
      then <[original_path_of (Config.name answer) :=
               universal_newlines false (resp_text resp)]>
             (store_etag (etag_path_of (Config.name answer)) resp fs)
      else fs
  | None => fs
  end.

End downloads.

(** A server that has new content for every request without a tag, and
    answers not modified to a request with the tag it gave. *)
Definition sample_get (url : string) (header : option string)
    : option response :=
  match header with
  | None => Some (mk_response 200 (Some "W/tag1") basics_doc)
  | Some tag =>
      if decide (tag = "W/tag1") then Some (mk_response 304 None "")
      else Some (mk_response 500 None "")
  end.

Definition empty_world : world := mk_world ∅ [].

(** A tag path with a directory part and the name of a document. *)
Definition tag_path (dir name : string) : string := dir +:+ "/" +:+ name.

(** The second answer of [ANSWERS]. *)
Definition cf_answer : Config.Answer :=
  Config.mk_answer "cf"
    ("https://raw.githubusercontent.com/GMyhf/2020fall-cs101/refs/heads/"
     +:+ "main/2020fall_Codeforces_problems.md").

(** The tag stored at a path, if any, is in ASCII: the stored tag is read
    and trimmed as Python does. *)
Definition ascii_tag (fs : gmap string string) (etag_path : string) : Prop :=
  ∀ content, fs !! etag_path = Some content → is_ascii content = true.

(** ** Sources that exist and cannot be read

    [split] opens a source with [encoding='utf-8']: [open] raises an
    [OSError] when the file cannot be opened for reading, and [f.read()]
    raises [UnicodeDecodeError] when its bytes are not UTF-8.  Such a file
    exists for [os.path.exists] and has no text, so it is not in the map of
    the world, which holds the text of every file that can be read.  Here
    the loop of [split] is embedded with these files beside the world.
    [split] catches no exception: what a document raises leaves the loop
    and the function. *)

Inductive run_exn : Type :=
| Raised (e : exn)
| UnicodeDecodeError (path : string)
| OSError (path : string).

(** Why a file that exists has no text. *)
Inductive read_failure : Type :=
| NotUTF8
| CannotOpen.

Definition read_exn (path : string) (failure : read_failure) : run_exn :=
  match failure with
  | NotUTF8 => UnicodeDecodeError path
  | CannotOpen => OSError path
  end.

(** A computation of the first embedding, with its exceptions. *)
Definition lift_run {A} (r : (exn + A) * world) : (run_exn + A) * world :=
  match r.1 with
  | inr a => (inr a, r.2)
  | inl e => (inl (Raised e), r.2)
  end.

Section unreadable_sources.
Variable markdown : string → list block.

(** The files that exist and cannot be read, each with the reason. *)
Variable unreadable : gmap string read_failure.

(** The body of the loop: a valid name whose source exists without a text
    passes the test of [os.path.exists], prints its first line, and raises
    where the source is opened and read; every other name is handled as in
    [split_document]. *)
Definition split_document_reading
    (all_structures : list (string * list nav_entry)) (name : string)
    (w : world) : (run_exn + list (string * list nav_entry)) * world :=
  if valid_name name then
    match unreadable !! original_path_of name with
    | Some failure =>
        (inl (read_exn (original_path_of name) failure),
         mk_world (files w)
           (stdout w ++ ["Processing " +:+ name +:+ " from original/"
                         +:+ name +:+ ".md..."]))
    | None => lift_run (split_document markdown all_structures name w)
    end
  else lift_run (split_document markdown all_structures name w).

Fixpoint split_documents_reading
    (all_structures : list (string * list nav_entry)) (names : list string)
    (w : world) : (run_exn + list (string * list nav_entry)) * world :=
  match names with
  | [] => (inr all_structures, w)
  | name :: names' =>
      match split_document_reading all_structures name w with
      | (inr all_structures', w') =>
          split_documents_reading all_structures' names' w'
      | (inl e, w') => (inl e, w')
      end
  end.

(** [split(names)]: the loop, then the configuration and the last line as
    in [split]. *)
Definition split_reading (names : list string) (w : world)
    : (run_exn + list (string * list nav_entry)) * world :=
  match split_documents_reading [] names w with
  | (inr all_structures, w') =>
      lift_run
        (((match all_structures with
           | [] => ret ()
           | _ =>
               print "Generating sidebar configuration...";;
               let sidebar_config := generate_sidebar_config all_structures in
               update_config_file sidebar_config;;
               print "Updated docs/.vitepress/config.mjs"
           end : io unit);;
          print "Done!";;
          ret all_structures) w')
  | (inl e, w') => (inl e, w')
  end.

End unreadable_sources.

(** A world as a site has it: the source of the document "oj", the template
    of the configuration file, and a configuration file of an earlier run in
    the directory [docs/.vitepress]. *)
Definition site_world : world :=
  mk_world {[ "original/oj.md" := basics_doc;
              "config.templ.mjs" := "sidebar: { // template: sidebar }";
              "docs/.vitepress/config.mjs" := "sidebar: {}" ]} [].
(** * Properties *)

(** ** Properties of the text operations *)

Section text_lemmas.

Lemma string_app_cons c (a b : string) : String c a +:+ b = String c (a +:+ b).
Proof. reflexivity. Qed.

Lemma string_app_empty_l (a : string) : "" +:+ a = a.
Proof. reflexivity. Qed.

Lemma string_app_empty_r (a : string) : a +:+ "" = a.
Proof. induction a as [|c a IH]; [done|]. by rewrite string_app_cons, IH. Qed.

Lemma string_app_assoc (a b c : string) : (a +:+ b) +:+ c = a +:+ b +:+ c.
Proof.
  induction a as [|x a IH]; [done|]. by rewrite !string_app_cons, IH.
Qed.

Lemma split_lines_nonempty s : split_lines s ≠ [].
Proof.
  destruct s as [|c s]; simpl; [done|].
  case_decide; [done|]. by destruct (split_lines s).
Qed.

Lemma split_lines_no_newline s :
  Forall (λ l, has_newline l = false) (split_lines s).
Proof.
  induction s as [|c s IH]; simpl.
  - by repeat constructor.
  - case_decide as Hc.
    + by constructor.
    + destruct (split_lines s) as [|l ls]; inversion IH; subst;
        constructor; simpl; try done; rewrite bool_decide_eq_false_2; done.
Qed.

Lemma join_split_lines s : join_lines (split_lines s) = s.
Proof.
  induction s as [|c s IH]; simpl; [done|].
  case_decide as Hc.
  - subst c. pose proof (split_lines_nonempty s) as Hne.
    destruct (split_lines s) as [|l ls]; [done|].
    change (join_lines ("" :: l :: ls)) with (nl +:+ join_lines (l :: ls)).
    by rewrite IH.
  - destruct (split_lines s) as [|l ls] eqn:E.
    + by destruct (split_lines_nonempty s).
    + rewrite <- IH. by destruct ls.
Qed.

Lemma split_lines_app_line l s :
  has_newline l = false →
  split_lines (l +:+ nl +:+ s) = l :: split_lines s.
Proof.
  induction l as [|c l IH]; simpl; intros Hl.
  - done.
  - apply orb_false_iff in Hl as [Hc Hl]. apply bool_decide_eq_false in Hc.
    rewrite decide_False by done. by rewrite IH.
Qed.

Lemma split_lines_line l : has_newline l = false → split_lines l = [l].
Proof.
  induction l as [|c l IH]; simpl; intros Hl; [done|].
  apply orb_false_iff in Hl as [Hc Hl]. apply bool_decide_eq_false in Hc.
  rewrite decide_False by done. by rewrite IH.
Qed.

(** Splitting a joined list of lines gives the lines back, and the single
    empty line for the empty list. *)
Lemma split_join_lines ls :
  Forall (λ l, has_newline l = false) ls →
  split_lines (join_lines ls) = match ls with [] => [""] | _ => ls end.
Proof.
  induction 1 as [|l ls Hl Hls IH]; [done|].
  destruct ls as [|l' ls].
  - simpl. by apply split_lines_line.
  - change (join_lines (l :: l' :: ls))
      with (l +:+ nl +:+ join_lines (l' :: ls)).
    rewrite split_lines_app_line by done. by rewrite IH.
Qed.

(** Joining two non-empty lists of lines. *)
Lemma join_lines_app ls1 ls2 :
  ls1 ≠ [] → ls2 ≠ [] →
  join_lines (ls1 ++ ls2) = join_lines ls1 +:+ nl +:+ join_lines ls2.
Proof.
  intros H1 H2. induction ls1 as [|l ls1 IH]; [done|].
  destruct ls1 as [|l' ls1].
  - simpl. by destruct ls2.
  - change (join_lines ((l :: l' :: ls1) ++ ls2))
      with (l +:+ nl +:+ join_lines ((l' :: ls1) ++ ls2)).
    rewrite IH by done.
    change (join_lines (l :: l' :: ls1))
      with (l +:+ nl +:+ join_lines (l' :: ls1)).
    by rewrite !string_app_assoc.
Qed.

Lemma take_chars_all n s : String.length s ≤ n → take_chars n s = s.
Proof.
  revert n. induction s as [|c s IH]; intros [|n] Hn; simpl in *;
    try done; try lia.
  rewrite IH; [done|lia].
Qed.

Lemma slice_app {A} (ls : list A) a b c :
  a ≤ b → b ≤ c → slice ls a b ++ slice ls b c = slice ls a c.
Proof.
  intros Hab Hbc. unfold slice.
  replace (c - a) with ((b - a) + (c - b)) by lia.
  rewrite <- take_take_drop, drop_drop.
  by replace (a + (b - a)) with b by lia.
Qed.

End text_lemmas.


(** [str(n)] and the [{n}] of an f-string, for a natural number. *)
Example pretty_decimal : pretty 0 = "0" ∧ pretty 10 = "10" ∧ pretty 123 = "123".
Proof. by vm_compute. Qed.

Lemma drop_chars_length n s :
  String.length (drop_chars n s) = String.length s - n.
Proof.
  revert s. induction n as [|n IH]; intros [|c s]; simpl; try done; lia.
Qed.

Lemma startswith_length p s :
  startswith p s = true → String.length p ≤ String.length s.
Proof.
  revert s. induction p as [|x p IH]; intros [|y s]; simpl; try done; [lia|].
  case_decide; [|done]. intros Hp. apply IH in Hp. lia.
Qed.

(** The fuel of [replace] is enough: more fuel gives the same text. *)
Lemma replace_go_fuel old new s fuel1 fuel2 :
  old ≠ "" →
  String.length s < fuel1 → String.length s < fuel2 →
  replace_go fuel1 old new s = replace_go fuel2 old new s.
Proof.
  intros Hold. revert s fuel2.
  induction fuel1 as [|fuel1 IH]; intros s [|fuel2] H1 H2; try lia.
  cbn [replace_go]. destruct (startswith old s) eqn:Hs.
  - f_equal. apply IH.
    + apply startswith_length in Hs. rewrite drop_chars_length.
      destruct old; [done|]. simpl in *. lia.
    + apply startswith_length in Hs. rewrite drop_chars_length.
      destruct old; [done|]. simpl in *. lia.
  - destruct s as [|c s]; [done|]. f_equal. apply IH; simpl in *; lia.
Qed.
(** ** Sanity checks of the name rules *)

Example base_name_theatre : base_name_of "1A. Theatre Square" = "1a".
Proof. reflexivity. Qed.
Example base_name_hangover : base_name_of "01003: Hangover" = "01003".
Proof. reflexivity. Qed.
Example base_name_slug : base_name_of "Basic Problems" = "basic-problems".
Proof. reflexivity. Qed.
Example base_name_slug2 : base_name_of "  --Problem 12B: x-y  " = "problem-12b-x-y".
Proof. reflexivity. Qed.
Example names_example :
  (heading_names ["1A. Theatre Square"; "1A. Other"; "???"] ∅).1
  = ["1a"; "1a-1"; "unnamed"].
Proof. vm_compute. reflexivity. Qed.

(** ** Properties of the name allocator *)

Section allocator.
Implicit Types (used : gset string) (base : string).

Lemma suffixed_inj base i j : suffixed base i = suffixed base j → i = j.
Proof.
  unfold suffixed. intros H.
  apply (inj (String.app base)) in H.
  apply (inj (String.app "-")) in H.
  by apply (inj pretty) in H.
Qed.

(** The loop returns a counter at or after its start; every counter it
    passed names a used name; unless the fuel ran out, its own is free. *)
Lemma next_counter_scan used base fuel c :
  let k := next_counter used base fuel c in
  c ≤ k ≤ c + fuel
  ∧ (∀ j, c ≤ j < k → suffixed base j ∈ used)
  ∧ (k < c + fuel → suffixed base k ∉ used).
Proof.
  revert c. induction fuel as [|fuel IH]; intros c; simpl.
  - split_and!; intros; lia.
  - case_decide as Hin.
    + destruct (IH (S c)) as (Hle & Hused & Hfree).
      split_and!; try lia.
      * intros j Hj. destruct (decide (j = c)) as [->|]; [done|].
        apply Hused. lia.
      * intros Hk. apply Hfree. lia.
    + split_and!; try done; intros; lia.
Qed.

(** Pigeonhole: distinct names in the set are no more than its size. *)
Lemma used_run_bound used base c n :
  (∀ j, c ≤ j < c + n → suffixed base j ∈ used) → n ≤ size used.
Proof.
  intros Hall.
  set (l := suffixed base <$> seq c n).
  assert (NoDup l) as Hnd.
  { apply NoDup_fmap_2_strong; [|apply NoDup_seq].
    intros i j _ _. apply suffixed_inj. }
  assert (list_to_set l ⊆ used) as Hsub.
  { intros x Hx. apply elem_of_list_to_set in Hx.
    apply list_elem_of_fmap in Hx as (j & -> & Hj).
    apply elem_of_seq in Hj. apply Hall. lia. }
  apply subseteq_size in Hsub.
  rewrite size_list_to_set in Hsub by done.
  unfold l in Hsub. rewrite length_fmap, length_seq in Hsub. done.
Qed.

Lemma next_counter_spec used base :
  let k := next_counter used base (S (size used)) 1 in
  1 ≤ k
  ∧ (suffixed base k ∉ used)
  ∧ (∀ j, 1 ≤ j < k → suffixed base j ∈ used).
Proof.
  intros k.
  destruct (next_counter_scan used base (S (size used)) 1)
    as (Hle & Hused & Hfree).
  fold k in Hle, Hused, Hfree.
  repeat split; [lia| |done].
  apply Hfree.
  destruct (decide (k < 1 + S (size used))) as [|Hge]; [done|].
  assert (S (size used) ≤ size used); [|lia].
  apply (used_run_bound used base 1). intros j Hj. apply Hused. lia.
Qed.

(** One call: the name returned is new and is what the set gains. *)
Lemma heading_to_name_fresh text used :
  let '(n, used') := heading_to_name text used in
  (n ∉ used) ∧ used' = {[n]} ∪ used.
Proof.
  unfold heading_to_name. case_decide as Hin; [|done].
  split; [|done]. apply next_counter_spec.
Qed.

Lemma heading_names_fresh texts used :
  let '(ns, used') := heading_names texts used in
  NoDup ns ∧ (∀ n, n ∈ ns → n ∉ used) ∧ used ⊆ used'
  ∧ (∀ n, n ∈ ns → n ∈ used').
Proof.
  revert used. induction texts as [|t texts IH]; intros used; simpl.
  - repeat split; [constructor|..]; set_solver.
  - pose proof (heading_to_name_fresh t used) as H1.
    destruct (heading_to_name t used) as [n u1]. destruct H1 as [Hn ->].
    specialize (IH ({[n]} ∪ used)).
    destruct (heading_names texts ({[n]} ∪ used)) as [ns u2].
    destruct IH as (Hnd & Hnew & Hsub & Hin).
    repeat split.
    + constructor; [|done]. intros Hmem. apply (Hnew _ Hmem). set_solver.
    + intros m Hm. apply elem_of_cons in Hm as [->|Hm]; [done|].
      specialize (Hnew _ Hm). set_solver.
    + set_solver.
    + intros m Hm. apply elem_of_cons in Hm as [->|Hm]; set_solver.
Qed.

End allocator.

(** C4. In one pass over any list of heading texts against one shared set of
    used names, the allocator returns no name twice and no name that was in
    the set before; a call whose candidate is free returns the candidate, and
    a call whose candidate is taken returns the candidate with the first free
    suffix among -1, -2, ...; on "1A. Theatre Square", "1A. Other", "???" the
    names are "1a", "1a-1", "unnamed". *)
Theorem allocator_never_repeats :
  (∀ (texts : list string) (used : gset string),
     NoDup (heading_names texts used).1
     ∧ ∀ n, n ∈ (heading_names texts used).1 → n ∉ used)
  ∧ (∀ (text : string) (used : gset string),
       (base_name_of text ∉ used →
        heading_to_name text used
        = (base_name_of text, {[base_name_of text]} ∪ used))
       ∧ (base_name_of text ∈ used →
          ∃ k, 1 ≤ k
            ∧ heading_to_name text used
              = (suffixed (base_name_of text) k,
                 {[suffixed (base_name_of text) k]} ∪ used)
            ∧ (suffixed (base_name_of text) k ∉ used)
            ∧ ∀ j, 1 ≤ j < k → suffixed (base_name_of text) j ∈ used))
  ∧ (heading_names ["1A. Theatre Square"; "1A. Other"; "???"] ∅).1
    = ["1a"; "1a-1"; "unnamed"].
Proof.
  split; [|split].
  - intros texts used.
    pose proof (heading_names_fresh texts used) as Hfresh.
    destruct (heading_names texts used) as [ns u]. simpl.
    destruct Hfresh as (Hnd & Hnew & _). done.
  - intros text used. split; intros Hb; unfold heading_to_name.
    + by rewrite decide_False.
    + rewrite decide_True by done.
      destruct (next_counter_spec used (base_name_of text)) as (Hk & Hfree & Hused).
      exists (next_counter used (base_name_of text) (S (size used)) 1).
      split_and!; done.
  - vm_compute. reflexivity.
Qed.

Lemma allocator_never_repeats_witness :
  base_name_of "1A. Other" ∈ ({["1a"]} : gset string)
  ∧ heading_to_name "1A. Other" {["1a"]} = ("1a-1", {["1a-1"]} ∪ {["1a"]}).
Proof.
  assert (base_name_of "1A. Other" ∈ ({["1a"]} : gset string)) as Hin
    by by vm_compute.
  split; [done|].
  destruct (proj2 (proj1 (proj2 allocator_never_repeats) "1A. Other" {["1a"]})
              Hin) as (k & Hk & Heq & Hfree & Hused).
  rewrite Heq.
  assert (k = 1) as ->.
  { destruct (decide (k = 1)) as [|Hne]; [done|].
    exfalso. assert (suffixed (base_name_of "1A. Other") 1
                       ∈ ({["1a"]} : gset string)) as H1
      by (apply Hused; lia).
    vm_compute in H1. discriminate H1. }
  reflexivity.
Defined.
(** ** Properties of the heading extractor *)

Section reconciliation.
Implicit Types (ps : positions) (hs : list heading).

(** The test of the inner loop, spelled out: same level, and the text of the
    line after its marks, trimmed, contains the heading text or starts with
    the first 20 characters of it. *)
Lemma heading_matches_iff lvl text line_level line :
  let line_text := strip is_space (drop_chars lvl line) in
  heading_matches lvl text (line_level, line) = true
  ↔ line_level = lvl
    ∧ (contains text line_text = true
       ∨ startswith (take_chars 20 text) line_text = true).
Proof.
  unfold heading_matches. cbv zeta.
  rewrite andb_true_iff, orb_true_iff, Nat.eqb_eq.
  destruct (20 <=? String.length text) eqn:Hlen; [done|].
  apply Nat.leb_gt in Hlen.
  rewrite take_chars_all by lia. done.
Qed.

(** The inner loop returns the least line number among the matching items,
    [acc] standing for the value of [best_match] it starts from. *)
Lemma foldl_better_spec lvl text ps acc :
  match foldl (better lvl text) acc ps with
  | None =>
      acc = None
      ∧ ∀ n e, (n, e) ∈ ps → heading_matches lvl text e = false
  | Some b =>
      (acc = Some b ∨ ∃ e, (b, e) ∈ ps ∧ heading_matches lvl text e = true)
      ∧ (∀ a, acc = Some a → b ≤ a)
      ∧ (∀ n e, (n, e) ∈ ps → heading_matches lvl text e = true → b ≤ n)
  end.
Proof.
  revert acc. induction ps as [|[n e] ps IH]; intros acc; cbn [foldl].
  - destruct acc; setoid_rewrite elem_of_nil; naive_solver.
  - specialize (IH (better lvl text acc (n, e))).
    destruct (foldl (better lvl text) (better lvl text acc (n, e)) ps)
      as [b|] eqn:Hfold; unfold better in IH;
      setoid_rewrite elem_of_cons;
      destruct (heading_matches lvl text e) eqn:Hm.
    + destruct IH as (Hfrom & Hacc & Hmin).
      assert (∀ n0 e0, (n0, e0) = (n, e) ∨ (n0, e0) ∈ ps →
                heading_matches lvl text e0 = true → b ≤ n0) as Hmin'.
      { intros n0 e0 [[= -> ->]|Hin] Hm0; [|by eauto].
        destruct acc as [a|]; [destruct (n <? a) eqn:Hlt|];
          pose proof (Hacc _ eq_refl);
          try apply Nat.ltb_lt in Hlt; try apply Nat.ltb_ge in Hlt; lia. }
      split_and!; [| |done].
      * destruct acc as [a|]; [destruct (n <? a)|];
          (destruct Hfrom as [[= <-]|(e' & Hin & He')];
           [by eauto|by eauto 6]).
      * intros a0 ->. destruct (n <? a0) eqn:Hlt;
          pose proof (Hacc _ eq_refl);
          try apply Nat.ltb_lt in Hlt; lia.
    + destruct IH as (Hfrom & Hacc & Hmin). split_and!.
      * destruct Hfrom as [->|(e' & Hin & He')]; by eauto 6.
      * done.
      * intros n0 e0 [[= -> ->]|Hin] Hm0; [congruence|by eauto].
    + destruct acc as [a|]; [destruct (n <? a)|]; naive_solver.
    + naive_solver.
Qed.

Lemma find_best_match_spec lvl text ps :
  match find_best_match lvl text ps with
  | None => ∀ n e, (n, e) ∈ ps → heading_matches lvl text e = false
  | Some b =>
      (∃ e, (b, e) ∈ ps ∧ heading_matches lvl text e = true)
      ∧ (∀ n e, (n, e) ∈ ps → heading_matches lvl text e = true → b ≤ n)
  end.
Proof.
  unfold find_best_match.
  pose proof (foldl_better_spec lvl text ps None) as H.
  destruct (foldl (better lvl text) None ps) as [b|].
  - destruct H as ([?|?] & _ & ?); done.
  - by destruct H.
Qed.

(** The first pass: an item for every line that has a level, at its index. *)
Lemma elem_of_scan_headings i lines n l line :
  (n, (l, line)) ∈ scan_headings i lines
  ↔ ∃ k, n = i + k ∧ lines !! k = Some line ∧ raw_heading_level line = Some l.
Proof.
  revert i. induction lines as [|x lines IH]; intros i; simpl.
  - split; [intros H; by apply elem_of_nil in H|]. by intros (k & _ & ? & _).
  - destruct (raw_heading_level x) as [lx|] eqn:Hx.
    + rewrite elem_of_cons, IH. split.
      * intros [[= ? ? ?]|(k & ? & Hk & Hl)]; subst.
        -- exists 0. split_and!; [lia|done..].
        -- exists (S k). split_and!; [lia|done..].
      * intros ([|k] & ? & Hk & Hl); subst; simpl in Hk.
        -- left. simplify_eq. f_equal. lia.
        -- right. exists k. split_and!; [lia|done..].
    + rewrite IH. split.
      * intros (k & ? & Hk & Hl); subst. exists (S k). split_and!; [lia|done..].
      * intros ([|k] & ? & Hk & Hl); subst; simpl in Hk.
        -- simplify_eq.
        -- exists k. split_and!; [lia|done..].
Qed.

Lemma scan_headings_keys i lines :
  NoDup (scan_headings i lines).*1
  ∧ ∀ n, n ∈ (scan_headings i lines).*1 → i ≤ n.
Proof.
  revert i. induction lines as [|x lines IH]; intros i; simpl.
  - split; [constructor|]. intros n H. by apply elem_of_nil in H.
  - destruct (IH (S i)) as [Hnd Hge].
    destruct (raw_heading_level x) as [lx|]; simpl.
    + split.
      * constructor; [|done]. intros Hin. apply Hge in Hin. lia.
      * intros n Hin. apply elem_of_cons in Hin as [->|Hin]; [lia|].
        apply Hge in Hin. lia.
    + split; [done|]. intros n Hin. apply Hge in Hin. lia.
Qed.

Lemma elem_of_del_position b ps item :
  item ∈ del_position b ps ↔ item ∈ ps ∧ item.1 ≠ b.
Proof. unfold del_position. rewrite list_elem_of_filter. tauto. Qed.

Lemma del_position_keys b ps :
  NoDup ps.*1 → NoDup (del_position b ps).*1 ∧ b ∉ (del_position b ps).*1.
Proof.
  intros Hnd. split.
  - unfold del_position. induction ps as [|[n e] ps IH]; simpl; [constructor|].
    inversion Hnd as [|? ? Hn Hnd']; subst.
    rewrite filter_cons. simpl. case_decide; simpl; [|by apply IH].
    constructor; [|by apply IH].
    intros Hin. apply Hn.
    apply list_elem_of_fmap in Hin as (item & -> & Hitem).
    apply list_elem_of_filter in Hitem as [_ Hitem].
    apply list_elem_of_fmap. by exists item.
  - intros Hin. apply list_elem_of_fmap in Hin as (item & -> & Hitem).
    apply elem_of_del_position in Hitem as [_ Hne]. done.
Qed.

Lemma match_node_reconciled ps0 st node :
  reconciled ps0 st → reconciled ps0 (match_node st node).
Proof.
  destruct st as [ps hs]. intros (Hps & Hhs & Hdisj & Hsub & Hfrom).
  destruct node as [lvl children|ty]; simpl; [|done].
  destruct (lvl <=? 2); [|done].
  pose proof (find_best_match_spec lvl (extract_heading_text children) ps) as Hb.
  destruct (find_best_match lvl (extract_heading_text children) ps) as [b|];
    [|done].
  destruct Hb as (([l line] & Hin & Hm) & _).
  apply heading_matches_iff in Hm as [-> _].
  simpl in *. destruct (del_position_keys b ps Hps) as [Hnd Hnot].
  split_and!; simpl.
  - done.
  - rewrite fmap_app. simpl. apply NoDup_app. split_and!; [done| |].
    + intros n Hn Hn'. apply list_elem_of_singleton in Hn' as ->.
      apply list_elem_of_fmap in Hn as (h & Hh & Hhin).
      apply (Hdisj h Hhin). rewrite <- Hh.
      apply list_elem_of_fmap. by exists (b, (lvl, line)).
    + apply NoDup_singleton.
  - intros h Hh Hin'. apply elem_of_app in Hh as [Hh|Hh].
    + apply (Hdisj h Hh).
      apply list_elem_of_fmap in Hin' as (item & -> & Hitem).
      apply elem_of_del_position in Hitem as [Hitem _].
      apply list_elem_of_fmap. by exists item.
    + apply list_elem_of_singleton in Hh as ->. done.
  - intros item Hitem. apply elem_of_del_position in Hitem as [Hitem _]. eauto.
  - intros h Hh. apply elem_of_app in Hh as [Hh|Hh]; [eauto|].
    apply list_elem_of_singleton in Hh as ->. simpl. eauto.
Qed.

Lemma foldl_match_node_reconciled ps0 ast st :
  reconciled ps0 st → reconciled ps0 (foldl match_node st ast).
Proof.
  revert st. induction ast as [|node ast IH]; intros st Hst; simpl; [done|].
  apply IH. by apply match_node_reconciled.
Qed.

End reconciliation.

(** Over a whole document: the lines of the extracted headings are pairwise
    distinct, and each is a line of the document that the first pass gave
    the level of the heading. *)
Lemma match_headings_sound (ast : list block) (content : string) :
  let hs := match_headings ast (scan_headings 0 (split_lines content)) in
  NoDup (h_line <$> hs)
  ∧ ∀ h, h ∈ hs →
      ∃ line, split_lines content !! h_line h = Some line
              ∧ raw_heading_level line = Some (h_level h).
Proof.
  intros hs.
  set (ps0 := scan_headings 0 (split_lines content)).
  assert (reconciled ps0 (ps0, [])) as Hinit.
  { split_and!; simpl; [apply scan_headings_keys|constructor|..].
    - intros h Hh. by apply elem_of_nil in Hh.
    - done.
    - intros h Hh. by apply elem_of_nil in Hh. }
  apply (foldl_match_node_reconciled ps0 ast) in Hinit.
  destruct Hinit as (_ & Hnd & _ & _ & Hfrom).
  split; [done|]. intros h Hh.
  destruct (Hfrom h Hh) as (line & Hline).
  apply elem_of_scan_headings in Hline as (k & -> & Hk & Hl). eauto.
Qed.

Section second_pass.
Implicit Types (ps : positions) (hs : list heading).





End second_pass.



Section spans.
Implicit Types (hs : list heading) (h : heading).

Lemma section_end_ends_at lvl later n :
  ends_at lvl (build_sections later n) n (section_end lvl later n).
Proof.
  induction later as [|x later IH]; simpl.
  - right. by split.
  - destruct (h_level x <=? lvl) eqn:Hx.
    + apply Nat.leb_le in Hx. left.
      eexists [], _, _. by split_and!.
    + apply Nat.leb_gt in Hx.
      destruct IH as [(mid & s' & rest & Heq & ? & ? & ?)|[? ?]].
      * left. eexists (_ :: mid), s', rest. rewrite Heq.
        split_and!; try done. by constructor.
      * right. split; [by constructor|done].
Qed.

Lemma build_sections_lookup hs n i h :
  hs !! i = Some h →
  build_sections hs n !! i
  = Some (mk_section (h_level h) (h_text h) (h_line h)
            (section_end (h_level h) (drop (S i) hs) n)).
Proof.
  revert i. induction hs as [|x hs IH]; intros [|i] Hi; simplify_eq/=.
  - by rewrite drop_0.
  - by apply IH.
Qed.

Lemma build_sections_length hs n : length (build_sections hs n) = length hs.
Proof. induction hs; simpl; by f_equal. Qed.

Lemma build_sections_lookup_inv hs n i s :
  build_sections hs n !! i = Some s →
  ∃ h, hs !! i = Some h
       ∧ s = mk_section (h_level h) (h_text h) (h_line h)
               (section_end (h_level h) (drop (S i) hs) n).
Proof.
  intros Hs.
  destruct (hs !! i) as [h|] eqn:Hh.
  - exists h. split; [done|].
    rewrite (build_sections_lookup _ _ _ _ Hh) in Hs. by simplify_eq.
  - apply lookup_ge_None in Hh. apply lookup_lt_Some in Hs.
    rewrite build_sections_length in Hs. lia.
Qed.

Lemma drop_build_sections hs n k :
  drop k (build_sections hs n) = build_sections (drop k hs) n.
Proof.
  revert k. induction hs as [|x hs IH]; intros [|k]; simpl; try done.
Qed.

(** When the heading [h] at place [j] of [later] has a level of at most
    [lvl] and the headings before it start before it, the end is at or
    before the line of [h]. *)
Lemma section_end_le lvl later n h j :
  later !! j = Some h → h_level h ≤ lvl →
  (∀ i h', i < j → later !! i = Some h' → h_line h' < h_line h) →
  section_end lvl later n ≤ h_line h.
Proof.
  revert j. induction later as [|x later IH]; intros j Hj Hl Hinc; [done|].
  simpl. destruct (h_level x <=? lvl) eqn:Hx.
  - destruct j as [|j]; simplify_eq/=; [done|].
    specialize (Hinc 0 x). simpl in Hinc.
    apply Nat.lt_le_incl, Hinc; [lia|done].
  - apply Nat.leb_gt in Hx. destruct j as [|j]; simplify_eq/=; [lia|].
    apply (IH j); [done..|].
    intros i h' Hi Hh'. apply (Hinc (S i)); [lia|done].
Qed.

Lemma section_end_gt lvl later n m :
  m < n → Forall (λ x, m < h_line x) later → m < section_end lvl later n.
Proof.
  intros Hn. induction 1 as [|x later Hx Hl IH]; simpl; [done|].
  by destruct (h_level x <=? lvl).
Qed.

(** A deeper level ends no later, when the lines increase and stay below
    the number of lines. *)
Lemma section_end_mono lvl1 lvl2 later n :
  lvl1 ≤ lvl2 →
  Forall (λ x, h_line x < n) later →
  (∀ i j h1 h2, i < j → later !! i = Some h1 → later !! j = Some h2 →
                h_line h1 < h_line h2) →
  section_end lvl2 later n ≤ section_end lvl1 later n.
Proof.
  intros Hl Hn. induction Hn as [|x later Hx Hn IH]; intros Hinc; [done|].
  simpl.
  assert (Forall (λ y, h_line x < h_line y) later) as Hafter.
  { apply Forall_lookup. intros j y Hy. apply (Hinc 0 (S j)); [lia|done..]. }
  assert (section_end lvl2 later n ≤ section_end lvl1 later n) as IH'.
  { apply IH. intros i j h1 h2 Hij H1 H2.
    apply (Hinc (S i) (S j)); [lia|done..]. }
  destruct (h_level x <=? lvl1) eqn:H1, (h_level x <=? lvl2) eqn:H2; try done.
  - apply Nat.leb_le in H1. apply Nat.leb_gt in H2. lia.
  - apply Nat.lt_le_incl. by apply section_end_gt.
Qed.

(** Skipping deeper headings does not change the end. *)
Lemma section_end_skip lvl hs n k :
  Forall (λ x, lvl < h_level x) (take k hs) →
  section_end lvl hs n = section_end lvl (drop k hs) n.
Proof.
  revert k. induction hs as [|x hs IH]; intros [|k] Hk; simpl; try done.
  simpl in Hk. inversion Hk as [|? ? Hx Hk']; subst.
  apply Nat.leb_gt in Hx. rewrite Hx. by apply IH.
Qed.

End spans.

Section span_rule.
Implicit Types (hs : list heading) (h : heading).

Lemma section_end_bound lvl later n :
  Forall (λ x, h_line x < n) later → section_end lvl later n ≤ n.
Proof.
  induction 1 as [|x later Hx Hl IH]; simpl; [done|].
  destruct (h_level x <=? lvl); lia.
Qed.

(** The properties of the spans for any list of headings whose lines
    increase and lie below the number of lines. *)
Lemma build_sections_ordered hs n :
  Forall (λ x, h_line x < n) hs →
  increasing_starts (build_sections hs n) →
  let sections := build_sections hs n in
  (∀ i s, sections !! i = Some s → start_line s < end_line s ≤ n)
  ∧ (∀ i j s1 s2,
       i < j → sections !! i = Some s1 → sections !! j = Some s2 →
       level s2 ≤ level s1 → end_line s1 ≤ start_line s2)
  ∧ (∀ i j s1 s2,
       i < j → sections !! i = Some s1 → sections !! j = Some s2 →
       (∀ m sm, i < m ≤ j → sections !! m = Some sm → level s1 < level sm) →
       start_line s1 < start_line s2 ∧ end_line s2 ≤ end_line s1).
Proof.
  intros Hn Hinc sections.
  assert (∀ i j h1 h2, i < j → hs !! i = Some h1 → hs !! j = Some h2 →
                       h_line h1 < h_line h2) as Hlines.
  { intros i j h1 h2 Hij H1 H2.
    apply (Hinc i j _ _ Hij (build_sections_lookup _ n _ _ H1)
                (build_sections_lookup _ n _ _ H2)). }
  assert (∀ k, Forall (λ x, h_line x < n) (drop k hs)) as Hdrop.
  { intros k. apply Forall_drop. done. }
  assert (∀ k i j h1 h2, i < j → drop k hs !! i = Some h1 →
            drop k hs !! j = Some h2 → h_line h1 < h_line h2) as Hdinc.
  { intros k i j h1 h2 Hij H1 H2. rewrite lookup_drop in H1, H2.
    apply (Hlines (k + i) (k + j)); [lia|done..]. }
  split_and!.
  - intros i s Hs.
    apply build_sections_lookup_inv in Hs as (h & Hh & ->). simpl.
    split.
    + apply section_end_gt.
      * eapply Forall_lookup_1 in Hn; [|done]. done.
      * apply Forall_lookup. intros j x Hx. rewrite lookup_drop in Hx.
        apply (Hlines i (S i + j)); [lia|done..].
    + by apply section_end_bound.
  - intros i j s1 s2 Hij H1 H2 Hl.
    apply build_sections_lookup_inv in H1 as (h1 & Hh1 & ->).
    apply build_sections_lookup_inv in H2 as (h2 & Hh2 & ->). simpl in *.
    apply (section_end_le _ _ _ _ (j - S i)); [|done|].
    + rewrite lookup_drop. by replace (S i + (j - S i)) with j by lia.
    + intros k h' Hk Hh'. rewrite lookup_drop in Hh'.
      apply (Hlines (S i + k) j); [lia|done..].
  - intros i j s1 s2 Hij H1 H2 Hdeep.
    split; [by apply (Hinc i j)|].
    assert (level s1 < level s2) as Hlt by (apply (Hdeep j); [lia|done]).
    apply build_sections_lookup_inv in H1 as (h1 & Hh1 & ->).
    apply build_sections_lookup_inv in H2 as (h2 & Hh2 & ->). simpl in *.
    rewrite (section_end_skip (h_level h1) (drop (S i) hs) n (j - i)).
    + rewrite drop_drop. replace (S i + (j - i)) with (S j) by lia.
      apply section_end_mono; [lia|done|apply Hdinc].
    + apply Forall_lookup. intros k x Hx.
      apply lookup_take_Some in Hx as [Hx Hk]. rewrite lookup_drop in Hx.
      apply (Hdeep (S i + k) (mk_section (h_level x) (h_text x) (h_line x)
               (section_end (h_level x) (drop (S (S i + k)) hs) n)));
        [lia|]. by apply build_sections_lookup.
Qed.

Lemma ordered_disjoint (sections : list section) :
  (∀ i j s1 s2,
     i < j → sections !! i = Some s1 → sections !! j = Some s2 →
     level s2 ≤ level s1 → end_line s1 ≤ start_line s2) →
  disjoint_spans sections.
Proof.
  intros Hord i j s1 s2 k Hij H1 H2 Hl [Hk1 Hk2].
  destruct (decide (i < j)).
  - pose proof (Hord i j s1 s2 ltac:(done) H1 H2 ltac:(lia)). lia.
  - pose proof (Hord j i s2 s1 ltac:(lia) H2 H1 ltac:(lia)). lia.
Qed.

End span_rule.

(** C6, as stated, fails: the sections X (lines 1 to 5) and Z (lines 3 to 7)
    of the document above are both of level 2 under P and share line 3. *)
Lemma spans_overlap_counterexample :
  parse_markdown overlap_ast overlap_doc
  = [mk_section 1 "P" 0 7; mk_section 2 "X" 1 5;
     mk_section 2 "Y" 5 3; mk_section 2 "Z" 3 7]
  ∧ ¬ disjoint_spans (parse_markdown overlap_ast overlap_doc).
Proof.
  split; [by vm_compute|].
  intros Hdisj.
  apply (Hdisj 1 3 (mk_section 2 "X" 1 5) (mk_section 2 "Z" 3 7) 3);
    try done; simpl; lia.
Qed.

(** C6 (amended). The end line of every extracted section is the first line
    of the next extracted section, in document order, whose level is at most
    its own, or the number of lines of the document when there is none.
    When the first lines of the extracted sections increase in document
    order, every span is non-empty and within the document, a section ends
    at or before the start of every later section of its level or above, so
    spans of one level share no line, and a section that follows a heading
    with deeper headings only in between lies within that heading's span. *)
Theorem section_end_rule (ast : list block) (content : string) :
  let sections := parse_markdown ast content in
  let n_lines := length (split_lines content) in
  (∀ i s, sections !! i = Some s →
     ends_at (level s) (drop (S i) sections) n_lines (end_line s))
  ∧ (increasing_starts sections →
     (∀ i s, sections !! i = Some s → start_line s < end_line s ≤ n_lines)
     ∧ (∀ i j s1 s2,
          i < j → sections !! i = Some s1 → sections !! j = Some s2 →
          level s2 ≤ level s1 → end_line s1 ≤ start_line s2)
     ∧ disjoint_spans sections
     ∧ (∀ i j s1 s2,
          i < j → sections !! i = Some s1 → sections !! j = Some s2 →
          (∀ m sm, i < m ≤ j → sections !! m = Some sm →
                   level s1 < level sm) →
          start_line s1 < start_line s2 ∧ end_line s2 ≤ end_line s1)).
Proof.
  intros sections n_lines. unfold sections, parse_markdown. cbv zeta.
  fold n_lines.
  set (hs := match_headings ast (scan_headings 0 (split_lines content))).
  split.
  - intros i s Hs. apply build_sections_lookup_inv in Hs as (h & Hh & ->).
    simpl. rewrite drop_build_sections. apply section_end_ends_at.
  - intros Hinc.
    assert (Forall (λ x, h_line x < n_lines) hs) as Hn.
    { apply Forall_forall. intros h Hh.
      destruct (proj2 (match_headings_sound ast content) h Hh)
        as (line & Hline & _).
      by apply lookup_lt_Some in Hline. }
    destruct (build_sections_ordered hs n_lines Hn Hinc) as (H1 & H2 & H3).
    split_and!; try done. by apply ordered_disjoint.
Qed.

Lemma section_end_rule_witness :
  increasing_starts (parse_markdown ordered_ast ordered_doc)
  ∧ disjoint_spans (parse_markdown ordered_ast ordered_doc).
Proof.
  assert (increasing_starts (parse_markdown ordered_ast ordered_doc)) as Hinc.
  { intros i j s1 s2 Hij H1 H2.
    destruct i as [|[|[|i]]], j as [|[|[|j]]];
      vm_compute in H1, H2; simplify_eq; simpl; lia. }
  split; [done|].
  exact (proj1 (proj2 (proj2 (proj2 (section_end_rule ordered_ast _) Hinc)))).
Defined.

(** ** Documents without headings *)

Lemma match_node_skip st node : top_heading node = false → match_node st node = st.
Proof.
  destruct st as [ps hs], node as [lvl cs|ty]; simpl; [|done].
  by intros ->.
Qed.

Lemma match_node_no_positions hs node : match_node ([], hs) node = ([], hs).
Proof.
  destruct node as [lvl cs|ty]; simpl; [|done]. by destruct (lvl <=? 2).
Qed.

Lemma parse_markdown_no_ast_heading ast content :
  Forall (λ node, top_heading node = false) ast →
  parse_markdown ast content = [].
Proof.
  intros Hast. unfold parse_markdown, match_headings.
  generalize (scan_headings 0 (split_lines content)). intros ps.
  assert (foldl match_node (ps, []) ast = (ps, [])) as ->; [|done].
  induction Hast as [|node ast Hnode Hast IH]; cbn [foldl]; [done|].
  by rewrite match_node_skip.
Qed.

Lemma scan_headings_none i lines :
  Forall (λ line, raw_heading_level line = None) lines →
  scan_headings i lines = [].
Proof.
  intros H. revert i. induction H as [|line lines Hl Hls IH]; intros i; simpl;
    [done|]. by rewrite Hl.
Qed.

Lemma parse_markdown_no_raw_heading ast content :
  Forall (λ line, raw_heading_level line = None) (split_lines content) →
  parse_markdown ast content = [].
Proof.
  intros Hraw. unfold parse_markdown, match_headings.
  rewrite scan_headings_none by done.
  assert (foldl match_node ([], []) ast = ([], [])) as ->; [|done].
  induction ast as [|node ast IH]; cbn [foldl]; [done|].
  by rewrite match_node_no_positions.
Qed.

(** ** Properties of the section splitter *)

Section splitter.
Implicit Types (st : loop_state) (sec c : section) (name : string)
  (lines : list string).

Lemma is_too_long_iff sec :
  is_too_long sec = true ↔ (500 < content_line_count sec)%Z.
Proof. unfold is_too_long, TOO_LONG_THRESHOLD. apply Z.ltb_lt. Qed.

Lemma step_level1_short name lines st sec :
  is_too_long sec = false →
  step_level1 name lines st sec
  = let '(file_name, used) := heading_to_name (heading_text sec) (used_names st) in
    mk_state used (Some (heading_text sec)) (save_current_l1 st) []
      (Some (link_of name file_name))
      (written st ++ [(file_path_of name file_name, section_content lines sec)]).
Proof. unfold step_level1. by intros ->. Qed.

Lemma step_level1_long name lines st sec :
  is_too_long sec = true →
  step_level1 name lines st sec
  = mk_state (used_names st) (Some (heading_text sec)) (save_current_l1 st) []
      None (written st).
Proof. unfold step_level1. by intros ->. Qed.

Lemma section_step_level1 name lines st sec :
  level sec = 1 → section_step name lines st sec = step_level1 name lines st sec.
Proof. unfold section_step. by intros ->. Qed.

Lemma section_step_level2 name lines st sec :
  level sec = 2 → section_step name lines st sec = step_level2 name lines st sec.
Proof. unfold section_step. by intros ->. Qed.

(** A level 2 section under a level 1 section that has a file changes
    nothing. *)
Lemma step_level2_kept name lines st c n l :
  current_l1_name st = Some n → current_l1_link st = Some l →
  step_level2 name lines st c = st.
Proof.
  intros Hn Hl. unfold step_level2, default_l1. rewrite Hn. by rewrite Hl.
Qed.

(** A level 2 section under a level 1 section without a file gets a file of
    its own and an item. *)
Lemma step_level2_split name lines st c n :
  current_l1_name st = Some n → current_l1_link st = None →
  step_level2 name lines st c
  = let '(file_name, used) := heading_to_name (heading_text c) (used_names st) in
    mk_state used (Some n) (sidebar_structure st)
      (current_l1_items st ++ [mk_item (heading_text c) (link_of name file_name)])
      None
      (written st ++ [(file_path_of name file_name,
                       level2_content (section_content lines c))]).
Proof.
  intros Hn Hl. unfold step_level2, default_l1. rewrite Hn, Hl.
  destruct (heading_to_name _ _). by rewrite Hn.
Qed.

Lemma run_children_kept name lines st children n l :
  Forall (λ c, level c = 2) children →
  current_l1_name st = Some n → current_l1_link st = Some l →
  run_sections name lines st children = st.
Proof.
  intros Hc Hn Hl. unfold run_sections.
  induction Hc as [|c children Hlvl Hc IH]; cbn [foldl]; [done|].
  rewrite section_step_level2 by done.
  by rewrite (step_level2_kept _ _ _ _ n l).
Qed.

(** The files and items of the level 2 sections that follow a level 1
    section without a file: one of each per section, in order, under the
    names that the allocator gives to their headings in that order. *)
Lemma run_children_split name lines st children n :
  Forall (λ c, level c = 2) children →
  current_l1_name st = Some n → current_l1_link st = None →
  run_sections name lines st children
  = let '(names, used) :=
      heading_names (heading_text <$> children) (used_names st) in
    mk_state used (Some n) (sidebar_structure st)
      (current_l1_items st
       ++ zip_with (λ fn c, mk_item (heading_text c) (link_of name fn))
                   names children)
      None
      (written st
       ++ zip_with (λ fn c, (file_path_of name fn,
                             level2_content (section_content lines c)))
                   names children).
Proof.
  intros Hc. revert st. unfold run_sections.
  induction Hc as [|c children Hlvl Hc IH]; intros st Hn Hl; cbn [foldl].
  - simpl. rewrite !app_nil_r. destruct st; simpl in *. by subst.
  - rewrite section_step_level2 by done.
    rewrite (step_level2_split _ _ _ _ n) by done.
    cbn [fmap list_fmap heading_names].
    destruct (heading_to_name (heading_text c) (used_names st)) as [fn u1].
    rewrite IH by done. simpl.
    destruct (heading_names (heading_text <$> children) u1) as [names u2].
    simpl. by rewrite <- !app_assoc.
Qed.

(** Every step writes at most one file, whose text is the content of the
    section or its content with the first mark rewritten. *)
Lemma section_step_written name lines st sec :
  written (section_step name lines st sec) = written st
  ∨ ∃ path,
      written (section_step name lines st sec)
      = written st ++ [(path, section_content lines sec)]
      ∨ written (section_step name lines st sec)
        = written st ++ [(path, level2_content (section_content lines sec))].
Proof.
  unfold section_step.
  destruct (level sec =? 1).
  - unfold step_level1. destruct (is_too_long sec); [by left|].
    destruct (heading_to_name _ _) as [fn u]. right. eexists. by left.
  - destruct (level sec =? 2); [|by left].
    unfold step_level2.
    destruct (current_l1_link (default_l1 st)) eqn:Hl.
    + left. unfold default_l1 in *. by destruct (current_l1_name st).
    + destruct (heading_to_name _ _) as [fn u]. right. eexists. right.
      simpl. unfold default_l1. by destruct (current_l1_name st).
Qed.

Lemma run_sections_written name lines st sections path text :
  (path, text) ∈ written (run_sections name lines st sections) →
  (path, text) ∈ written st
  ∨ ∃ sec, sec ∈ sections
           ∧ (text = section_content lines sec
              ∨ text = level2_content (section_content lines sec)).
Proof.
  revert st. unfold run_sections.
  induction sections as [|sec sections IH]; intros st; cbn [foldl]; [by left|].
  intros Hin. apply IH in Hin as [Hin|(s & Hs & Ht)].
  - destruct (section_step_written name lines st sec)
      as [Heq|(p & [Heq|Heq])]; rewrite Heq in Hin; [by left| |];
      (apply elem_of_app in Hin as [Hin|Hin]; [by left|];
       apply list_elem_of_singleton in Hin; simplify_eq;
       right; exists sec; split; [left|]; eauto).
  - right. exists s. split; [by right|done].
Qed.

End splitter.

Section contents.
Implicit Types (ls : list string) (l : string) (lines : list string).

Lemma startswith_app p a b :
  startswith p a = true → startswith p (a +:+ b) = true.
Proof.
  revert a. induction p as [|x p IH]; intros [|y a]; simpl; try done.
  case_decide; [|done]. apply IH.
Qed.

Lemma demote_head l :
  startswith "## " l = true → l = String "#" (drop_chars 1 l).
Proof.
  destruct l as [|x l]; simpl; [done|]. case_decide; [|done]. by subst.
Qed.

Lemma demote_head_marker l :
  startswith "## " l = true → startswith "# " (drop_chars 1 l) = true.
Proof.
  destruct l as [|x l]; simpl; [done|]. by case_decide.
Qed.

(** The rewrite changes the first line that starts with "## " and nothing
    else. *)
Lemma demote_first_marker_spec ls :
  first_marker_demoted ls (demote_first_marker ls).
Proof.
  induction ls as [|l ls IH]; cbn [demote_first_marker].
  - left. by split.
  - destruct (startswith "## " l) eqn:Hl.
    + right. exists [], l, ls. split_and!; try done. by apply demote_head.
    + destruct IH as [[Hnone ->]|(pre & x & post & -> & Hpre & Hx & Hhd & ->)].
      * left. split; [by constructor|done].
      * right. exists (l :: pre), x, post. split_and!; try done.
        by constructor.
Qed.

(** Line by line: every line is kept, but for one that lost a "#". *)
Lemma demote_first_marker_lines ls :
  Forall2 (λ l' l, l' = l ∨ l = String "#" l') (demote_first_marker ls) ls.
Proof.
  induction ls as [|l ls IH]; cbn [demote_first_marker]; [constructor|].
  destruct (startswith "## " l) eqn:Hl.
  - constructor; [right; by apply demote_head|].
    apply Forall2_same_length_lookup_2; [done|]. intros; simplify_eq. by left.
  - constructor; [by left|done].
Qed.

Lemma demote_no_newline ls :
  Forall (λ l, has_newline l = false) ls →
  Forall (λ l, has_newline l = false) (demote_first_marker ls).
Proof.
  induction 1 as [|l ls Hl Hls IH]; cbn [demote_first_marker]; [constructor|].
  destruct (startswith "## " l) eqn:Hm; constructor; try done.
  destruct l as [|x l]; simpl in *; [done|].
  by apply orb_false_iff in Hl as [_ ?].
Qed.

(** The text written for a level 2 section, from the lines of its span. *)
Lemma level2_content_join ls :
  Forall (λ l, has_newline l = false) ls →
  level2_content (join_lines ls) = join_lines (demote_first_marker ls).
Proof.
  intros Hls. unfold level2_content. rewrite split_join_lines by done.
  by destruct ls.
Qed.

Lemma join_lines_cons_char x l ls :
  String x (join_lines (l :: ls)) = join_lines (String x l :: ls).
Proof. by destruct ls. Qed.

Lemma join_lines_head l ls : ∃ t, join_lines (l :: ls) = l +:+ t.
Proof.
  destruct ls as [|l' ls].
  - exists "". simpl. by rewrite string_app_empty_r.
  - by eexists.
Qed.

(** Putting the "#" back in front of the text of a file whose span starts
    with a "## " line gives the lines of the span. *)
Lemma restore_level2_content l ls :
  Forall (λ l, has_newline l = false) (l :: ls) →
  startswith "## " l = true →
  restore_marker (level2_content (join_lines (l :: ls))) = join_lines (l :: ls).
Proof.
  intros Hls Hl. rewrite level2_content_join by done.
  cbn [demote_first_marker]. rewrite Hl.
  unfold restore_marker.
  destruct (join_lines_head (drop_chars 1 l) ls) as [t Ht].
  rewrite Ht at 1. rewrite startswith_app by by apply demote_head_marker.
  rewrite join_lines_cons_char. by rewrite <- demote_head.
Qed.

Lemma join_lines_concat (lss : list (list string)) :
  Forall (λ ls, ls ≠ []) lss →
  join_lines (join_lines <$> lss) = join_lines (concat lss).
Proof.
  induction 1 as [|ls lss Hls Hlss IH]; [done|].
  destruct lss as [|ls' lss].
  - simpl. by rewrite app_nil_r.
  - change (join_lines (join_lines <$> ls :: ls' :: lss))
      with (join_lines ls +:+ nl +:+ join_lines (join_lines <$> ls' :: lss)).
    rewrite IH.
    change (concat (ls :: ls' :: lss)) with (ls ++ concat (ls' :: lss)).
    rewrite join_lines_app; [done|done|].
    inversion Hlss; subst. simpl. by destruct ls'.
Qed.

Lemma slice_lookup {A} (xs : list A) a b k x :
  slice xs a b !! k = Some x → xs !! (a + k) = Some x ∧ a + k < b.
Proof.
  unfold slice. intros Hk. apply lookup_take_Some in Hk as [Hk Hlt].
  rewrite lookup_drop in Hk. split; [done|lia].
Qed.

Lemma slice_nonempty {A} (xs : list A) a b :
  a < b → a < length xs → slice xs a b ≠ [].
Proof.
  intros Hab Ha Hnil. apply (f_equal length) in Hnil.
  unfold slice in Hnil. rewrite length_take, length_drop in Hnil.
  simpl in Hnil. lia.
Qed.

Lemma slice_no_newline lines a b :
  Forall (λ l, has_newline l = false) lines →
  Forall (λ l, has_newline l = false) (slice lines a b).
Proof. intros H. unfold slice. by apply Forall_take, Forall_drop. Qed.

Lemma slice_head {A} (xs : list A) a b x :
  a < b → xs !! a = Some x → ∃ rest, slice xs a b = x :: rest.
Proof.
  intros Hab Hx. unfold slice.
  rewrite (drop_S _ _ _ Hx). destruct (b - a) as [|n] eqn:E; [lia|].
  simpl. by eexists.
Qed.

(** The spans of a chain, one after the other, are the lines from the start
    of the first to the end of the last. *)
Lemma chained_concat lines c children e :
  chained (c :: children) e → e ≤ length lines →
  concat ((λ c, slice lines (start_line c) (end_line c)) <$> c :: children)
  = slice lines (start_line c) e
  ∧ Forall (λ c, start_line c < end_line c ≤ e) (c :: children).
Proof.
  revert c. induction children as [|c' children IH]; intros c Hch He.
  - destruct Hch as [Hlt <-]. simpl. rewrite app_nil_r.
    split; [done|]. constructor; [lia|constructor].
  - destruct Hch as (Hlt & Heq & Hch).
    destruct (IH c' Hch He) as [Hcat Hall].
    split.
    + change (concat ((λ c, slice lines (start_line c) (end_line c))
                        <$> c :: c' :: children))
        with (slice lines (start_line c) (end_line c)
              ++ concat ((λ c, slice lines (start_line c) (end_line c))
                           <$> c' :: children)).
      rewrite Hcat, Heq. apply slice_app; [lia|].
      inversion Hall; subst. lia.
    + constructor; [|done]. inversion Hall; subst. lia.
Qed.

End contents.

Section splitter_claims.
Implicit Types (st : loop_state) (sec c : section) (name : string).

Lemma heading_names_length texts (used : gset string) :
  length (heading_names texts used).1 = length texts.
Proof.
  revert used. induction texts as [|t texts IH]; intros used; simpl; [done|].
  destruct (heading_to_name t used) as [n u1]. specialize (IH u1).
  destruct (heading_names texts u1) as [ns u2]. simpl in *. by f_equal.
Qed.

(** A short level 1 section with a title: one file with its content, no
    file for the level 2 sections that follow it, and an entry with the
    link of the file and no items when the section is closed. *)
Lemma short_section_entry name lines st sec children :
  level sec = 1 → is_too_long sec = false → heading_text sec ≠ "" →
  Forall (λ c, level c = 2) children →
  let file_name := (heading_to_name (heading_text sec) (used_names st)).1 in
  let st2 := run_sections name lines (section_step name lines st sec) children in
  written st2
  = written st ++ [(file_path_of name file_name, section_content lines sec)]
  ∧ save_current_l1 st2
    = save_current_l1 st
      ++ [mk_entry (heading_text sec) (Some (link_of name file_name)) []].
Proof.
  intros Hl Hshort Htitle Hc file_name st2. unfold st2, file_name.
  rewrite section_step_level1, step_level1_short by done.
  destruct (heading_to_name (heading_text sec) (used_names st)) as [fn u].
  erewrite run_children_kept; [|done..].
  split; [done|]. unfold save_current_l1 at 1. simpl.
  by rewrite decide_False.
Qed.

End splitter_claims.

(** C3. The decision for a level 1 section depends on its own line count,
    [end_line - start_line], only: a count of 500 is short and a count of
    501 is long.  A short section gets one file with its content and the
    level 2 sections that follow it get none; a long section gets no file
    and each level 2 section that follows it gets one. *)
Theorem threshold_decision (name : string) (lines : list string)
    (st : loop_state) (sec : section) :
  level sec = 1 →
  let st' := section_step name lines st sec in
  (is_too_long sec = true
   ↔ (500 < Z.of_nat (end_line sec) - Z.of_nat (start_line sec))%Z)
  ∧ (end_line sec = start_line sec + 500 → is_too_long sec = false)
  ∧ (end_line sec = start_line sec + 501 → is_too_long sec = true)
  ∧ (is_too_long sec = false →
     (∃ file_name,
         written st'
         = written st ++ [(file_path_of name file_name, section_content lines sec)]
         ∧ current_l1_link st' = Some (link_of name file_name))
     ∧ ∀ children,
         Forall (λ c, level c = 2) children →
         run_sections name lines st' children = st')
  ∧ (is_too_long sec = true →
     written st' = written st
     ∧ current_l1_link st' = None
     ∧ ∀ children,
         Forall (λ c, level c = 2) children →
         let names :=
           (heading_names (heading_text <$> children) (used_names st)).1 in
         length names = length children
         ∧ written (run_sections name lines st' children)
           = written st
             ++ zip_with (λ fn c, (file_path_of name fn,
                                   level2_content (section_content lines c)))
                         names children).
Proof.
  intros Hl st'. unfold st'. rewrite section_step_level1 by done.
  split_and!.
  - apply is_too_long_iff.
  - intros He. apply not_true_iff_false. rewrite is_too_long_iff.
    unfold content_line_count. lia.
  - intros He. rewrite is_too_long_iff. unfold content_line_count. lia.
  - intros Hshort. rewrite step_level1_short by done.
    destruct (heading_to_name (heading_text sec) (used_names st)) as [fn u].
    split; [by exists fn|].
    intros children Hc. by erewrite run_children_kept.
  - intros Hlong. rewrite step_level1_long by done.
    split_and!; [done..|].
    intros children Hc.
    split; [by rewrite heading_names_length, length_fmap|].
    erewrite run_children_split; [|done..]. simpl.
    by destruct (heading_names (heading_text <$> children) (used_names st)).
Qed.

Lemma threshold_decision_witness :
  level (mk_section 1 "A" 7 507) = 1
  ∧ is_too_long (mk_section 1 "A" 7 507) = false
  ∧ is_too_long (mk_section 1 "A" 7 508) = true.
Proof.
  split_and!; [done| |].
  - exact (proj1 (proj2 (threshold_decision "d" [] initial_state
                           (mk_section 1 "A" 7 507) eq_refl)) eq_refl).
  - exact (proj1 (proj2 (proj2 (threshold_decision "d" [] initial_state
                                  (mk_section 1 "A" 7 508) eq_refl))) eq_refl).
Defined.

(** C1, as stated, fails: for the document of 502 lines with the long
    section A and its one child B, the only file is that of B; with the mark
    restored it starts at the line of B, and the heading line of A is in no
    file. *)
Lemma long_section_lost_heading_counterexample :
  let lines := split_lines long_doc in
  let sections := parse_markdown long_ast long_doc in
  sections = [mk_section 1 "A" 0 502; mk_section 2 "B" 1 502]
  ∧ is_too_long (mk_section 1 "A" 0 502) = true
  ∧ ∃ text,
      (file_structure "d" lines sections).1 = [("docs/d/b.md", text)]
      ∧ join_lines [text] ≠ section_content lines (mk_section 1 "A" 0 502)
      ∧ join_lines (restore_marker <$> [text])
        ≠ section_content lines (mk_section 1 "A" 0 502).
Proof.
  split_and!; [by vm_compute..|].
  eexists. split; [by vm_compute|].
  split; intros H; vm_compute in H; discriminate H.
Qed.

(** C1 (amended). The turn of a long level 1 section writes no file.  Each
    level 2 section that follows gets one file, in document order, under a
    name of its own, and one sidebar item; the lines of the file are the
    lines of the span of that level 2 section, wherever the extractor put
    it, except that the first line that starts with "## " has lost one "#".
    When the spans of these sections follow one another without a gap up to
    the line [e] and each starts with a "## " line, the texts of the files
    with the mark restored, joined by line feeds in document order, are the
    lines of the document from the start of the first level 2 section to
    [e], and no other line: not the content of the level 1 section, whose
    heading line is outside this range whenever the level 2 sections start
    after it. *)
Theorem long_section_files (name content : string) (st : loop_state)
    (sec : section) (children : list section) :
  let lines := split_lines content in
  level sec = 1 → is_too_long sec = true →
  Forall (λ c, level c = 2) children →
  let st1 := section_step name lines st sec in
  let st2 := run_sections name lines st1 children in
  let names := (heading_names (heading_text <$> children) (used_names st)).1 in
  let texts := (λ c, level2_content (section_content lines c)) <$> children in
  written st1 = written st
  ∧ written st2 = written st ++ zip (file_path_of name <$> names) texts
  ∧ current_l1_items st2
    = zip_with (λ fn c, mk_item (heading_text c) (link_of name fn)) names children
  ∧ current_l1_link st2 = None
  ∧ length names = length children
  ∧ NoDup names
  ∧ Forall2 (λ text c,
       ∃ ls', text = join_lines ls'
              ∧ first_marker_demoted
                  (slice lines (start_line c) (end_line c)) ls')
      texts children
  ∧ (∀ c rest e,
       children = c :: rest → chained children e → e ≤ length lines →
       Forall (starts_with_marker lines) children →
       join_lines (restore_marker <$> texts)
       = join_lines (slice lines (start_line c) e)).
Proof.
  intros lines Hl Hlong Hc st1 st2 names texts.
  pose proof (split_lines_no_newline content) as Hnl. fold lines in Hnl.
  assert (st1 = mk_state (used_names st) (Some (heading_text sec))
                  (save_current_l1 st) [] None (written st)) as Hst1.
  { unfold st1. by rewrite section_step_level1, step_level1_long. }
  assert (length names = length children) as Hlen.
  { unfold names. by rewrite heading_names_length, length_fmap. }
  pose proof (heading_names_fresh (heading_text <$> children) (used_names st))
    as Hfresh.
  assert (st2 = mk_state
            (heading_names (heading_text <$> children) (used_names st)).2
            (Some (heading_text sec)) (save_current_l1 st)
            (zip_with (λ fn c, mk_item (heading_text c) (link_of name fn))
                      names children)
            None
            (written st
             ++ zip_with (λ fn c, (file_path_of name fn,
                                   level2_content (section_content lines c)))
                         names children)) as Hst2.
  { unfold st2. rewrite Hst1.
    erewrite run_children_split; [|done..]. simpl. unfold names.
    by destruct (heading_names (heading_text <$> children) (used_names st)). }
  split_and!.
  - by rewrite Hst1.
  - rewrite Hst2. simpl. f_equal. unfold texts.
    clear. generalize names. clear. intros names.
    revert names. induction children as [|c children IH]; intros [|n names];
      simpl; try done. by rewrite <- IH.
  - by rewrite Hst2.
  - by rewrite Hst2.
  - done.
  - unfold names.
    destruct (heading_names (heading_text <$> children) (used_names st)).
    by destruct Hfresh.
  - unfold texts. apply Forall2_fmap_l, Forall_Forall2_diag.
    apply Forall_forall. intros c _.
    exists (demote_first_marker (slice lines (start_line c) (end_line c))).
    split; [|apply demote_first_marker_spec].
    unfold section_content. apply level2_content_join.
    by apply slice_no_newline.
  - intros c rest e -> Hch He Hm.
    destruct (chained_concat lines c rest e Hch He) as [Hcat Hspans].
    rewrite <- Hcat, <- join_lines_concat.
    + f_equal. unfold texts. rewrite <- !list_fmap_compose.
      apply Forall_fmap_ext. rewrite Forall_forall. intros x Hx. simpl.
      rewrite Forall_forall in Hspans. specialize (Hspans x Hx).
      rewrite Forall_forall in Hm. destruct (Hm x Hx) as (l & Hline & Hmark).
      destruct (slice_head lines (start_line x) (end_line x) l)
        as [tl Htl]; [lia|done|].
      unfold section_content. rewrite Htl.
      apply restore_level2_content; [|done].
      rewrite <- Htl. by apply slice_no_newline.
    + apply Forall_fmap, Forall_forall. intros x Hx. simpl.
      rewrite Forall_forall in Hspans. specialize (Hspans x Hx).
      apply slice_nonempty; lia.
Qed.

Lemma long_section_files_witness :
  let lines := split_lines long_doc in
  let child := mk_section 2 "B" 1 502 in
  level (mk_section 1 "A" 0 502) = 1
  ∧ is_too_long (mk_section 1 "A" 0 502) = true
  ∧ Forall (λ c, level c = 2) [child]
  ∧ chained [child] 502
  ∧ 502 ≤ length lines
  ∧ Forall (starts_with_marker lines) [child]
  ∧ join_lines (restore_marker
                  <$> [level2_content (section_content lines child)])
    = join_lines (slice lines 1 502).
Proof.
  intros lines child.
  assert (Forall (λ c, level c = 2) [child]) as Hc by by repeat constructor.
  assert (chained [child] 502) as Hch by (simpl; lia).
  assert (502 ≤ length lines) as He by by vm_compute.
  assert (Forall (starts_with_marker lines) [child]) as Hm.
  { repeat constructor. exists "## B". by vm_compute. }
  split_and!; [done|by vm_compute|done..|].
  exact (proj2 (proj2 (proj2 (proj2 (proj2 (proj2 (proj2
           (long_section_files "d" long_doc initial_state
              (mk_section 1 "A" 0 502) [child] eq_refl eq_refl Hc)))))))
           child [] 502 eq_refl Hch He Hm).
Defined.

(** C10, as stated, fails: in the document that opens with a fenced block,
    the first extracted heading, A, starts at line 3, and the file of the
    second, B, holds the lines 1 to 4 of the document, so the lines 1 and 2
    of the text before the first heading are in a file. *)
Lemma preamble_in_file_counterexample :
  let lines := split_lines fence_doc in
  let sections := parse_markdown fence_ast fence_doc in
  sections = [mk_section 1 "A" 3 1; mk_section 1 "B" 1 5]
  ∧ (file_structure "d" lines sections).1
    = [("docs/d/a.md", ""); ("docs/d/b.md", join_lines (slice lines 1 5))]
  ∧ ¬ nothing_before_first lines sections (file_structure "d" lines sections).1.
Proof.
  split_and!; [by vm_compute..|].
  intros Hclaim.
  destruct (Hclaim (mk_section 1 "A" 3 1) "docs/d/b.md"
              (join_lines (slice (split_lines fence_doc) 1 5)))
    as (sec & Hsec & Hfrom & Hstart).
  - by vm_compute.
  - vm_compute. right. left.
  - vm_compute in Hsec.
    apply elem_of_cons in Hsec as [->|Hsec].
    + destruct Hfrom as [H|H]; vm_compute in H; discriminate H.
    + apply list_elem_of_singleton in Hsec as ->. simpl in Hstart. lia.
Qed.

(** C10 (amended). The text of every file that [create_file_structure]
    writes for a document is made of the lines of the span of one extracted
    section, in order, one of which may have lost a leading "#"; these are
    the lines of the document at the positions from [start_line] up to
    [end_line].  So a line of the document that comes before the start line
    of every extracted section is at no position that is written to a file;
    when the start lines of the extracted sections increase in document
    order, these are the lines before the start line of the first extracted
    section. *)
Theorem written_lines_within_spans (name content : string)
    (sections : list section) (path text : string) :
  let lines := split_lines content in
  (path, text) ∈ (file_structure name lines sections).1 →
  ∃ sec ls',
    sec ∈ sections
    ∧ from_span lines sec text
    ∧ text = join_lines ls'
    ∧ Forall2 (λ l' l, l' = l ∨ l = String "#" l') ls'
        (slice lines (start_line sec) (end_line sec))
    ∧ (∀ k l,
         slice lines (start_line sec) (end_line sec) !! k = Some l →
         lines !! (start_line sec + k) = Some l
         ∧ start_line sec ≤ start_line sec + k < end_line sec)
    ∧ (∀ i,
         (∀ s, s ∈ sections → i < start_line s) →
         ∀ k, i ≠ start_line sec + k)
    ∧ (increasing_starts sections →
       ∀ first, head sections = Some first →
                start_line first ≤ start_line sec).
Proof.
  intros lines Hin. unfold file_structure in Hin. simpl in Hin.
  pose proof (split_lines_no_newline content) as Hnl. fold lines in Hnl.
  apply run_sections_written in Hin as [Hin|(sec & Hsec & Htext)].
  { by apply elem_of_nil in Hin. }
  exists sec.
  assert (∃ ls', text = join_lines ls'
                 ∧ Forall2 (λ l' l, l' = l ∨ l = String "#" l') ls'
                     (slice lines (start_line sec) (end_line sec)))
    as (ls' & Htext' & Hrel).
  { destruct Htext as [->| ->].
    - eexists. split; [done|].
      apply Forall_Forall2_diag, Forall_forall. intros; by left.
    - eexists. split.
      + unfold section_content. apply level2_content_join.
        by apply slice_no_newline.
      + apply demote_first_marker_lines. }
  exists ls'. split_and!; try done.
  - intros k l Hk. apply slice_lookup in Hk as [Hk Hlt].
    split; [done|lia].
  - intros i Hi k. specialize (Hi sec Hsec). lia.
  - intros Hinc first Hfirst.
    apply list_elem_of_lookup in Hsec as [j Hj].
    destruct sections as [|s0 sections]; simplify_eq/=.
    destruct j as [|j]; simplify_eq/=; [done|].
    apply Nat.lt_le_incl. apply (Hinc 0 (S j)); [lia|done..].
Qed.

Lemma written_lines_within_spans_witness :
  ("docs/oj/basics.md", basics_doc)
    ∈ (file_structure "oj" (split_lines basics_doc)
         (parse_markdown basics_ast basics_doc)).1
  ∧ ∃ sec ls',
      sec ∈ parse_markdown basics_ast basics_doc
      ∧ basics_doc = join_lines ls'.
Proof.
  assert (("docs/oj/basics.md", basics_doc)
            ∈ (file_structure "oj" (split_lines basics_doc)
                 (parse_markdown basics_ast basics_doc)).1) as Hin.
  { vm_compute. left. }
  split; [done|].
  destruct (written_lines_within_spans "oj" basics_doc
              (parse_markdown basics_ast basics_doc) _ _ Hin)
    as (sec & ls' & Hsec & _ & Htext & _).
  by exists sec, ls'.
Defined.

(** C2, at a short level 1 section whose heading has no text (it holds an
    image only, or nothing after the mark): the file of the section is
    written, under the name "unnamed", and the sidebar structure returned
    has no entry for the section. *)
Theorem short_untitled_section_has_no_entry :
  (parse_markdown untitled_ast untitled_doc = [mk_section 1 "" 0 2]
   ∧ is_too_long (mk_section 1 "" 0 2) = false
   ∧ file_structure "oj" (split_lines untitled_doc)
       (parse_markdown untitled_ast untitled_doc)
     = ([("docs/oj/unnamed.md", untitled_doc)], []))
  ∧ (parse_markdown blank_title_ast blank_title_doc = [mk_section 1 "" 0 2]
     ∧ file_structure "oj" (split_lines blank_title_doc)
         (parse_markdown blank_title_ast blank_title_doc)
       = ([("docs/oj/unnamed.md", blank_title_doc)], [])).
Proof. by vm_compute. Qed.

(** The example of the specification: the document "oj" with the single
    short section "Basics" of ten lines. *)
Example basics_example :
  parse_markdown basics_ast basics_doc = [mk_section 1 "Basics" 0 10]
  ∧ file_structure "oj" (split_lines basics_doc)
      (parse_markdown basics_ast basics_doc)
    = ([("docs/oj/basics.md", basics_doc)],
       [mk_entry "Basics" (Some "/oj/basics") []]).
Proof. by vm_compute. Qed.

(** C7, as stated, fails: a document without headings has no sections, and
    the splitter returns no entry for it, so no entry named Content. *)
Lemma no_headings_no_content_entry_counterexample :
  parse_markdown plain_ast plain_doc = []
  ∧ ¬ ∃ entry,
        (file_structure "oj" (split_lines plain_doc)
           (parse_markdown plain_ast plain_doc)).2 = [entry]
        ∧ text entry = "Content".
Proof.
  split; [by vm_compute|]. intros (entry & Hentry & _).
  vm_compute in Hentry. discriminate Hentry.
Qed.

(** C7 (amended). The extractor returns the empty list for a document whose
    AST has no heading of level 1 or 2, and for a document none of whose
    lines is a raw heading line.  For the empty list the splitter writes no
    file and returns the empty sidebar structure: no entry is made up.  The
    group "Content" is the one opened by a level 2 section that comes before
    any level 1 section.  So a document without headings that is processed
    gets no file from the splitter and the empty structure. *)
Theorem no_headings_no_sections :
  (∀ ast content,
     Forall (λ node, top_heading node = false) ast →
     parse_markdown ast content = [])
  ∧ (∀ ast content,
       Forall (λ line, raw_heading_level line = None) (split_lines content) →
       parse_markdown ast content = [])
  ∧ (∀ name lines, file_structure name lines [] = ([], []))
  ∧ (∀ name lines sec,
       level sec = 2 →
       (file_structure name lines [sec]).2
       = [mk_entry "Content" None
            [mk_item (heading_text sec)
               (link_of name (heading_to_name (heading_text sec) ∅).1)]])
  ∧ (∀ markdown name content,
       Forall (λ node, top_heading node = false) (markdown content) →
       doc_output markdown name content = ([], [])).
Proof.
  split_and!.
  - apply parse_markdown_no_ast_heading.
  - apply parse_markdown_no_raw_heading.
  - done.
  - intros name lines sec Hl. unfold file_structure, run_sections.
    cbn [foldl]. rewrite section_step_level2 by done.
    unfold step_level2. simpl.
    by destruct (heading_to_name (heading_text sec) ∅).
  - intros markdown name content Hast. unfold doc_output.
    by rewrite parse_markdown_no_ast_heading.
Qed.

Lemma no_headings_no_sections_witness :
  Forall (λ node, top_heading node = false) plain_ast
  ∧ parse_markdown plain_ast plain_doc = [].
Proof.
  assert (Forall (λ node, top_heading node = false) plain_ast) as H
    by by repeat constructor.
  split; [done|].
  exact (proj1 no_headings_no_sections plain_ast plain_doc H).
Defined.

Section distinct_paths.
Implicit Types (st : loop_state) (sec : section) (name : string).

Lemma string_length_app (a b : string) :
  String.length (a +:+ b) = String.length a + String.length b.
Proof. induction a as [|x a IH]; simpl; [done|]. by rewrite IH. Qed.

Lemma string_app_inj_r (a b c : string) : a +:+ c = b +:+ c → a = b.
Proof.
  revert b. induction a as [|x a IH]; intros [|y b] H.
  - done.
  - apply (f_equal String.length) in H.
    rewrite !string_length_app in H. simpl in H. lia.
  - apply (f_equal String.length) in H.
    rewrite !string_length_app in H. simpl in H. lia.
  - rewrite !string_app_cons in H. injection H as -> H. f_equal. by apply IH.
Qed.

Lemma file_path_of_inj name fn1 fn2 :
  file_path_of name fn1 = file_path_of name fn2 → fn1 = fn2.
Proof.
  unfold file_path_of. intros H.
  apply (inj (String.app "docs/")) in H.
  apply (inj (String.app name)) in H.
  apply (inj (String.app "/")) in H.
  by apply string_app_inj_r in H.
Qed.

Lemma distinct_files_add name st text path_text :
  distinct_files name st →
  let '(file_name, used) := heading_to_name text (used_names st) in
  NoDup ((written st ++ [(file_path_of name file_name, path_text)]).*1)
  ∧ ∀ p, p ∈ (written st ++ [(file_path_of name file_name, path_text)]).*1 →
         ∃ fn, fn ∈ used ∧ p = file_path_of name fn.
Proof.
  intros [Hnd Hcover].
  pose proof (heading_to_name_fresh text (used_names st)) as Hfresh.
  destruct (heading_to_name text (used_names st)) as [fn used].
  destruct Hfresh as [Hnew ->]. rewrite fmap_app. simpl. split.
  - apply NoDup_app. split_and!; [done| |apply NoDup_singleton].
    intros p Hp Hp'. apply list_elem_of_singleton in Hp' as ->.
    destruct (Hcover _ Hp) as (fn' & Hfn' & Heq).
    apply file_path_of_inj in Heq as ->. done.
  - intros p Hp. apply elem_of_app in Hp as [Hp|Hp].
    + destruct (Hcover _ Hp) as (fn' & Hfn' & ->). exists fn'.
      split; [set_solver|done].
    + apply list_elem_of_singleton in Hp as ->. exists fn.
      split; [set_solver|done].
Qed.

Lemma section_step_distinct name lines st sec :
  distinct_files name st → distinct_files name (section_step name lines st sec).
Proof.
  intros Hst. unfold section_step.
  destruct (level sec =? 1).
  - unfold step_level1. destruct (is_too_long sec); [done|].
    pose proof (distinct_files_add name st (heading_text sec)
                  (section_content lines sec) Hst) as Hadd.
    by destruct (heading_to_name _ _) as [fn u].
  - destruct (level sec =? 2); [|done].
    assert (distinct_files name (default_l1 st)) as Hd.
    { unfold default_l1. by destruct (current_l1_name st). }
    unfold step_level2.
    destruct (current_l1_link (default_l1 st)); [done|].
    pose proof (distinct_files_add name (default_l1 st) (heading_text sec)
                  (level2_content (section_content lines sec)) Hd) as Hadd.
    by destruct (heading_to_name _ _) as [fn u].
Qed.

(** No file of a document is written twice: the text written for a section
    is the text of its file when [create_file_structure] returns. *)
Lemma file_structure_distinct name lines sections :
  NoDup (file_structure name lines sections).1.*1.
Proof.
  unfold file_structure, run_sections. simpl.
  assert (distinct_files name initial_state) as Hinit.
  { split; [constructor|]. intros p Hp. by apply elem_of_nil in Hp. }
  revert Hinit. generalize initial_state.
  induction sections as [|sec sections IH]; intros st Hst; cbn [foldl].
  - by destruct Hst.
  - apply IH. by apply section_step_distinct.
Qed.

Lemma put_files_written ws (fs : gmap string string) p text :
  NoDup ws.*1 → (p, text) ∈ ws → put_files ws fs !! p = Some text.
Proof.
  unfold put_files. induction ws as [|[k v] ws IH] using rev_ind.
  { intros _ H. by apply elem_of_nil in H. }
  rewrite fmap_app, foldl_app. simpl. intros Hnd Hin.
  apply NoDup_app in Hnd as (Hnd & Hdisj & _).
  apply elem_of_app in Hin as [Hin|Hin].
  - rewrite lookup_insert_ne; [by apply IH|].
    intros ->. apply (Hdisj p); [|left].
    apply list_elem_of_fmap. by exists (p, text).
  - apply list_elem_of_singleton in Hin. simplify_eq.
    by rewrite lookup_insert_eq.
Qed.

End distinct_paths.

(** ** Properties of the orchestrator *)

Section runs.
Variable markdown : string → list block.
Implicit Types (w : world) (fs : gmap string string) (name p : string)
  (d : list (string * list nav_entry)).

Lemma filter_under_twice dir fs :
  filter (λ kv : string * string, under dir kv.1 = false)
    (filter (λ kv : string * string, under dir kv.1 = false) fs)
  = filter (λ kv : string * string, under dir kv.1 = false) fs.
Proof.
  apply map_filter_filter_l. auto.
Qed.

Lemma write_files_put ws w :
  write_files ws w = (inr (), mk_world (put_files ws (files w)) (stdout w)).
Proof.
  revert w. induction ws as [|[path content] ws IH]; intros w; simpl.
  - by destruct w.
  - unfold mbind, io_bind, bind, write_file. simpl. by rewrite IH.
Qed.

Lemma original_not_under name name' :
  under ("docs/" +:+ name) (original_path_of name') = false.
Proof. reflexivity. Qed.

Lemma lookup_filter_not_under dir fs p :
  under dir p = false →
  filter (λ kv : string * string, under dir kv.1 = false) fs !! p = fs !! p.
Proof.
  intros Hp. apply option_eq. intros v.
  rewrite map_lookup_filter_Some. naive_solver.
Qed.

Lemma lookup_filter_under dir fs p :
  under dir p = true →
  filter (λ kv : string * string, under dir kv.1 = false) fs !! p = None.
Proof.
  intros Hp. apply map_lookup_filter_None. right. intros v _. simpl.
  congruence.
Qed.

(** [create_file_structure] on a source that exists. *)
Lemma create_file_structure_ok name sections w content :
  files w !! original_path_of name = Some content →
  create_file_structure name sections w
  = (inr (file_structure name (split_lines content) sections).2,
     mk_world
       (put_files (file_structure name (split_lines content) sections).1
          (filter (λ kv, under ("docs/" +:+ name) kv.1 = false) (files w)))
       (stdout w)).
Proof.
  intros Hsrc. unfold create_file_structure, original_path_of in *.
  unfold mbind, io_bind, bind, path_exists, read_file, rmtree. simpl.
  rewrite Hsrc. rewrite bool_decide_eq_true_2 by eauto. simpl.
  rewrite Hsrc. rewrite write_files_put. done.
Qed.

(** The source is missing: the exception of [create_file_structure]. *)
Lemma create_file_structure_missing name sections w :
  files w !! original_path_of name = None →
  create_file_structure name sections w
  = (inl (FileNotFoundError (original_path_of name)), w).
Proof.
  intros Hsrc. unfold create_file_structure, original_path_of in *.
  unfold mbind, io_bind, bind, path_exists. simpl.
  rewrite Hsrc. rewrite bool_decide_eq_false_2; [done|].
  by intros [? ?].
Qed.

Lemma split_document_skipped d name w :
  processable (files w) name = false →
  split_document markdown d name w
  = (inr d, mk_world (files w) (stdout w ++ [diagnostic name])).
Proof.
  unfold processable, split_document, diagnostic, original_path_of.
  destruct (valid_name name) eqn:Hv; simpl; [|done].
  intros Hsrc. unfold mbind, io_bind, bind, path_exists. simpl.
  rewrite Hsrc. done.
Qed.

Lemma split_document_processed d name w content :
  valid_name name = true →
  files w !! original_path_of name = Some content →
  ∃ out,
    split_document markdown d name w
    = (inr (dict_set name (doc_output markdown name content).2 d),
       mk_world (doc_files markdown name content (files w)) (stdout w ++ out)).
Proof.
  intros Hv Hsrc. unfold split_document. rewrite Hv. simpl.
  unfold mbind at 1, io_bind at 1, bind at 1, path_exists at 1. simpl.
  fold (original_path_of name). rewrite Hsrc.
  rewrite bool_decide_eq_true_2 by eauto. simpl.
  unfold mbind, io_bind, bind, print, read_file, dir_exists, rmtree,
    write_file. simpl. rewrite Hsrc.
  set (sections := parse_markdown (markdown content) content).
  case_bool_decide; simpl.
  - rewrite (create_file_structure_ok _ _ _ content) by
      (simpl; by rewrite lookup_filter_not_under).
    simpl. rewrite filter_under_twice. eexists.
    unfold doc_files, doc_output. fold sections.
    f_equal. f_equal. rewrite <- !app_assoc. done.
  - rewrite (create_file_structure_ok _ _ _ content) by done.
    simpl. eexists.
    unfold doc_files, doc_output. fold sections.
    f_equal. f_equal. rewrite <- !app_assoc. done.
Qed.

End runs.

Section paths.
Implicit Types (fs : gmap string string) (name p : string).

Lemma startswith_self_app (a b : string) : startswith a (a +:+ b) = true.
Proof.
  induction a as [|x a IH]; [by destruct b|].
  simpl. by rewrite decide_True.
Qed.

Lemma startswith_app_l (a b p : string) :
  startswith (a +:+ b) p = true → startswith a p = true.
Proof.
  revert p. induction a as [|x a IH]; intros p; [by destruct p|].
  destruct p as [|y p]; simpl; [done|]. case_decide; [apply IH|done].
Qed.

Lemma under_docs name p :
  under ("docs/" +:+ name) p = true → startswith "docs/" p = true.
Proof.
  unfold under. rewrite string_app_assoc. apply startswith_app_l.
Qed.

Lemma under_file_path name file_name :
  under ("docs/" +:+ name) (file_path_of name file_name) = true.
Proof.
  unfold under, file_path_of. rewrite <- !string_app_assoc.
  apply startswith_app, startswith_self_app.
Qed.

Lemma under_index_path name :
  under ("docs/" +:+ name) (index_path_of name) = true.
Proof.
  unfold under, index_path_of.
  change "/index.md" with ("/" +:+ "index.md").
  rewrite <- !string_app_assoc. apply startswith_self_app.
Qed.

(** Every file of the splitter lies in the directory of the document. *)
Lemma section_step_paths name lines st sec :
  Forall (λ kv, under ("docs/" +:+ name) kv.1 = true) (written st) →
  Forall (λ kv, under ("docs/" +:+ name) kv.1 = true)
    (written (section_step name lines st sec)).
Proof.
  intros Hst. unfold section_step.
  destruct (level sec =? 1).
  - unfold step_level1. destruct (is_too_long sec); [done|].
    destruct (heading_to_name _ _) as [fn u]. simpl.
    apply Forall_app. split; [done|].
    repeat constructor. apply under_file_path.
  - destruct (level sec =? 2); [|done].
    assert (written (default_l1 st) = written st) as Hd.
    { unfold default_l1. by destruct (current_l1_name st). }
    unfold step_level2.
    destruct (current_l1_link (default_l1 st)); [by rewrite Hd|].
    destruct (heading_to_name _ _) as [fn u]. simpl. rewrite Hd.
    apply Forall_app. split; [done|].
    repeat constructor. apply under_file_path.
Qed.

Lemma file_structure_paths name lines sections :
  Forall (λ kv, under ("docs/" +:+ name) kv.1 = true)
    (file_structure name lines sections).1.
Proof.
  unfold file_structure, run_sections. simpl.
  assert (Forall (λ kv : string * string, under ("docs/" +:+ name) kv.1 = true)
            (written initial_state)) as Hinit by constructor.
  revert Hinit. generalize initial_state.
  induction sections as [|sec sections IH]; intros st Hst; cbn [foldl];
    [done|].
  apply IH. by apply section_step_paths.
Qed.

(** Writing files over a file system: a path keeps its old text unless one
    of the files is written at it. *)
Lemma put_files_lookup ws fs p :
  put_files ws fs !! p
  = match put_files ws ∅ !! p with
    | Some v => Some v
    | None => fs !! p
    end.
Proof.
  unfold put_files. induction ws as [|[k v] ws IH] using rev_ind.
  - simpl. by rewrite lookup_empty.
  - rewrite !foldl_app. simpl. destruct (decide (k = p)) as [->|Hne].
    + by rewrite !lookup_insert_eq.
    + by rewrite !lookup_insert_ne.
Qed.

Lemma put_files_empty_Some ws p v :
  put_files ws ∅ !! p = Some v → p ∈ ws.*1.
Proof.
  unfold put_files. induction ws as [|[k x] ws IH] using rev_ind.
  - simpl. by rewrite lookup_empty.
  - rewrite foldl_app, fmap_app. simpl. intros Hp.
    apply elem_of_app. destruct (decide (k = p)) as [->|Hne].
    + right. left.
    + rewrite lookup_insert_ne in Hp by done. left. by apply IH.
Qed.

End paths.

Section documents.
Variable markdown : string → list block.
Implicit Types (w : world) (fs : gmap string string) (name p : string)
  (d : list (string * list nav_entry)) (names : list string).

(** The files of a document: inside its directory they are what processing
    it over the empty file system gives, outside they are as before. *)
Lemma doc_files_lookup name content fs p :
  doc_files markdown name content fs !! p
  = if under ("docs/" +:+ name) p
    then doc_files markdown name content ∅ !! p
    else fs !! p.
Proof.
  unfold doc_files.
  destruct (decide (index_path_of name = p)) as [<-|Hne].
  { rewrite !lookup_insert_eq. by rewrite under_index_path. }
  rewrite !lookup_insert_ne by done.
  rewrite put_files_lookup.
  rewrite (put_files_lookup _ (filter _ ∅)).
  destruct (put_files (doc_output markdown name content).1 ∅ !! p) as [v|] eqn:E.
  - apply put_files_empty_Some in E.
    apply list_elem_of_fmap in E as (kv & -> & Hkv).
    pose proof (file_structure_paths name (split_lines content)
                  (parse_markdown (markdown content) content)) as Hpaths.
    rewrite Forall_forall in Hpaths. by rewrite (Hpaths kv Hkv).
  - destruct (under ("docs/" +:+ name) p) eqn:Hu.
    + by rewrite !lookup_filter_under.
    + by rewrite lookup_filter_not_under.
Qed.

Lemma doc_files_same_inputs name content fs :
  same_inputs (doc_files markdown name content fs) fs.
Proof.
  intros p Hp. rewrite doc_files_lookup.
  destruct (under ("docs/" +:+ name) p) eqn:Hu; [|done].
  apply under_docs in Hu. congruence.
Qed.

Lemma same_inputs_original fs1 fs2 name :
  same_inputs fs1 fs2 →
  fs1 !! original_path_of name = fs2 !! original_path_of name.
Proof. intros H. by apply H. Qed.

Lemma same_inputs_processable fs1 fs2 name :
  same_inputs fs1 fs2 → processable fs1 name = processable fs2 name.
Proof.
  intros H. unfold processable. by rewrite (same_inputs_original _ _ _ H).
Qed.

Lemma same_inputs_trans fs1 fs2 fs3 :
  same_inputs fs1 fs2 → same_inputs fs2 fs3 → same_inputs fs1 fs3.
Proof. intros H12 H23 p Hp. by rewrite H12, H23. Qed.

Lemma document_step_same_inputs d fs name :
  same_inputs (document_step markdown (d, fs) name).2 fs.
Proof.
  unfold document_step. simpl.
  destruct (fs !! original_path_of name); [|done].
  destruct (valid_name name); [|done]. apply doc_files_same_inputs.
Qed.

Lemma document_step_skipped d fs name :
  processable fs name = false → document_step markdown (d, fs) name = (d, fs).
Proof.
  unfold processable, document_step. simpl.
  destruct (fs !! original_path_of name) as [c|]; [|done].
  destruct (valid_name name); [|done].
  rewrite bool_decide_eq_true_2 by eauto. done.
Qed.

(** The loop of [split] never raises; its dictionary and files are those of
    [documents_result], and it only adds lines to the output. *)
Lemma split_documents_result names d w :
  ∃ out,
    split_documents markdown d names w
    = (inr (documents_result markdown d (files w) names).1,
       mk_world (documents_result markdown d (files w) names).2
                (stdout w ++ out)).
Proof.
  revert d w. induction names as [|name names IH]; intros d w.
  - exists []. simpl. rewrite app_nil_r. by destruct w.
  - cbn [split_documents]. unfold mbind, io_bind, bind.
    unfold documents_result. cbn [foldl]. unfold document_step at 2 4.
    cbn [fst snd].
    destruct (processable (files w) name) eqn:Hok.
    + unfold processable in Hok. apply andb_true_iff in Hok as [Hv Hsrc].
      apply bool_decide_eq_true in Hsrc as [content Hsrc].
      destruct (split_document_processed markdown d name w content Hv Hsrc)
        as [out1 ->].
      rewrite Hsrc, Hv.
      destruct (IH (dict_set name (doc_output markdown name content).2 d)
                  (mk_world (doc_files markdown name content (files w))
                     (stdout w ++ out1))) as [out2 ->].
      exists (out1 ++ out2). simpl. by rewrite <- app_assoc.
    + rewrite split_document_skipped by done.
      pose proof (document_step_skipped d (files w) name Hok) as Hstep.
      unfold document_step in Hstep. cbn [fst snd] in Hstep. rewrite Hstep.
      destruct (IH d (mk_world (files w) (stdout w ++ [diagnostic name])))
        as [out2 ->].
      exists ([diagnostic name] ++ out2). simpl. by rewrite <- app_assoc.
Qed.

(** Documents that are skipped change neither the dictionary nor the
    files. *)
Lemma documents_result_filter names d fs fs0 :
  same_inputs fs fs0 →
  documents_result markdown d fs names
  = documents_result markdown d fs
      (filter (λ name, processable fs0 name = true) names).
Proof.
  unfold documents_result.
  revert d fs. induction names as [|name names IH]; intros d fs Hsame; [done|].
  rewrite filter_cons. cbn [foldl].
  destruct (processable fs0 name) eqn:Hok.
  - rewrite decide_True by done. cbn [foldl].
    destruct (document_step markdown (d, fs) name) as [d' fs'] eqn:Hstep.
    apply IH.
    pose proof (document_step_same_inputs d fs name) as H.
    rewrite Hstep in H. by eapply same_inputs_trans.
  - rewrite decide_False by congruence.
    rewrite document_step_skipped
      by by rewrite (same_inputs_processable _ _ _ Hsame).
    by apply IH.
Qed.

Lemma documents_result_same_inputs names d fs :
  same_inputs (documents_result markdown d fs names).2 fs.
Proof.
  unfold documents_result.
  revert d fs. induction names as [|name names IH]; intros d fs; [done|].
  cbn [foldl].
  destruct (document_step markdown (d, fs) name) as [d' fs'] eqn:Hstep.
  eapply same_inputs_trans; [apply IH|].
  pose proof (document_step_same_inputs d fs name) as H.
  by rewrite Hstep in H.
Qed.

Lemma elem_of_dict_set {V} (k : string) (v : V) (dict : list (string * V)) x :
  x ∈ (dict_set k v dict).*1 ↔ x = k ∨ x ∈ dict.*1.
Proof.
  induction dict as [|[k' v'] dict IH]; simpl.
  - rewrite list_elem_of_singleton. split; [by left|].
    intros [?|H]; [done|by apply elem_of_nil in H].
  - case_decide; simpl; rewrite !elem_of_cons; [naive_solver|].
    rewrite IH. naive_solver.
Qed.

(** The keys of the dictionary: those it had and the documents that were
    processed. *)
Lemma documents_result_keys names d fs fs0 x :
  same_inputs fs fs0 →
  x ∈ (documents_result markdown d fs names).1.*1
  ↔ x ∈ d.*1 ∨ (x ∈ names ∧ processable fs0 x = true).
Proof.
  unfold documents_result.
  revert d fs. induction names as [|name names IH]; intros d fs Hsame.
  - simpl. split; [by left|]. intros [?|[H _]]; [done|].
    by apply elem_of_nil in H.
  - cbn [foldl]. rewrite elem_of_cons.
    pose proof (document_step_same_inputs d fs name) as Hstep.
    destruct (processable fs0 name) eqn:Hok.
    + assert (processable fs name = true) as Hok'
        by by rewrite (same_inputs_processable _ _ _ Hsame).
      unfold processable in Hok'. apply andb_true_iff in Hok' as [Hv Hsrc].
      apply bool_decide_eq_true in Hsrc as [content Hsrc].
      unfold document_step in *. cbn [fst snd] in *.
      rewrite Hsrc, Hv in *. cbn [fst snd] in *.
      rewrite IH by by eapply same_inputs_trans.
      rewrite elem_of_dict_set. naive_solver.
    + rewrite document_step_skipped
        by by rewrite (same_inputs_processable _ _ _ Hsame).
      rewrite IH by done. split; [naive_solver|].
      intros [?|[[->|?] ?]]; [by left|congruence|by right].
Qed.

End documents.

Section whole_runs.
Variable markdown : string → list block.
Implicit Types (w : world) (fs : gmap string string) (name p : string)
  (d : list (string * list nav_entry)) (names : list string).

Lemma split_pure names w :
  (split markdown names w).1 = (split_result markdown names (files w)).1
  ∧ files (split markdown names w).2
    = (split_result markdown names (files w)).2.
Proof.
  unfold split, split_result. unfold mbind, io_bind, bind.
  destruct (split_documents_result markdown names [] w) as [out ->].
  destruct (documents_result markdown [] (files w) names) as [d fs'].
  cbn [fst snd]. destruct d as [|entry d]; [done|].
  unfold update_config_file, mbind, io_bind, bind, print, ret, read_file,
    write_file. simpl.
  fold template_path. by destruct (fs' !! template_path).
Qed.

Lemma overlay_same_inputs names fs1 fs2 p :
  same_inputs fs1 fs2 →
  overlay markdown fs1 names p = overlay markdown fs2 names p.
Proof.
  intros Hsame. induction names as [|name names IH]; simpl; [done|].
  rewrite IH. by rewrite (same_inputs_original _ _ _ Hsame).
Qed.

(** What is at a path after the loop: what the last processed document
    whose directory holds the path left there, else what was there. *)
Lemma documents_result_lookup names d fs p :
  (documents_result markdown d fs names).2 !! p
  = from_option id (fs !! p) (overlay markdown fs names p).
Proof.
  unfold documents_result.
  revert d fs. induction names as [|name names IH]; intros d fs; [done|].
  cbn [foldl overlay].
  pose proof (document_step_same_inputs markdown d fs name) as Hsame.
  destruct (document_step markdown (d, fs) name) as [d' fs'] eqn:Hstep.
  rewrite IH. simpl in Hsame.
  rewrite (overlay_same_inputs names fs' fs) by done.
  destruct (overlay markdown fs names p) as [v|]; [done|]. simpl.
  unfold document_step in Hstep. simpl in Hstep.
  destruct (fs !! original_path_of name) as [content|]; [|by simplify_eq].
  destruct (valid_name name); simpl; [|by simplify_eq].
  simplify_eq. rewrite doc_files_lookup.
  by destruct (under ("docs/" +:+ name) p).
Qed.

Lemma documents_result_dict names d fs1 fs2 :
  same_inputs fs1 fs2 →
  (documents_result markdown d fs1 names).1
  = (documents_result markdown d fs2 names).1.
Proof.
  unfold documents_result.
  revert d fs1 fs2.
  induction names as [|name names IH]; intros d fs1 fs2 Hsame; [done|].
  cbn [foldl].
  pose proof (document_step_same_inputs markdown d fs1 name) as H1.
  pose proof (document_step_same_inputs markdown d fs2 name) as H2.
  assert ((document_step markdown (d, fs1) name).1
          = (document_step markdown (d, fs2) name).1) as Hd.
  { unfold document_step. simpl.
    rewrite (same_inputs_original _ _ _ Hsame).
    destruct (fs2 !! original_path_of name); [|done].
    by destruct (valid_name name). }
  destruct (document_step markdown (d, fs1) name) as [d1 fs1'].
  destruct (document_step markdown (d, fs2) name) as [d2 fs2'].
  simpl in *. subst d2. apply IH.
  intros p Hp. rewrite H1, H2 by done. by apply Hsame.
Qed.

(** Running the loop again from files that differ from those of the first
    run only where a document is rebuilt gives the files of the first run. *)
Lemma rerun_lookup names d d' fs g p :
  same_inputs g fs →
  (overlay markdown fs names p = None →
   g !! p = (documents_result markdown d fs names).2 !! p) →
  (documents_result markdown d' g names).2 !! p
  = (documents_result markdown d fs names).2 !! p.
Proof.
  intros Hsame Hg. rewrite (documents_result_lookup names d' g).
  rewrite (overlay_same_inputs names g fs) by done.
  destruct (overlay markdown fs names p) as [v|] eqn:Hov.
  - rewrite documents_result_lookup. by rewrite Hov.
  - simpl. by apply Hg.
Qed.

Lemma split_result_idempotent names fs :
  split_result markdown names (split_result markdown names fs).2
  = split_result markdown names fs.
Proof.
  unfold split_result.
  pose proof (documents_result_same_inputs markdown names [] fs) as Hsame.
  destruct (documents_result markdown [] fs names) as [d1 fs1] eqn:Hrun1.
  simpl in Hsame.
  assert (∀ g, same_inputs g fs →
               (documents_result markdown [] g names).1 = d1) as Hdict.
  { intros g Hg. rewrite (documents_result_dict names [] g fs Hg).
    by rewrite Hrun1. }
  assert (∀ g, same_inputs g fs →
            (∀ p, p ≠ config_path → g !! p = fs1 !! p) →
            ∀ p, p ≠ config_path →
                 (documents_result markdown [] g names).2 !! p = fs1 !! p)
    as Hfiles.
  { intros g Hg Hagree p Hp.
    rewrite (rerun_lookup names [] [] fs g p Hg); rewrite Hrun1; [done|].
    intros _. by apply Hagree. }
  assert (documents_result markdown [] fs1 names = (d1, fs1)) as Hrun2.
  { pose proof (Hdict fs1 Hsame) as Hd.
    destruct (documents_result markdown [] fs1 names) as [d2 fs2] eqn:E.
    simpl in Hd. subst d2. f_equal. apply map_eq. intros p.
    pose proof (rerun_lookup names [] [] fs fs1 p Hsame) as Hp.
    rewrite E, Hrun1 in Hp. by apply Hp. }
  destruct d1 as [|entry d1].
  { simpl. by rewrite Hrun2. }
  destruct (fs1 !! template_path) as [template|] eqn:Htemplate.
  - cbn [snd].
    set (v := replace "// template: sidebar"
                (generate_sidebar_config (entry :: d1)) template).
    assert (same_inputs (<[config_path := v]> fs1) fs) as Hg.
    { intros p Hp. rewrite lookup_insert_ne; [by apply Hsame|].
      intros <-. done. }
    pose proof (Hdict _ Hg) as Hd.
    pose proof (Hfiles _ Hg) as Hf.
    pose proof (documents_result_same_inputs markdown names []
                  (<[config_path := v]> fs1)) as Hsame2.
    destruct (documents_result markdown [] (<[config_path := v]> fs1) names)
      as [d2 fs2].
    simpl in Hd, Hf, Hsame2. subst d2.
    assert (fs2 !! template_path = Some template) as ->.
    { rewrite Hsame2 by done. by rewrite lookup_insert_ne. }
    f_equal. fold v. apply map_eq. intros p.
    destruct (decide (config_path = p)) as [<-|Hne].
    + by rewrite !lookup_insert_eq.
    + rewrite !lookup_insert_ne by done. apply Hf; [|done].
      intros q Hq. by rewrite lookup_insert_ne.
  - cbn [snd]. rewrite Hrun2. by rewrite Htemplate.
Qed.

(** The lines printed are never taken back. *)
Lemma split_documents_stdout names d w line :
  line ∈ stdout w → line ∈ stdout (split_documents markdown d names w).2.
Proof.
  intros Hline.
  destruct (split_documents_result markdown names d w) as [out ->]. simpl.
  apply elem_of_app. by left.
Qed.

Lemma split_document_world d name w :
  ∃ d' out,
    split_document markdown d name w
    = (inr d', mk_world (document_step markdown (d, files w) name).2
                        (stdout w ++ out)).
Proof.
  destruct (split_documents_result markdown [name] d w) as [out Hrun].
  cbn [split_documents] in Hrun.
  unfold mbind, io_bind, bind, documents_result in Hrun. cbn [foldl] in Hrun.
  destruct (split_document markdown d name w) as [[e|d'] w'] eqn:E;
    [done|].
  unfold ret in Hrun. simplify_eq. eauto.
Qed.

(** Every document that is skipped leaves its line in the output. *)
Lemma diagnostics_printed names d w fs0 name :
  same_inputs (files w) fs0 →
  name ∈ names → processable fs0 name = false →
  diagnostic name ∈ stdout (split_documents markdown d names w).2.
Proof.
  revert d w. induction names as [|n names IH]; intros d w Hsame Hin Hskip.
  { by apply elem_of_nil in Hin. }
  cbn [split_documents]. unfold mbind, io_bind, bind.
  apply elem_of_cons in Hin as [<-|Hin].
  - rewrite split_document_skipped
      by by rewrite (same_inputs_processable _ _ _ Hsame).
    apply split_documents_stdout. simpl. apply elem_of_app. right. left.
  - destruct (split_document_world d n w) as (d' & out & ->).
    apply IH; [|done..]. simpl.
    eapply same_inputs_trans; [apply document_step_same_inputs|done].
Qed.

End whole_runs.

(** C9. Running [split] a second time on the same names, from the world the
    first run left, leaves the same files, returns the same value, and so
    generates the same configuration fragment. *)
Theorem rebuild_is_idempotent
    (markdown : string → list block) (names : list string) (w : world) :
  let run1 := split markdown names w in
  let run2 := split markdown names run1.2 in
  files run2.2 = files run1.2
  ∧ run2.1 = run1.1
  ∧ manifest_of run2.1 = manifest_of run1.1.
Proof.
  intros run1 run2.
  destruct (split_pure markdown names w) as [Hv1 Hf1].
  destruct (split_pure markdown names run1.2) as [Hv2 Hf2].
  fold run1 in Hv1, Hf1. fold run2 in Hv2, Hf2.
  rewrite Hf1 in Hv2, Hf2. rewrite split_result_idempotent in Hv2, Hf2.
  assert (run2.1 = run1.1) as Hv by congruence.
  split_and!; [congruence|done|by rewrite Hv].
Qed.

(** The run on the world of a site: the document "oj" is processed, the two
    others are skipped, and the configuration file is written. *)
Example sample_run :
  let run := split (λ _, basics_ast) ["oj"; "x/y"; "cf"] site_world in
  run.1 = inr [("oj", [mk_entry "Basics" (Some "/oj/basics") []])]
  ∧ files run.2 !! "docs/oj/basics.md" = Some basics_doc
  ∧ files run.2 !! "docs/oj/index.md" = Some (guide_content "oj")
  ∧ is_Some (files run.2 !! "docs/.vitepress/config.mjs")
  ∧ stdout run.2
    = ["Processing oj from original/oj.md..."; "  Found 1 sections";
       "  Created file structure in docs/oj/";
       "  Created index.md (guide page)"; diagnostic "x/y"; diagnostic "cf";
       "Generating sidebar configuration...";
       "Updated docs/.vitepress/config.mjs"; "Done!"].
Proof. vm_compute. split_and!; eauto. Qed.

(** Every file that the splitter writes for a document is in the file
    system, with its text, when the document has been processed, unless it
    is at the path of the landing page, which is written after it. *)
Lemma doc_files_written (markdown : string → list block)
    (name content : string) (fs : gmap string string) (p text : string) :
  (p, text) ∈ (doc_output markdown name content).1 →
  p ≠ index_path_of name →
  doc_files markdown name content fs !! p = Some text.
Proof.
  intros Hin Hne. unfold doc_files. rewrite lookup_insert_ne by done.
  apply put_files_written; [|done]. apply file_structure_distinct.
Qed.

(** * Further properties *)

(** ** File names *)

Section file_names.
Implicit Types (s : string) (c : ascii) (p : ascii → bool).

Lemma all_chars_app p (a b : string) :
  all_chars p (a +:+ b) = all_chars p a && all_chars p b.
Proof.
  induction a as [|x a IH]; [done|].
  rewrite string_app_cons. simpl. by rewrite IH, andb_assoc.
Qed.

Lemma all_chars_impl p q s :
  (∀ c, p c = true → q c = true) → all_chars p s = true → all_chars q s = true.
Proof.
  intros Hpq. induction s as [|c s IH]; simpl; [done|].
  rewrite !andb_true_iff. intros [? ?]. split; auto.
Qed.

Lemma all_chars_word_run s : all_chars is_word (word_run s).1 = true.
Proof.
  induction s as [|c s IH]; simpl; [done|].
  destruct (is_word c) eqn:Hc; [|done].
  destruct (word_run s) as [w r]. simpl in *. by rewrite Hc.
Qed.

Lemma all_chars_lstrip p q s :
  all_chars p s = true → all_chars p (lstrip q s) = true.
Proof.
  induction s as [|c s IH]; simpl; [done|].
  rewrite andb_true_iff. intros [Hc Hs].
  destruct (q c); [by apply IH|]. simpl. by rewrite Hc, Hs.
Qed.

Lemma all_chars_rstrip p q s :
  all_chars p s = true → all_chars p (rstrip q s) = true.
Proof.
  induction s as [|c s IH]; simpl; [done|].
  rewrite andb_true_iff. intros [Hc Hs]. specialize (IH Hs).
  destruct (rstrip q s) as [|y r].
  - destruct (q c); simpl; [done|]. by rewrite Hc.
  - simpl in IH |- *. by rewrite Hc.
Qed.

Lemma all_chars_filter p s : all_chars p (filter_chars p s) = true.
Proof.
  induction s as [|c s IH]; simpl; [done|].
  destruct (p c) eqn:Hc; [|done]. simpl. by rewrite Hc.
Qed.

(** After the runs of spaces and hyphens are replaced, no space is left. *)
Lemma all_chars_collapse in_run s :
  all_chars (λ c, is_word c || is_space c || (code c =? 45)) s = true →
  all_chars (λ c, is_word c || (code c =? 45)) (collapse_runs in_run s) = true.
Proof.
  revert in_run. induction s as [|c s IH]; intros in_run; simpl; [done|].
  rewrite andb_true_iff. intros [Hc Hs].
  destruct (is_space c || (code c =? 45)) eqn:Hsep.
  - destruct in_run; [by apply IH|]. simpl. by apply IH.
  - simpl. rewrite IH by done. rewrite andb_true_r.
    apply orb_false_iff in Hsep as [Hsp Hhy].
    rewrite Hsp, Hhy, !orb_false_r in Hc. by rewrite Hc.
Qed.

Lemma lower_char_safe c :
  is_word c || (code c =? 45) = true → safe_char (lower_char c) = true.
Proof. destruct c as [[] [] [] [] [] [] [] []]; by vm_compute. Qed.

Lemma all_chars_lower s :
  all_chars (λ c, is_word c || (code c =? 45)) s = true →
  all_chars safe_char (lower s) = true.
Proof.
  unfold lower. induction s as [|c s IH]; simpl; [done|].
  rewrite andb_true_iff. intros [Hc Hs].
  by rewrite lower_char_safe, IH.
Qed.

Lemma lower_nonempty s : s ≠ "" → lower s ≠ "".
Proof. by destruct s. Qed.

Lemma match_problem_id_word text id :
  match_problem_id text = Some id → id ≠ "" ∧ all_chars is_word id = true.
Proof.
  unfold match_problem_id. pose proof (all_chars_word_run text) as Hrun.
  destruct (word_run text) as [run rest]. simpl in Hrun.
  destruct rest; [done|].
  pose proof (all_chars_lstrip is_word (λ c, negb (is_digit c)) run Hrun) as H.
  destruct (lstrip _ run) eqn:E; [done|]. intros [= <-]. done.
Qed.

Lemma base_name_of_safe text :
  base_name_of text ≠ "" ∧ all_chars safe_char (base_name_of text) = true.
Proof.
  unfold base_name_of.
  destruct (match_problem_id text) as [id|] eqn:Hid.
  - apply match_problem_id_word in Hid as [Hne Hw]. split.
    + by apply lower_nonempty.
    + apply all_chars_lower. eapply all_chars_impl; [|done].
      intros c ->. done.
  - unfold slugify. case_decide as Hslug; [done|]. split; [done|].
    apply all_chars_lower. unfold strip.
    apply all_chars_rstrip, all_chars_lstrip, all_chars_collapse.
    apply all_chars_filter.
Qed.

Lemma pretty_N_char_digit (x : N) : is_digit (pretty_N_char x) = true.
Proof. unfold pretty_N_char. by repeat case_match. Qed.

Lemma pretty_N_go_digits (x : N) s :
  all_chars is_digit s = true → all_chars is_digit (pretty_N_go x s) = true.
Proof.
  revert s. induction (N.lt_wf_0 x) as [x _ IH]; intros s Hs.
  destruct (decide (x = 0)%N) as [->|Hx]; [by rewrite pretty_N_go_0|].
  rewrite pretty_N_go_step by lia. apply IH.
  - apply N.div_lt; lia.
  - simpl. by rewrite pretty_N_char_digit.
Qed.

(** The decimal form of a number is made of digits. *)
Lemma pretty_nat_digits (n : nat) : all_chars is_digit (pretty n) = true.
Proof.
  unfold pretty, pretty_nat, pretty, pretty_N.
  case_decide; [done|]. by apply pretty_N_go_digits.
Qed.

Lemma suffixed_safe base k :
  all_chars safe_char base = true →
  all_chars safe_char (suffixed base k) = true.
Proof.
  intros Hb. unfold suffixed. rewrite !all_chars_app, Hb. simpl.
  eapply all_chars_impl; [|apply pretty_nat_digits].
  intros c. destruct c as [[] [] [] [] [] [] [] []]; by vm_compute.
Qed.

Lemma suffixed_nonempty base k : base ≠ "" → suffixed base k ≠ "".
Proof. by destruct base. Qed.

End file_names.

Lemma heading_to_name_chars (text : string) (used : gset string) :
  (heading_to_name text used).1 ≠ ""
  ∧ all_chars safe_char (heading_to_name text used).1 = true.
Proof.
  destruct (base_name_of_safe text) as [Hne Hsafe].
  unfold heading_to_name. case_decide; simpl; [|done].
  split; [by apply suffixed_nonempty|by apply suffixed_safe].
Qed.

(** X1. For a heading text in ASCII, the name that [heading_to_name]
    returns is never empty, and each of its characters is a word character
    or a hyphen and is not an upper case letter: it holds no path
    separator, no dot and no space. *)
Theorem heading_to_name_safe (text : string) (used : gset string) :
  is_ascii text = true →
  (heading_to_name text used).1 ≠ ""
  ∧ all_chars safe_char (heading_to_name text used).1 = true
  ∧ all_chars (λ c, negb (bool_decide (c ∈ ["/"; "."; " "; "\"]%char)))
      (heading_to_name text used).1 = true.
Proof.
  intros _.
  destruct (heading_to_name_chars text used) as [Hne Hsafe].
  split_and!; [done..|].
  eapply all_chars_impl; [|done].
  intros c. destruct c as [[] [] [] [] [] [] [] []]; by vm_compute.
Qed.

Lemma heading_to_name_safe_witness :
  (heading_to_name "../A b: c" {[ "a-b-c" ]}).1 ≠ ""
  ∧ all_chars safe_char (heading_to_name "../A b: c" {[ "a-b-c" ]}).1 = true
  ∧ all_chars (λ c, negb (bool_decide (c ∈ ["/"; "."; " "; "\"]%char)))
      (heading_to_name "../A b: c" {[ "a-b-c" ]}).1 = true.
Proof.
  apply (heading_to_name_safe "../A b: c" {[ "a-b-c" ]}). reflexivity.
Defined.

(** ** Files and links of the splitter *)

Section links.
Implicit Types (st : loop_state) (sec : section) (name : string).

Lemma path_of_link_of name file_name :
  path_of_link (link_of name file_name) = file_path_of name file_name.
Proof.
  unfold path_of_link, link_of, file_path_of.
  by rewrite !string_app_assoc.
Qed.

Lemma section_step_safe_names name lines st sec :
  Forall (λ kv, ∃ fn, kv.1 = file_path_of name fn ∧ safe_name fn) (written st) →
  Forall (λ kv, ∃ fn, kv.1 = file_path_of name fn ∧ safe_name fn)
    (written (section_step name lines st sec)).
Proof.
  intros Hst. unfold section_step.
  destruct (level sec =? 1).
  - unfold step_level1. destruct (is_too_long sec); [done|].
    pose proof (heading_to_name_chars (heading_text sec) (used_names st)) as Hn.
    destruct (heading_to_name _ _) as [fn u]. simpl in *.
    apply Forall_app. split; [done|]. repeat constructor. by exists fn.
  - destruct (level sec =? 2); [|done].
    assert (written (default_l1 st) = written st) as Hd.
    { unfold default_l1. by destruct (current_l1_name st). }
    unfold step_level2.
    destruct (current_l1_link (default_l1 st)); [by rewrite Hd|].
    pose proof (heading_to_name_chars (heading_text sec)
                  (used_names (default_l1 st))) as Hn.
    destruct (heading_to_name _ _) as [fn u]. simpl in *. rewrite Hd.
    apply Forall_app. split; [done|]. repeat constructor. by exists fn.
Qed.

Lemma elem_of_structure_links_app sb entry l :
  l ∈ structure_links (sb ++ [entry])
  ↔ l ∈ structure_links sb ∨ l ∈ entry_links entry.
Proof.
  unfold structure_links. rewrite fmap_app, concat_app, elem_of_app.
  simpl. by rewrite app_nil_r.
Qed.

Lemma elem_of_entry_links entry l :
  l ∈ entry_links entry
  ↔ link entry = Some l ∨ ∃ item, item ∈ items entry ∧ item_link item = l.
Proof.
  unfold entry_links. rewrite elem_of_app, list_elem_of_fmap.
  destruct (link entry) as [l'|]; simpl.
  - rewrite list_elem_of_singleton. naive_solver.
  - rewrite elem_of_nil. naive_solver.
Qed.

(** Saving the current entry keeps the links written and the entries well
    shaped. *)
Lemma save_current_l1_linked st :
  linked st →
  (∀ l, l ∈ structure_links (save_current_l1 st) →
        path_of_link l ∈ (written st).*1)
  ∧ Forall well_shaped (save_current_l1 st).
Proof.
  intros (Hsb & Hlink & Hitems & Hshape & Hcur). unfold save_current_l1.
  destruct (current_l1_name st) as [n|]; [|done].
  case_decide as Hn; [done|]. split.
  - intros l Hl. apply elem_of_structure_links_app in Hl as [Hl|Hl]; [eauto|].
    apply elem_of_entry_links in Hl as [Hl|(item & Hitem & <-)]; simpl in *;
      eauto.
  - apply Forall_app. split; [done|]. apply Forall_singleton. by split.
Qed.

Lemma section_step_linked name lines st sec :
  linked st → linked (section_step name lines st sec).
Proof.
  intros Hst. pose proof (save_current_l1_linked st Hst) as [Hsave Hshape].
  destruct Hst as (Hsb & Hlink & Hitems & Hsh & Hcur).
  unfold section_step.
  destruct (level sec =? 1).
  - unfold step_level1. destruct (is_too_long sec).
    + split_and!; simpl; try done.
      * intros item Hitem. by apply elem_of_nil in Hitem.
      * by left.
    + destruct (heading_to_name _ _) as [fn u].
      split_and!; simpl; rewrite ?fmap_app; simpl.
      * intros l Hl. apply elem_of_app. left. eauto.
      * intros l [= <-]. apply elem_of_app. right.
        rewrite path_of_link_of. left.
      * intros item Hitem. by apply elem_of_nil in Hitem.
      * done.
      * by right.
  - destruct (level sec =? 2); [|done].
    unfold step_level2.
    assert (linked (default_l1 st)) as Hd.
    { unfold default_l1. destruct (current_l1_name st); [done|].
      split_and!; simpl; try done.
      - intros item Hitem. by apply elem_of_nil in Hitem.
      - by left. }
    destruct (current_l1_link (default_l1 st)) eqn:Hl; [done|].
    destruct Hd as (Hsb' & Hlink' & Hitems' & Hsh' & Hcur').
    destruct (heading_to_name _ _) as [fn u].
    split_and!; simpl; rewrite ?fmap_app; simpl.
    + intros l Hin. apply elem_of_app. left. eauto.
    + done.
    + intros item Hitem. apply elem_of_app.
      apply elem_of_app in Hitem as [Hitem|Hitem]; [left; eauto|].
      apply list_elem_of_singleton in Hitem as ->. simpl.
      right. rewrite path_of_link_of. left.
    + done.
    + by left.
Qed.

Lemma run_sections_linked name lines st sections :
  linked st → linked (run_sections name lines st sections).
Proof.
  unfold run_sections. revert st.
  induction sections as [|sec sections IH]; intros st Hst; cbn [foldl];
    [done|].
  apply IH. by apply section_step_linked.
Qed.

Lemma initial_state_linked : linked initial_state.
Proof.
  split_and!; simpl; try done.
  - intros l Hl. by apply elem_of_nil in Hl.
  - intros item Hitem. by apply elem_of_nil in Hitem.
  - by left.
Qed.

End links.

(** X2. The files of a document are flat.  No path is written twice.  When
    the heading texts of the sections are in ASCII, each path written by
    the splitter is [docs/{name}/{file_name}.md] for a file name that is
    not empty and holds word characters and hyphens only, so no path
    separator. *)
Theorem files_are_flat (name : string) (lines : list string)
    (sections : list section) :
  NoDup (file_structure name lines sections).1.*1
  ∧ (Forall (λ sec, is_ascii (heading_text sec) = true) sections →
     Forall (λ kv, ∃ file_name,
               kv.1 = "docs/" +:+ name +:+ "/" +:+ file_name +:+ ".md"
               ∧ file_name ≠ ""
               ∧ all_chars safe_char file_name = true
               ∧ all_chars (λ c, negb (bool_decide (c = "/"%char)))
                   file_name = true)
       (file_structure name lines sections).1).
Proof.
  split; [apply file_structure_distinct|]. intros _.
  assert (Forall (λ kv, ∃ fn, kv.1 = file_path_of name fn ∧ safe_name fn)
            (file_structure name lines sections).1) as H.
  { unfold file_structure, run_sections. simpl.
    assert (Forall (λ kv : string * string,
                      ∃ fn, kv.1 = file_path_of name fn ∧ safe_name fn)
              (written initial_state)) as Hinit by constructor.
    revert Hinit. generalize initial_state.
    induction sections as [|sec sections IH]; intros st Hst; cbn [foldl];
      [done|].
    apply IH. by apply section_step_safe_names. }
  eapply Forall_impl; [exact H|].
  intros kv (fn & Hkv & Hne & Hsafe). exists fn. split_and!; try done.
  eapply all_chars_impl; [|exact Hsafe].
  intros c. destruct c as [[] [] [] [] [] [] [] []]; by vm_compute.
Qed.

Lemma files_are_flat_witness :
  Forall (λ kv, ∃ file_name,
            kv.1 = "docs/" +:+ "cf" +:+ "/" +:+ file_name +:+ ".md"
            ∧ file_name ≠ ""
            ∧ all_chars safe_char file_name = true
            ∧ all_chars (λ c, negb (bool_decide (c = "/"%char)))
                file_name = true)
    (file_structure "cf" (replicate 600 "x") two_part_sections).1.
Proof.
  apply (files_are_flat "cf" (replicate 600 "x") two_part_sections).
  repeat constructor.
Defined.

(** X3. Every link of the sidebar structure that the splitter returns, of an
    entry or of an item, names a file that the splitter wrote:
    [docs{link}.md] is among the paths written. *)
Theorem links_name_written_files (name : string) (lines : list string)
    (sections : list section) (l : string) :
  l ∈ structure_links (file_structure name lines sections).2 →
  path_of_link l ∈ (file_structure name lines sections).1.*1.
Proof.
  unfold file_structure. simpl.
  pose proof (run_sections_linked name lines initial_state sections
                initial_state_linked) as Hrun.
  apply save_current_l1_linked in Hrun as [Hlinks _]. apply Hlinks.
Qed.

(** X4. Every entry of the sidebar structure that the splitter returns has a
    title that is not empty, and has a link to a file of its own or items,
    never both. *)
Theorem entries_are_well_shaped (name : string) (lines : list string)
    (sections : list section) :
  Forall (λ entry, text entry ≠ ""
                   ∧ (link entry = None ∨ items entry = []))
    (file_structure name lines sections).2.
Proof.
  unfold file_structure. simpl.
  pose proof (run_sections_linked name lines initial_state sections
                initial_state_linked) as Hrun.
  by apply save_current_l1_linked in Hrun as [_ Hshape].
Qed.

Lemma links_name_written_files_witness :
  "/oj/basics"
    ∈ structure_links (file_structure "oj" (split_lines basics_doc)
                         (parse_markdown basics_ast basics_doc)).2
  ∧ "docs/oj/basics.md"
    ∈ (file_structure "oj" (split_lines basics_doc)
         (parse_markdown basics_ast basics_doc)).1.*1.
Proof.
  assert ("/oj/basics"
            ∈ structure_links (file_structure "oj" (split_lines basics_doc)
                                 (parse_markdown basics_ast basics_doc)).2)
    as Hin.
  { vm_compute. left. }
  split; [done|].
  exact (links_name_written_files "oj" (split_lines basics_doc)
           (parse_markdown basics_ast basics_doc) "/oj/basics" Hin).
Defined.

(** ** [create_file_structure] on the file system *)

Lemma filter_outside (dir : string) (fs : gmap string string) (p : string) :
  under dir p = false →
  filter (λ kv : string * string, under dir kv.1 = false) fs !! p = fs !! p.
Proof.
  intros Hp. apply option_eq. intros v. rewrite map_lookup_filter_Some.
  simpl. split; [by intros [? _]|by intros ?].
Qed.

Lemma filter_inside (dir : string) (fs : gmap string string) (p : string) :
  under dir p = true →
  filter (λ kv : string * string, under dir kv.1 = false) fs !! p = None.
Proof.
  intros Hp. apply map_lookup_filter_None. right. intros v _. simpl.
  congruence.
Qed.

Lemma put_files_lookup_iff ws (fs : gmap string string) p text :
  NoDup ws.*1 →
  put_files ws ∅ !! p = Some text ↔ (p, text) ∈ ws.
Proof.
  intros Hnd. split.
  - intros Hp. pose proof (put_files_empty_Some _ _ _ Hp) as Hkey.
    apply list_elem_of_fmap in Hkey as ([p' text'] & -> & Hin).
    rewrite (put_files_written ws ∅ p' text' Hnd Hin) in Hp. by simplify_eq.
  - by apply put_files_written.
Qed.

(** X5. [create_file_structure] fails fast: when the source of the document
    is missing it raises [FileNotFoundError] and changes nothing, so the
    output of an earlier run stays.  When the source exists it never raises,
    prints nothing, leaves every path outside [docs/{name}/] as it was, and
    leaves inside [docs/{name}/] exactly the files of the sections: what was
    there before is gone. *)
Theorem create_file_structure_replaces_directory (name : string)
    (sections : list section) (w : world) :
  (files w !! original_path_of name = None →
   create_file_structure name sections w
   = (inl (FileNotFoundError (original_path_of name)), w))
  ∧ (∀ content,
       files w !! original_path_of name = Some content →
       let out := file_structure name (split_lines content) sections in
       let w' := (create_file_structure name sections w).2 in
       (create_file_structure name sections w).1 = inr out.2
       ∧ stdout w' = stdout w
       ∧ (∀ p, under ("docs/" +:+ name) p = false →
               files w' !! p = files w !! p)
       ∧ (∀ p text, under ("docs/" +:+ name) p = true →
                    files w' !! p = Some text ↔ (p, text) ∈ out.1)).
Proof.
  split; [apply create_file_structure_missing|].
  intros content Hsrc out w'. unfold w'.
  rewrite (create_file_structure_ok name sections w content Hsrc).
  cbn [fst snd files stdout]. fold out.
  pose proof (file_structure_paths name (split_lines content) sections)
    as Hpaths. fold out in Hpaths. rewrite Forall_forall in Hpaths.
  pose proof (file_structure_distinct name (split_lines content) sections)
    as Hnd. fold out in Hnd.
  split_and!; [done..| |].
  - intros p Hp. rewrite put_files_lookup.
    destruct (put_files out.1 ∅ !! p) as [v|] eqn:E.
    + apply put_files_empty_Some in E.
      apply list_elem_of_fmap in E as (kv & -> & Hkv).
      rewrite (Hpaths kv Hkv) in Hp. done.
    + cbv beta iota. by apply filter_outside.
  - intros p text Hp. rewrite put_files_lookup.
    rewrite <- (put_files_lookup_iff out.1 ∅ p text Hnd).
    destruct (put_files out.1 ∅ !! p) as [v|]; [done|]. cbv beta iota.
    by rewrite filter_inside.
Qed.

Lemma create_file_structure_replaces_directory_witness :
  files sample_world !! original_path_of "cf" = None
  ∧ create_file_structure "cf" [] sample_world
    = (inl (FileNotFoundError (original_path_of "cf")), sample_world).
Proof.
  assert (files sample_world !! original_path_of "cf" = None) as Hsrc
    by by vm_compute.
  split; [done|].
  exact (proj1 (create_file_structure_replaces_directory "cf" []
                  sample_world) Hsrc).
Defined.

(** ** What the heading extractor returns *)

Section extractor.
Implicit Types (ps : positions) (hs : list heading) (ast : list block).

Lemma match_node_headings st node :
  (λ h, (h_level h, h_text h)) <$> (match_node st node).2
  = ((λ h, (h_level h, h_text h)) <$> st.2)
    ++ (match node with
        | Heading lvl cs =>
            if lvl <=? 2
            then match find_best_match lvl (extract_heading_text cs) st.1 with
                 | Some _ => [(lvl, extract_heading_text cs)]
                 | None => []
                 end
            else []
        | Other _ => []
        end).
Proof.
  destruct st as [ps hs], node as [lvl cs|ty]; simpl; [|by rewrite app_nil_r].
  destruct (lvl <=? 2); [|by rewrite app_nil_r].
  destruct (find_best_match lvl (extract_heading_text cs) ps); simpl.
  - by rewrite fmap_app.
  - by rewrite app_nil_r.
Qed.

(** The second pass keeps the order of the AST and makes up no heading. *)
Lemma foldl_match_node_sublist ast st :
  ∃ l, (λ h, (h_level h, h_text h)) <$> (foldl match_node st ast).2
       = ((λ h, (h_level h, h_text h)) <$> st.2) ++ l
       ∧ l `sublist_of` ast_headings ast.
Proof.
  revert st. induction ast as [|node ast IH]; intros st; cbn [foldl].
  - exists []. by rewrite app_nil_r.
  - destruct (IH (match_node st node)) as (l & Heq & Hsub).
    rewrite Heq, match_node_headings, <- app_assoc.
    eexists. split; [done|].
    destruct node as [lvl cs|ty]; simpl; [|done].
    destruct (lvl <=? 2); [|done].
    destruct (find_best_match lvl (extract_heading_text cs) st.1); simpl.
    + by apply sublist_skip.
    + by apply sublist_cons.
Qed.

Lemma build_sections_headings hs n :
  (λ s, (level s, heading_text s)) <$> build_sections hs n
  = (λ h, (h_level h, h_text h)) <$> hs.
Proof.
  induction hs as [|h hs IH]; [done|].
  cbn [build_sections]. rewrite !fmap_cons. by rewrite IH.
Qed.

Lemma build_sections_starts hs n :
  start_line <$> build_sections hs n = h_line <$> hs.
Proof.
  induction hs as [|h hs IH]; [done|].
  cbn [build_sections]. rewrite !fmap_cons. by rewrite IH.
Qed.

Lemma raw_heading_level_range line l :
  raw_heading_level line = Some l → l = 1 ∨ l = 2.
Proof.
  unfold raw_heading_level. intros H.
  repeat (case_match; simplify_eq); auto.
Qed.

Lemma del_position_above n ps :
  Forall (λ item, n < item.1) ps → del_position n ps = ps.
Proof.
  unfold del_position. induction 1 as [|item ps Hitem Hps IH]; [done|].
  rewrite filter_cons. rewrite decide_True by lia. by rewrite IH.
Qed.

Lemma scan_headings_increasing i lines :
  increasing_keys (scan_headings i lines).
Proof.
  revert i. induction lines as [|line lines IH]; intros i; simpl; [done|].
  destruct (raw_heading_level line) as [l|]; [|apply IH].
  split; [|apply IH]. apply Forall_forall. intros item Hitem.
  destruct (scan_headings_keys (S i) lines) as [_ Hge].
  assert (item.1 ∈ (scan_headings (S i) lines).*1) as Hkey
    by (apply list_elem_of_fmap; eauto).
  apply Hge in Hkey. simpl. lia.
Qed.

Lemma increasing_keys_lookup ps i j a b :
  increasing_keys ps → i < j →
  ps.*1 !! i = Some a → ps.*1 !! j = Some b → a < b.
Proof.
  revert i j. induction ps as [|[n e] ps IH]; intros i j Hinc Hij Hi Hj.
  { done. }
  destruct Hinc as [Hall Hinc].
  destruct j as [|j]; [lia|]. simpl in Hj.
  destruct i as [|i]; simpl in Hi.
  - simplify_eq. rewrite Forall_forall in Hall.
    apply list_elem_of_lookup_2 in Hj.
    apply list_elem_of_fmap in Hj as (item & -> & Hitem).
    by apply Hall.
  - apply (IH i j); [done|lia|done..].
Qed.

(** On aligned positions every heading of the AST takes the first position
    that is left, which is its own. *)
Lemma foldl_match_node_aligned ast ps hs :
  increasing_keys ps → aligned ast ps →
  foldl match_node (ps, hs) ast
  = ([], hs ++ zip_with (λ lt n, mk_heading lt.1 lt.2 n)
                        (ast_headings ast) ps.*1).
Proof.
  revert ps hs. induction ast as [|node ast IH]; intros ps hs Hinc Hal.
  - simpl in *. subst ps. by rewrite app_nil_r.
  - cbn [foldl]. destruct node as [lvl cs|ty]; [|by apply IH].
    cbn [aligned] in Hal. unfold match_node. cbn [ast_headings].
    destruct (lvl <=? 2) eqn:Hlvl; [|by apply IH].
    destruct ps as [|[n [l line]] ps]; [done|].
    destruct Hal as (-> & Hm & Hal). destruct Hinc as [Hall Hinc].
    pose proof (find_best_match_spec lvl (extract_heading_text cs)
                  ((n, (lvl, line)) :: ps)) as Hb.
    destruct (find_best_match lvl (extract_heading_text cs)
                ((n, (lvl, line)) :: ps)) as [b|].
    + destruct Hb as ((e & Hin & _) & Hmin).
      assert (b = n) as ->.
      { pose proof (Hmin n (lvl, line) ltac:(left) Hm) as Hle.
        apply elem_of_cons in Hin as [[= -> _]|Hin]; [done|].
        rewrite Forall_forall in Hall. specialize (Hall _ Hin). simpl in Hall.
        lia. }
      unfold del_position. rewrite filter_cons. simpl.
      rewrite decide_False by (intros H; by apply H).
      fold (del_position n ps). rewrite del_position_above by done.
      rewrite IH by done. simpl. by rewrite <- app_assoc.
    + specialize (Hb n (lvl, line) ltac:(left)). congruence.
Qed.

Lemma zip_headings (lts : list (nat * string)) (ks : list nat) :
  length lts = length ks →
  (λ h, (h_level h, h_text h))
    <$> zip_with (λ lt n, mk_heading lt.1 lt.2 n) lts ks = lts
  ∧ h_line <$> zip_with (λ lt n, mk_heading lt.1 lt.2 n) lts ks = ks.
Proof.
  revert ks. induction lts as [|[lvl t] lts IH]; intros [|k ks] Hlen;
    simpl in Hlen; try done.
  destruct (IH ks) as [H1 H2]; [lia|].
  cbn [zip_with]. rewrite !fmap_cons. simpl. by rewrite H1, H2.
Qed.

End extractor.

(** X6. The sections that [parse_markdown] returns come from the AST and
    from the raw lines: their levels and texts are, in order, those of some
    of the headings of level 1 and 2 of the AST; each has level 1 or 2 and
    starts at a line of the document to which the first pass gave that
    level; each ends within the document; and there are no more sections
    than raw heading lines. *)
Theorem sections_come_from_ast_and_lines (ast : list block) (content : string) :
  let lines := split_lines content in
  let sections := parse_markdown ast content in
  (λ s, (level s, heading_text s)) <$> sections `sublist_of` ast_headings ast
  ∧ Forall (λ s,
       (level s = 1 ∨ level s = 2)
       ∧ (∃ line, lines !! start_line s = Some line
                  ∧ raw_heading_level line = Some (level s))
       ∧ start_line s < length lines
       ∧ end_line s ≤ length lines) sections
  ∧ length sections ≤ length (scan_headings 0 lines).
Proof.
  intros lines sections. unfold sections, parse_markdown. cbv zeta.
  fold lines.
  set (hs := match_headings ast (scan_headings 0 lines)).
  destruct (match_headings_sound ast content) as [Hnd Hfrom].
  fold lines in Hnd, Hfrom. fold hs in Hnd, Hfrom.
  assert (Forall (λ x, h_line x < length lines) hs) as Hn.
  { apply Forall_forall. intros h Hh.
    destruct (Hfrom h Hh) as (line & Hline & _).
    by apply lookup_lt_Some in Hline. }
  split_and!.
  - rewrite build_sections_headings. unfold hs, match_headings.
    destruct (foldl_match_node_sublist ast (scan_headings 0 lines, []))
      as (l & -> & Hsub). done.
  - apply Forall_lookup. intros i s Hs.
    apply build_sections_lookup_inv in Hs as (h & Hh & ->). simpl.
    apply list_elem_of_lookup_2 in Hh as Hin.
    destruct (Hfrom h Hin) as (line & Hline & Hraw).
    split_and!.
    + by eapply raw_heading_level_range.
    + eauto.
    + by apply lookup_lt_Some in Hline.
    + apply section_end_bound. by apply Forall_drop.
  - rewrite build_sections_length.
    rewrite <- (length_fmap h_line hs).
    rewrite <- (length_fmap fst (scan_headings 0 lines)).
    apply submseteq_length, NoDup_submseteq; [done|].
    intros n Hn'. apply list_elem_of_fmap in Hn' as (h & -> & Hh).
    destruct (Hfrom h Hh) as (line & Hline & Hraw).
    apply list_elem_of_fmap. exists (h_line h, (h_level h, line)).
    split; [done|]. apply elem_of_scan_headings. exists (h_line h).
    by split_and!.
Qed.

(** X7. When the raw heading lines of a document are, one for one and in
    order, the lines of the headings of level 1 and 2 of its AST, no heading
    is dropped and none is misplaced: the sections are those headings, each
    starting at its own line, and the start lines increase in document
    order. *)
Theorem aligned_headings_are_extracted (ast : list block) (content : string) :
  let lines := split_lines content in
  let sections := parse_markdown ast content in
  aligned ast (scan_headings 0 lines) →
  (λ s, (level s, heading_text s)) <$> sections = ast_headings ast
  ∧ start_line <$> sections = (scan_headings 0 lines).*1
  ∧ increasing_starts sections.
Proof.
  intros lines sections Hal.
  assert (length (ast_headings ast) = length (scan_headings 0 lines)) as Hlen.
  { revert Hal. generalize (scan_headings 0 lines).
    induction ast as [|[lvl cs|ty] ast IH]; intros ps Hal; simpl in *.
    - by subst.
    - destruct (lvl <=? 2); [|by apply IH].
      destruct ps as [|[n [l line]] ps]; [done|].
      destruct Hal as (_ & _ & Hal). simpl. f_equal. by apply IH.
    - by apply IH. }
  assert (match_headings ast (scan_headings 0 lines)
          = zip_with (λ lt n, mk_heading lt.1 lt.2 n)
                     (ast_headings ast) (scan_headings 0 lines).*1) as Hhs.
  { unfold match_headings.
    by rewrite (foldl_match_node_aligned ast _ []
                  (scan_headings_increasing 0 lines) Hal). }
  destruct (zip_headings (ast_headings ast) (scan_headings 0 lines).*1)
    as [Htexts Hlines]; [by rewrite length_fmap|].
  rewrite <- Hhs in Htexts, Hlines.
  unfold sections, parse_markdown. cbv zeta. fold lines.
  assert (start_line
            <$> build_sections (match_headings ast (scan_headings 0 lines))
                  (length lines)
          = (scan_headings 0 lines).*1) as Hstarts
    by by rewrite build_sections_starts.
  split_and!; [by rewrite build_sections_headings|done|].
  intros i j s1 s2 Hij H1 H2.
  apply (increasing_keys_lookup (scan_headings 0 lines) i j);
    [apply scan_headings_increasing|done|..].
  - by rewrite <- Hstarts, list_lookup_fmap, H1.
  - by rewrite <- Hstarts, list_lookup_fmap, H2.
Qed.

Lemma aligned_headings_are_extracted_witness :
  aligned ordered_ast (scan_headings 0 (split_lines ordered_doc))
  ∧ start_line <$> parse_markdown ordered_ast ordered_doc = [0; 1; 2].
Proof.
  assert (aligned ordered_ast (scan_headings 0 (split_lines ordered_doc)))
    as Hal by (vm_compute; repeat split).
  split; [done|].
  rewrite (proj1 (proj2 (aligned_headings_are_extracted ordered_ast
                           ordered_doc Hal))).
  reflexivity.
Defined.

(** ** Document names *)

Section document_names.
Implicit Types (s body name : string).

Lemma valid_tail_iff s :
  valid_tail s = true
  ↔ ∃ body, all_chars name_char body = true ∧ (s = body ∨ s = body +:+ nl).
Proof.
  split.
  - induction s as [|c s IH]; simpl.
    + intros _. exists "". by split; [|left].
    + destruct (name_char c) eqn:Hc.
      * intros H. destruct (IH H) as (body & Hbody & Hs).
        exists (String c body). simpl. rewrite Hc, Hbody. split; [done|].
        destruct Hs as [->| ->]; [by left|by right].
      * rewrite andb_true_iff. intros [H1 H2].
        apply bool_decide_eq_true in H1, H2. subst.
        exists "". split; [done|by right].
  - intros (body & Hbody & Hs). revert s Hs.
    induction body as [|c body IH]; intros s Hs.
    + destruct Hs as [->| ->]; by vm_compute.
    + simpl in Hbody. apply andb_true_iff in Hbody as [Hc Hbody].
      destruct Hs as [->| ->]; rewrite ?string_app_cons; simpl; rewrite Hc;
        apply IH; auto.
Qed.

Lemma name_char_plain c :
  name_char c = true →
  negb (bool_decide (c ∈ ["/"; "."; "\"]%char)) = true
  ∧ c ≠ newline.
Proof. destruct c as [[] [] [] [] [] [] [] []]; by vm_compute. Qed.

Lemma valid_name_body name :
  valid_name name = true
  ↔ ∃ body, body ≠ "" ∧ all_chars name_char body = true
            ∧ (name = body ∨ name = body +:+ nl).
Proof.
  split.
  - destruct name as [|c s]; [done|]. simpl.
    rewrite andb_true_iff. intros [Hc Hs].
    apply valid_tail_iff in Hs as (body & Hbody & Hs).
    exists (String c body). simpl. rewrite Hc, Hbody. split_and!; [done..|].
    destruct Hs as [->| ->]; [by left|by right].
  - intros (body & Hne & Hbody & Hs).
    destruct body as [|c body]; [done|].
    simpl in Hbody. apply andb_true_iff in Hbody as [Hc Hbody].
    assert (∃ s, name = String c s ∧ (s = body ∨ s = body +:+ nl))
      as (s & -> & Hs').
    { destruct Hs as [->| ->]; eexists; split; eauto. }
    simpl. rewrite Hc. apply valid_tail_iff. eauto.
Qed.

Lemma valid_name_no_slash name :
  valid_name name = true →
  all_chars (λ c, negb (bool_decide (c ∈ ["/"; "."; "\"]%char))) name = true.
Proof.
  intros Hv. apply valid_name_body in Hv as (body & _ & Hbody & Hs).
  assert (all_chars (λ c, negb (bool_decide (c ∈ ["/"; "."; "\"]%char))) body
          = true) as Hb.
  { eapply all_chars_impl; [|exact Hbody].
    intros c Hc. by apply name_char_plain. }
  destruct Hs as [->| ->]; [done|]. rewrite all_chars_app, Hb. done.
Qed.

End document_names.

(** X8. The names that [split] accepts are exactly the non-empty runs of
    letters, digits, underscores and hyphens, and those runs followed by one
    line feed (the pattern ends in "$", which also matches before a final
    line feed).  So an accepted name holds no path separator and no dot: it
    cannot lead out of [original/] or [docs/]. *)
Theorem valid_names (name : string) :
  (valid_name name = true
   ↔ ∃ body, body ≠ "" ∧ all_chars name_char body = true
             ∧ (name = body ∨ name = body +:+ nl))
  ∧ (valid_name name = true →
     all_chars (λ c, negb (bool_decide (c ∈ ["/"; "."; "\"]%char))) name
     = true).
Proof. split; [apply valid_name_body|apply valid_name_no_slash]. Qed.

Lemma valid_names_witness :
  valid_name ("cf" +:+ nl) = true
  ∧ all_chars (λ c, negb (bool_decide (c ∈ ["/"; "."; "\"]%char)))
      ("cf" +:+ nl) = true.
Proof.
  assert (valid_name ("cf" +:+ nl) = true) as Hv by by vm_compute.
  split; [done|]. exact (proj2 (valid_names ("cf" +:+ nl)) Hv).
Defined.

(** ** What a run leaves in the file system *)

Section directories.
Implicit Types (s q p name : string).

Lemma startswith_app_iff (a b p : string) :
  startswith (a +:+ b) p = true
  ↔ startswith a p = true ∧ startswith b (drop_chars (String.length a) p) = true.
Proof.
  revert p. induction a as [|x a IH]; intros p.
  - simpl. rewrite string_app_empty_l. destruct p; naive_solver.
  - rewrite string_app_cons. destruct p as [|y p]; simpl; [naive_solver|].
    case_decide; [apply IH|naive_solver].
Qed.

(** Two names without separator that are followed by a separator at the
    start of one path are the same name. *)
Lemma same_directory (a b q : string) :
  all_chars (λ c, negb (bool_decide (c ∈ ["/"; "."; "\"]%char))) a = true →
  all_chars (λ c, negb (bool_decide (c ∈ ["/"; "."; "\"]%char))) b = true →
  startswith (a +:+ "/") q = true → startswith (b +:+ "/") q = true → a = b.
Proof.
  revert b q. induction a as [|x a IH]; intros [|y b] [|z q] Ha Hb H1 H2;
    try done; rewrite ?string_app_cons, ?string_app_empty_l in H1, H2;
    simpl in H1, H2.
  - case_decide; [|done]. case_decide; [|done]. subst.
    by vm_compute in Hb.
  - case_decide; [|done]. case_decide; [|done]. subst.
    by vm_compute in Ha.
  - case_decide; [|done]. case_decide; [|done]. subst. f_equal.
    simpl in Ha, Hb. apply andb_true_iff in Ha as [_ Ha].
    apply andb_true_iff in Hb as [_ Hb]. by apply (IH b q).
Qed.

Lemma under_docs_iff name p :
  under ("docs/" +:+ name) p = true
  ↔ startswith "docs/" p = true
    ∧ startswith (name +:+ "/") (drop_chars 5 p) = true.
Proof.
  unfold under. rewrite string_app_assoc. apply startswith_app_iff.
Qed.

(** The directories of two valid names share no path. *)
Lemma valid_directories_disjoint name1 name2 p :
  valid_name name1 = true → valid_name name2 = true →
  under ("docs/" +:+ name1) p = true → under ("docs/" +:+ name2) p = true →
  name1 = name2.
Proof.
  intros H1 H2 Hu1 Hu2.
  apply under_docs_iff in Hu1 as [_ Hu1]. apply under_docs_iff in Hu2 as [_ Hu2].
  apply (same_directory name1 name2 (drop_chars 5 p));
    auto using valid_name_no_slash.
Qed.

(** The configuration file is in the directory of no valid name. *)
Lemma config_not_under name :
  valid_name name = true → under ("docs/" +:+ name) config_path = false.
Proof.
  intros Hv. apply not_true_is_false. intros Hu.
  apply under_docs_iff in Hu as [_ Hu].
  apply valid_name_no_slash in Hv.
  destruct name as [|c name].
  - by vm_compute in Hu.
  - rewrite string_app_cons in Hu. unfold config_path in Hu. simpl in Hu.
    case_decide; [|done]. subst. simpl in Hv. done.
Qed.

End directories.

Section run_results.
Variable markdown : string → list block.
Implicit Types (w : world) (fs : gmap string string) (name p : string)
  (d : list (string * list nav_entry)) (names : list string).

(** A path that the documents put something at lies in the directory of one
    of them, which is processable. *)
Lemma overlay_Some fs names p v :
  overlay markdown fs names p = Some v →
  ∃ name content,
    name ∈ names ∧ valid_name name = true
    ∧ fs !! original_path_of name = Some content
    ∧ under ("docs/" +:+ name) p = true
    ∧ v = doc_files markdown name content ∅ !! p.
Proof.
  induction names as [|name names IH]; simpl; [done|].
  destruct (overlay markdown fs names p) as [v'|] eqn:E.
  - intros [= <-]. destruct (IH eq_refl) as (n & c & Hin & H).
    exists n, c. split; [by right|done].
  - destruct (fs !! original_path_of name) as [content|] eqn:Hsrc; [|done].
    destruct (valid_name name) eqn:Hv; [|done].
    destruct (under ("docs/" +:+ name) p) eqn:Hu; [|done].
    intros [= <-]. exists name, content. split_and!; try done. by left.
Qed.

(** The directory of a processable document holds what processing that
    document alone gives, wherever it stands among the names. *)
Lemma overlay_elem fs names p name content :
  name ∈ names → valid_name name = true →
  fs !! original_path_of name = Some content →
  under ("docs/" +:+ name) p = true →
  overlay markdown fs names p = Some (doc_files markdown name content ∅ !! p).
Proof.
  intros Hin Hv Hsrc Hu.
  induction names as [|name' names IH]; [by apply elem_of_nil in Hin|].
  cbn [overlay].
  destruct (overlay markdown fs names p) as [v|] eqn:E.
  - apply overlay_Some in E as (n & c & _ & Hvn & Hsrcn & Hun & ->).
    assert (n = name) as -> by eauto using valid_directories_disjoint.
    congruence.
  - apply elem_of_cons in Hin as [<-|Hin]; [|by apply IH in Hin].
    by rewrite Hsrc, Hv, Hu.
Qed.

Lemma overlay_outside fs names p :
  (∀ name, name ∈ names → valid_name name = true →
           under ("docs/" +:+ name) p = false) →
  overlay markdown fs names p = None.
Proof.
  intros H. destruct (overlay markdown fs names p) as [v|] eqn:E; [|done].
  apply overlay_Some in E as (n & c & Hin & Hv & _ & Hu & _).
  rewrite (H n Hin Hv) in Hu. done.
Qed.

Lemma config_outside fs names :
  overlay markdown fs names config_path = None.
Proof. apply overlay_outside. intros. by apply config_not_under. Qed.

Lemma config_path_docs : startswith "docs/" config_path = true.
Proof. done. Qed.

(** The files after [split], away from the configuration file. *)
Lemma split_files_lookup names w p :
  p ≠ config_path →
  files (split markdown names w).2 !! p
  = from_option id (files w !! p) (overlay markdown (files w) names p).
Proof.
  intros Hp. rewrite (proj2 (split_pure markdown names w)).
  unfold split_result.
  pose proof (documents_result_lookup markdown names [] (files w) p) as Hl.
  destruct (documents_result markdown [] (files w) names) as [d fs'].
  cbn [snd] in Hl.
  destruct d as [|entry d]; [done|].
  destruct (fs' !! template_path); cbn [snd]; [|done].
  by rewrite lookup_insert_ne.
Qed.

Lemma keys_dict_set {V} (k : string) (v : V) (dict : list (string * V)) :
  (dict_set k v dict).*1 = if decide (k ∈ dict.*1) then dict.*1 else dict.*1 ++ [k].
Proof.
  induction dict as [|[k' v'] dict IH].
  - cbn. destruct (decide (k ∈ [])) as [H|H]; [by apply elem_of_nil in H|done].
  - cbn [dict_set]. rewrite fmap_cons. cbn [fst].
    destruct (decide (k' = k)) as [->|Hne].
    + rewrite fmap_cons. cbn [fst].
      destruct (decide (k ∈ k :: dict.*1)) as [H|H]; [done|].
      destruct H. by left.
    + rewrite fmap_cons, IH. cbn [fst].
      destruct (decide (k ∈ dict.*1)) as [Hin|Hnin];
        destruct (decide (k ∈ k' :: dict.*1)) as [H|H]; try done.
      * destruct H. by right.
      * apply elem_of_cons in H as [?|?]; by simplify_eq.
Qed.

Lemma values_dict_set {V} (k : string) (v : V) (dict : list (string * V)) x :
  x ∈ dict_set k v dict → x = (k, v) ∨ x ∈ dict.
Proof.
  induction dict as [|[k' v'] dict IH]; simpl.
  - intros ->%list_elem_of_singleton. by left.
  - destruct (decide (k' = k)) as [->|Hne].
    + intros [->|?]%elem_of_cons; [by left|]. right. by right.
    + intros [->|?]%elem_of_cons; [right; by left|].
      destruct IH as [|]; [done|by left|]. right. by right.
Qed.

Lemma first_occurrences_seen (seen1 seen2 l : list string) :
  (∀ x, x ∈ seen1 ↔ x ∈ seen2) →
  first_occurrences seen1 l = first_occurrences seen2 l.
Proof.
  revert seen1 seen2. induction l as [|x l IH]; intros seen1 seen2 H; [done|].
  cbn [first_occurrences].
  destruct (decide (x ∈ seen1)) as [H1|H1];
    destruct (decide (x ∈ seen2)) as [H2|H2]; try (by apply IH).
  - by apply H in H1.
  - by apply H in H2.
  - f_equal. apply IH. intros y. rewrite !elem_of_cons. by rewrite H.
Qed.

(** The dictionary of the loop: its keys are those it had, then the new
    processed names in the order of their first occurrence, and each new
    value is the structure of the document of its name. *)
Lemma documents_result_dictionary names d fs fs0
    (Q : string * list nav_entry → Prop) :
  same_inputs fs fs0 → NoDup d.*1 →
  (∀ x, x ∈ d → Q x) →
  (∀ name content, valid_name name = true →
     fs0 !! original_path_of name = Some content →
     Q (name, (doc_output markdown name content).2)) →
  NoDup (documents_result markdown d fs names).1.*1
  ∧ (documents_result markdown d fs names).1.*1
    = d.*1 ++ first_occurrences d.*1
                (filter (λ name, processable fs0 name = true) names)
  ∧ (∃ l, (documents_result markdown d fs names).1.*1 = d.*1 ++ l
          ∧ l `sublist_of` names)
  ∧ ∀ x, x ∈ (documents_result markdown d fs names).1 → Q x.
Proof.
  intros Hsame Hnd HQ Hnew. unfold documents_result.
  revert d fs Hsame Hnd HQ.
  induction names as [|name names IH]; intros d fs Hsame Hnd HQ.
  { cbn. rewrite app_nil_r. split_and!; try done.
    exists []. by rewrite app_nil_r. }
  cbn [foldl]. rewrite filter_cons.
  destruct (processable fs0 name) eqn:Hok.
  - pose proof Hok as Hok'. unfold processable in Hok'.
    apply andb_true_iff in Hok' as [Hv Hsrc].
    apply bool_decide_eq_true in Hsrc as [content Hsrc].
    unfold document_step at 2 4 6 8. cbn [fst snd].
    rewrite (same_inputs_original _ _ _ Hsame), Hsrc, Hv.
    set (d1 := dict_set name (doc_output markdown name content).2 d).
    set (fs1 := doc_files markdown name content fs).
    assert (same_inputs fs1 fs0) as Hsame1.
    { eapply same_inputs_trans; [apply doc_files_same_inputs|done]. }
    assert (d1.*1 = if decide (name ∈ d.*1) then d.*1 else d.*1 ++ [name])
      as Hkeys by apply keys_dict_set.
    assert (NoDup d1.*1) as Hnd1.
    { rewrite Hkeys. destruct (decide (name ∈ d.*1)); [done|].
      apply NoDup_app. split_and!; [done| |apply NoDup_singleton].
      intros x Hx ->%list_elem_of_singleton. done. }
    assert (∀ x, x ∈ d1 → Q x) as HQ1.
    { intros x [->|Hx]%values_dict_set; [by apply Hnew|by apply HQ]. }
    destruct (IH d1 fs1 Hsame1 Hnd1 HQ1) as (IH1 & IH2 & (l & IH3 & Hl) & IH4).
    split_and!; [done| | |done].
    + rewrite IH2, decide_True by done. cbn [first_occurrences].
      rewrite Hkeys. destruct (decide (name ∈ d.*1)) as [Hin|Hnin]; [done|].
      rewrite <-app_assoc. simpl. do 2 f_equal.
      apply first_occurrences_seen. intros x.
      rewrite elem_of_app, !elem_of_cons, elem_of_nil. naive_solver.
    + rewrite IH3, Hkeys. destruct (decide (name ∈ d.*1)).
      * exists l. split; [done|]. by apply sublist_cons.
      * exists (name :: l). rewrite <-app_assoc. split; [done|].
        by apply sublist_skip.
  - rewrite (document_step_skipped markdown d fs name)
      by (by rewrite (same_inputs_processable _ _ _ Hsame)).
    destruct (IH d fs Hsame Hnd HQ) as (IH1 & IH2 & (l & IH3 & Hl) & IH4).
    split_and!; [done| | |done].
    + rewrite IH2. by rewrite decide_False by done.
    + exists l. split; [done|]. by apply sublist_cons.
Qed.

Lemma split_documents_skipped names d w :
  (∀ name, name ∈ names → processable (files w) name = false) →
  split_documents markdown d names w
  = (inr d, mk_world (files w) (stdout w ++ (diagnostic <$> names))).
Proof.
  revert w. induction names as [|name names IH]; intros w Hskip.
  - simpl. rewrite app_nil_r. by destruct w.
  - cbn [split_documents]. unfold mbind, io_bind, bind.
    rewrite split_document_skipped by (apply Hskip; by left).
    rewrite IH by (intros n Hn; apply Hskip; by right).
    cbn [files stdout]. rewrite fmap_cons, <-app_assoc. done.
Qed.

(** The directory of a processed document after [split]. *)
Lemma split_directory_lookup names w name content p text :
  name ∈ names →
  valid_name name = true →
  files w !! original_path_of name = Some content →
  under ("docs/" +:+ name) p = true →
  files (split markdown names w).2 !! p = Some text
  ↔ (p = index_path_of name ∧ text = guide_content name)
    ∨ (p ≠ index_path_of name
       ∧ (p, text) ∈ (doc_output markdown name content).1).
Proof.
  intros Hin Hv Hsrc Hu.
  rewrite split_files_lookup.
  2:{ intros ->. by rewrite config_not_under in Hu. }
  rewrite (overlay_elem _ _ _ name content) by done.
  cbn [from_option id]. unfold doc_files.
  destruct (decide (p = index_path_of name)) as [->|Hne].
  - rewrite lookup_insert_eq. split.
    + intros [= <-]. by left.
    + intros [[_ ->]|[? _]]; done.
  - rewrite lookup_insert_ne by done. rewrite map_filter_empty.
    rewrite (put_files_lookup_iff _ ∅) by apply file_structure_distinct.
    split; [by right|]. by intros [[? _]|[_ ?]].
Qed.

End run_results.

(** X9. [split] changes no path outside [docs/]: the sources in
    [original/], the template of the configuration and every other file
    are, after the run, what they were before it, whatever the names and
    whether the run returns or raises. *)
Theorem split_keeps_inputs (markdown : string → list block)
    (names : list string) (w : world) (p : string) :
  startswith "docs/" p = false →
  files (split markdown names w).2 !! p = files w !! p.
Proof.
  intros Hp. rewrite split_files_lookup.
  - rewrite overlay_outside; [done|]. intros name _ _.
    apply not_true_is_false. intros Hu%under_docs. congruence.
  - intros ->. done.
Qed.

Lemma split_keeps_inputs_witness :
  startswith "docs/" "original/oj.md" = false
  ∧ files (split (λ _, basics_ast) ["oj"; "x/y"] sample_world).2
      !! "original/oj.md"
    = files sample_world !! "original/oj.md".
Proof.
  split; [reflexivity|].
  apply (split_keeps_inputs (λ _, basics_ast) ["oj"; "x/y"] sample_world
           "original/oj.md").
  reflexivity.
Defined.

(** X10. After [split], the directory of a processed document holds exactly
    the landing page and the files of the sections of that document: a path
    in [docs/{name}/] holds a text if and only if it is [index.md] with the
    fixed text of the landing page, or another path that the splitter wrote
    with that text.  Nothing older is left there, no other document of the
    run has written there, and a section file at the path of the landing
    page is overwritten by it. *)
Theorem processed_directory (markdown : string → list block)
    (names : list string) (w : world) (name content p text : string) :
  name ∈ names →
  valid_name name = true →
  files w !! original_path_of name = Some content →
  under ("docs/" +:+ name) p = true →
  files (split markdown names w).2 !! p = Some text
  ↔ (p = index_path_of name ∧ text = guide_content name)
    ∨ (p ≠ index_path_of name
       ∧ (p, text) ∈ (doc_output markdown name content).1).
Proof. apply split_directory_lookup. Qed.

Lemma processed_directory_witness :
  files (split (λ _, basics_ast) ["oj"; "x/y"] sample_world).2
    !! "docs/oj/index.md"
  = Some (guide_content "oj").
Proof.
  apply (processed_directory (λ _, basics_ast) ["oj"; "x/y"] sample_world
           "oj" basics_doc "docs/oj/index.md" (guide_content "oj")).
  - by left.
  - reflexivity.
  - reflexivity.
  - reflexivity.
  - left. split; reflexivity.
Defined.

(** X11. The dictionary that [split] builds, when the run returns: its keys
    are the processable names in the order of their first occurrence among
    the names, so no key is repeated and the keys are a subsequence of the
    names; the value of a key is the structure of the document of that
    name, computed from the source as the run found it. *)
Theorem split_dictionary (markdown : string → list block)
    (names : list string) (w : world) (d : list (string * list nav_entry)) :
  (split markdown names w).1 = inr d →
  d.*1 = first_occurrences []
           (filter (λ name, processable (files w) name = true) names)
  ∧ NoDup d.*1
  ∧ d.*1 `sublist_of` names
  ∧ ∀ name structure,
      (name, structure) ∈ d →
      ∃ content,
        files w !! original_path_of name = Some content
        ∧ structure = (doc_output markdown name content).2.
Proof.
  intros Hd. rewrite (proj1 (split_pure markdown names w)) in Hd.
  assert ((documents_result markdown [] (files w) names).1 = d) as <-.
  { unfold split_result in Hd.
    destruct (documents_result markdown [] (files w) names) as [d' fs'].
    destruct d' as [|entry d']; [by simplify_eq/=|].
    destruct (fs' !! template_path); by simplify_eq/=. }
  destruct (documents_result_dictionary markdown names [] (files w) (files w)
              (λ x, ∃ content,
                 files w !! original_path_of x.1 = Some content
                 ∧ x.2 = (doc_output markdown x.1 content).2))
    as (H1 & H2 & (l & H3 & Hl) & H4).
  - done.
  - constructor.
  - intros x Hx. by apply elem_of_nil in Hx.
  - intros name content _ Hsrc. by exists content.
  - split_and!; [done|done|by rewrite H3|].
    intros name structure Hin. apply (H4 _ Hin).
Qed.

Lemma split_dictionary_witness :
  ∃ d, (split (λ _, basics_ast) ["oj"; "x/y"; "oj"] site_world).1 = inr d
       ∧ d.*1 = ["oj"].
Proof.
  destruct (split (λ _, basics_ast) ["oj"; "x/y"; "oj"] site_world).1
    as [e|d] eqn:E; [by vm_compute in E|].
  exists d. split; [done|].
  rewrite (proj1 (split_dictionary (λ _, basics_ast) ["oj"; "x/y"; "oj"]
                    site_world d E)).
  by vm_compute.
Defined.

(** X12. When no name is processable, [split] writes nothing and generates
    no configuration: it returns the empty dictionary, leaves every file as
    it was, the template is not read, and the output is one diagnostic a
    name, in order, then the last line. *)
Theorem nothing_to_process (markdown : string → list block)
    (names : list string) (w : world) :
  (∀ name, name ∈ names → processable (files w) name = false) →
  split markdown names w
  = (inr [], mk_world (files w)
               (stdout w ++ (diagnostic <$> names) ++ ["Done!"])).
Proof.
  intros Hskip. unfold split, mbind, io_bind, bind.
  rewrite split_documents_skipped by done.
  unfold print, ret. cbn [files stdout]. by rewrite <-app_assoc.
Qed.

Lemma nothing_to_process_witness :
  split (λ _, basics_ast) ["x/y"; "cf"] sample_world
  = (inr [], mk_world (files sample_world)
               (stdout sample_world
                ++ (diagnostic <$> ["x/y"; "cf"]) ++ ["Done!"])).
Proof.
  apply (nothing_to_process (λ _, basics_ast) ["x/y"; "cf"] sample_world).
  intros name [->|[->|H]%elem_of_cons]%elem_of_cons.
  - reflexivity.
  - reflexivity.
  - by apply elem_of_nil in H.
Defined.

(** X13. When a document is processed and the template of the configuration
    is missing, [split] raises [FileNotFoundError] for the template after
    the documents have been written: the landing page of the document is in
    place and the configuration file is what it was before the run. *)
Theorem missing_template (markdown : string → list block)
    (names : list string) (w : world) (name : string) :
  name ∈ names →
  processable (files w) name = true →
  files w !! template_path = None →
  (split markdown names w).1 = inl (FileNotFoundError template_path)
  ∧ files (split markdown names w).2 !! config_path
    = files w !! config_path
  ∧ files (split markdown names w).2 !! index_path_of name
    = Some (guide_content name).
Proof.
  intros Hin Hok Htempl.
  pose proof Hok as Hok'. unfold processable in Hok'.
  apply andb_true_iff in Hok' as [Hv Hsrc].
  apply bool_decide_eq_true in Hsrc as [content Hsrc].
  assert (index_path_of name ≠ config_path) as Hne.
  { intros Heq. pose proof (under_index_path name) as Hu.
    rewrite Heq in Hu. by rewrite config_not_under in Hu. }
  split_and!.
  - rewrite (proj1 (split_pure markdown names w)). unfold split_result.
    pose proof (documents_result_keys markdown names [] (files w) (files w)
                  name (λ _ _, eq_refl)) as Hkeys.
    pose proof (documents_result_same_inputs markdown names [] (files w))
      as Hsame.
    destruct (documents_result markdown [] (files w) names) as [d fs'].
    cbn [fst snd] in *.
    destruct d as [|entry d].
    { exfalso. assert (name ∈ ([] : list (string * list nav_entry)).*1) as H.
      { apply Hkeys. by right. }
      by apply elem_of_nil in H. }
    rewrite (Hsame template_path) by done. by rewrite Htempl.
  - rewrite (proj2 (split_pure markdown names w)). unfold split_result.
    pose proof (documents_result_lookup markdown names [] (files w)
                  config_path) as Hl.
    pose proof (documents_result_same_inputs markdown names [] (files w))
      as Hsame.
    destruct (documents_result markdown [] (files w) names) as [d fs'].
    cbn [fst snd] in *.
    rewrite config_outside in Hl. cbn in Hl.
    destruct d as [|entry d]; [done|].
    rewrite (Hsame template_path) by done. by rewrite Htempl.
  - rewrite split_files_lookup by done.
    rewrite (overlay_elem markdown _ _ _ name content)
      by auto using under_index_path.
    cbn [from_option id]. unfold doc_files. by rewrite lookup_insert_eq.
Qed.

Lemma missing_template_witness :
  (split (λ _, basics_ast) ["oj"] bare_world).1
  = inl (FileNotFoundError template_path).
Proof.
  apply (missing_template (λ _, basics_ast) ["oj"] bare_world "oj").
  - by left.
  - reflexivity.
  - reflexivity.
Defined.

(** ** The configuration file *)

Section configuration.
Implicit Types (old new s pre post : string).

Lemma length_app (a b : string) :
  String.length (a +:+ b) = String.length a + String.length b.
Proof.
  induction a as [|c a IH]; [by rewrite string_app_empty_l|].
  rewrite string_app_cons. simpl. by rewrite IH.
Qed.

Lemma drop_chars_app (a b : string) : drop_chars (String.length a) (a +:+ b) = b.
Proof.
  induction a as [|c a IH]; [by rewrite string_app_empty_l|].
  rewrite string_app_cons. done.
Qed.

Lemma replace_go_absent fuel old new s :
  contains old s = false → replace_go fuel old new s = s.
Proof.
  revert s. induction fuel as [|fuel IH]; intros s Hs; [done|].
  cbn [replace_go]. destruct s as [|c s]; simpl in Hs.
  - apply orb_false_iff in Hs as [-> _]. done.
  - apply orb_false_iff in Hs as [-> Hs]. by rewrite IH.
Qed.

Lemma replace_go_first fuel old new pre post :
  old ≠ "" →
  String.length (pre +:+ old +:+ post) < fuel →
  absent_before old (pre +:+ old +:+ post) (String.length pre) →
  replace_go fuel old new (pre +:+ old +:+ post)
  = pre +:+ new +:+ replace old new post.
Proof.
  intros Hold. revert fuel.
  induction pre as [|c pre IH]; intros [|fuel] Hfuel Habs; try lia.
  - rewrite !string_app_empty_l in *. cbn [replace_go].
    rewrite startswith_self_app, drop_chars_app. f_equal.
    unfold replace. apply replace_go_fuel; [done| |lia].
    rewrite length_app in Hfuel. destruct old; [done|]. simpl in Hfuel. lia.
  - rewrite !string_app_cons in *. cbn [replace_go].
    pose proof (Habs 0) as H0.
    cbn [drop_chars] in H0. rewrite H0 by (simpl; lia).
    f_equal. apply IH.
    + simpl in Hfuel. lia.
    + intros i Hi. apply (Habs (S i)). simpl. lia.
Qed.

Lemma replace_first old new pre post :
  old ≠ "" →
  absent_before old (pre +:+ old +:+ post) (String.length pre) →
  replace old new (pre +:+ old +:+ post)
  = pre +:+ new +:+ replace old new post.
Proof.
  intros Hold Habs. unfold replace at 1. apply replace_go_first; [done|lia|done].
Qed.

End configuration.

(** X14. [update_config_file] splices the configuration into the template.
    Without a template it raises [FileNotFoundError] and changes nothing.
    With one, and when the directory of the configuration file exists, it
    writes the configuration file and nothing else: the text written is the
    template itself when the marker does not occur in it; when the marker
    occurs first after [pre], it is [pre], the generated configuration as
    it is, without looking for the marker inside it, and what the
    replacement gives for the rest of the template. *)
Theorem config_is_spliced_template (sidebar_config : string) (w : world) :
  (files w !! template_path = None →
   update_config_file sidebar_config w
   = (inl (FileNotFoundError template_path), w))
  ∧ (∀ template,
       files w !! template_path = Some template →
       has_directory w config_directory →
       ∃ updated,
         update_config_file sidebar_config w
         = (inr (), mk_world (<[config_path := updated]> (files w)) (stdout w))
         ∧ (contains sidebar_marker template = false → updated = template)
         ∧ ∀ pre post,
             template = pre +:+ sidebar_marker +:+ post →
             absent_before sidebar_marker template (String.length pre) →
             updated
             = pre +:+ sidebar_config
               +:+ replace sidebar_marker sidebar_config post).
Proof.
  unfold update_config_file, mbind, io_bind, bind, read_file, write_file.
  fold template_path config_path sidebar_marker.
  split.
  - by intros ->.
  - intros template -> _. eexists. split_and!; [done| |].
    + intros Habs. by apply replace_go_absent.
    + intros pre post -> Habs. by apply replace_first.
Qed.

Lemma config_is_spliced_template_witness :
  update_config_file "'/oj': {}" site_world
  = (inr (), mk_world (<[config_path := "sidebar: { '/oj': {} }"]>
                         (files site_world)) (stdout site_world)).
Proof.
  destruct (proj2 (config_is_spliced_template "'/oj': {}" site_world)
              "sidebar: { // template: sidebar }")
    as (updated & -> & _ & H).
  - reflexivity.
  - reflexivity.
  - rewrite (H "sidebar: { " " }"); [reflexivity|reflexivity|].
    intros i Hi.
    do 11 (destruct i as [|i]; [reflexivity|]). simpl in Hi. lia.
Defined.

(** ** The downloader *)

Section fetching.
Variable get : string → option string → option response.
Implicit Types (w : world) (fs : gmap string string) (p url : string)
  (a b : Config.Answer) (answers : list Config.Answer).

Lemma app_inj_r (a1 a2 c : string) : a1 +:+ c = a2 +:+ c → a1 = a2.
Proof.
  revert a2. induction a1 as [|x a1 IH]; intros [|y a2] H.
  - done.
  - apply (f_equal String.length) in H.
    rewrite string_app_empty_l, length_app in H. simpl in H. lia.
  - apply (f_equal String.length) in H.
    rewrite string_app_empty_l, length_app in H. simpl in H. lia.
  - rewrite !string_app_cons in H. injection H as -> H. f_equal. by apply IH.
Qed.

Lemma original_path_inj name1 name2 :
  original_path_of name1 = original_path_of name2 → name1 = name2.
Proof.
  unfold original_path_of. intros H. apply String.app_inj in H.
  by apply app_inj_r in H.
Qed.

Lemma etag_path_inj name1 name2 :
  etag_path_of name1 = etag_path_of name2 → name1 = name2.
Proof. unfold etag_path_of. apply String.app_inj. Qed.

Lemma etag_not_original name1 name2 :
  etag_path_of name1 ≠ original_path_of name2.
Proof. done. Qed.

Lemma original_not_etag name1 name2 :
  original_path_of name1 ≠ etag_path_of name2.
Proof. done. Qed.

Lemma contains_app (a p b : string) : contains p (a +:+ p +:+ b) = true.
Proof.
  induction a as [|c a IH].
  - rewrite string_app_empty_l. destruct (p +:+ b) eqn:E; simpl;
      rewrite <-?E; by rewrite startswith_self_app.
  - rewrite string_app_cons. simpl. rewrite IH. by rewrite orb_true_r.
Qed.

Lemma tag_path_directory dir name : contains "/" (tag_path dir name) = true.
Proof. apply contains_app. Qed.

Lemma etag_path_directory name : contains "/" (etag_path_of name) = true.
Proof. apply (contains_app "etag" "/" name). Qed.

(** [sync_github] in terms of the header it sends, for a tag path with a
    directory part. *)
Lemma sync_github_fetch url p w :
  contains "/" p = true →
  sync_github get url p w
  = match get url (request_header (files w) p) with
    | Some resp =>
        if not_modified resp then (inr ((-1)%Z, ""), w)
        else if is_new resp
        then (inr (0%Z, resp_text resp),
              mk_world (store_etag p resp (files w)) (stdout w))
        else (inl (HTTPError (status_code resp)), w)
    | None => (inl RequestException, w)
    end.
Proof.
  intros Hdir.
  unfold sync_github, request_header, not_modified, is_new, store_etag,
    store_tag, write_text. rewrite Hdir.
  destruct (get url _) as [resp|]; [|done].
  destruct (status_code resp =? 304)%Z; [done|].
  destruct (status_code resp =? 200)%Z; [|done].
  destruct (header_etag resp) as [etag|]; [|by destruct w].
  destruct (decide (etag = "")); [by destruct w|done].
Qed.

(** A tag path without a directory part: new content with a tag raises at
    [os.makedirs], every other answer is handled as usual. *)
Lemma sync_github_no_directory url p w resp etag :
  contains "/" p = false →
  get url (request_header (files w) p) = Some resp →
  is_new resp = true → header_etag resp = Some etag → etag ≠ "" →
  sync_github get url p w = (inl (FileError (FileNotFoundError "")), w).
Proof.
  intros Hdir Hget Hnew Htag Hne.
  unfold sync_github, store_tag. fold (request_header (files w) p).
  rewrite Hget, Hdir, Htag.
  assert ((status_code resp =? 304)%Z = false) as ->.
  { unfold is_new in Hnew. lia. }
  unfold is_new in Hnew. rewrite Hnew. by rewrite decide_False by done.
Qed.

Lemma store_etag_lookup_ne p q resp fs :
  q ≠ p → store_etag p resp fs !! q = fs !! q.
Proof.
  intros Hne. unfold store_etag. destruct (header_etag resp) as [e|]; [|done].
  destruct (decide (e = "")); [done|]. by rewrite lookup_insert_ne.
Qed.

(** A turn of the loop changes the source and the tag of its document
    only. *)
Lemma downloaded_lookup_ne fs0 fs a q :
  q ≠ original_path_of (Config.name a) → q ≠ etag_path_of (Config.name a) →
  downloaded get fs0 fs a !! q = fs !! q.
Proof.
  intros H1 H2. unfold downloaded.
  destruct (fetched get fs0 a) as [resp|]; [|done].
  destruct (is_new resp); [|done].
  rewrite lookup_insert_ne by done. by apply store_etag_lookup_ne.
Qed.

Lemma foldl_downloaded_lookup_ne fs0 fs answers q :
  (∀ a, a ∈ answers →
        q ≠ original_path_of (Config.name a)
        ∧ q ≠ etag_path_of (Config.name a)) →
  foldl (downloaded get fs0) fs answers !! q = fs !! q.
Proof.
  revert fs. induction answers as [|a answers IH]; intros fs H; [done|].
  cbn [foldl]. rewrite IH by (intros b Hb; apply H; by right).
  destruct (H a) as [H1 H2]; [by left|]. by apply downloaded_lookup_ne.
Qed.

(** The files of a document after the loop are those that its own turn
    leaves, when no other answer has its name. *)
Lemma foldl_downloaded_lookup fs0 fs answers a q :
  NoDup (Config.name <$> answers) → a ∈ answers →
  q = original_path_of (Config.name a) ∨ q = etag_path_of (Config.name a) →
  foldl (downloaded get fs0) fs answers !! q = downloaded get fs0 fs a !! q.
Proof.
  revert fs. induction answers as [|b answers IH]; intros fs Hnd Hin Hq.
  { by apply elem_of_nil in Hin. }
  rewrite fmap_cons in Hnd. apply NoDup_cons in Hnd as [Hb Hnd].
  cbn [foldl]. apply elem_of_cons in Hin as [->|Hin].
  - apply foldl_downloaded_lookup_ne. intros c Hc.
    assert (Config.name c ≠ Config.name b) as Hne.
    { intros Heq. apply Hb. rewrite <-Heq. by apply list_elem_of_fmap_2. }
    destruct Hq as [->| ->]; split; intros Heq.
    + by apply original_path_inj in Heq.
    + by apply (etag_not_original (Config.name c) (Config.name b)).
    + by apply (etag_not_original (Config.name b) (Config.name c)).
    + by apply etag_path_inj in Heq.
  - rewrite IH by done.
    assert (Config.name a ≠ Config.name b) as Hne.
    { intros Heq. apply Hb. rewrite <-Heq. by apply list_elem_of_fmap_2. }
    assert (q ≠ original_path_of (Config.name b)
            ∧ q ≠ etag_path_of (Config.name b)) as [Hq1 Hq2].
    { destruct Hq as [->| ->]; split; intros Heq.
      - by apply original_path_inj in Heq.
      - by apply (etag_not_original (Config.name b) (Config.name a)).
      - by apply (etag_not_original (Config.name a) (Config.name b)).
      - by apply etag_path_inj in Heq. }
    unfold downloaded at 1 3.
    destruct (fetched get fs0 a) as [resp|];
      [|by apply downloaded_lookup_ne].
    destruct (is_new resp); [|by apply downloaded_lookup_ne].
    destruct Hq as [->| ->].
    + by rewrite !lookup_insert_eq.
    + rewrite !lookup_insert_ne by apply original_not_etag.
      unfold store_etag. destruct (header_etag resp) as [e|];
        [|by apply downloaded_lookup_ne].
      destruct (decide (e = "")); [by apply downloaded_lookup_ne|].
      by rewrite !lookup_insert_eq.
Qed.

Lemma request_header_agree fs1 fs2 p :
  fs1 !! p = fs2 !! p → request_header fs1 p = request_header fs2 p.
Proof. unfold request_header. by intros ->. Qed.

(** One turn of the loop of [main] whose request is answered. *)
Lemma main_loop_step fs0 a answers changed w :
  files w !! etag_path_of (Config.name a) = fs0 !! etag_path_of (Config.name a) →
  answered get fs0 a = true →
  main_loop get (a :: answers) changed w
  = main_loop get answers
      (changed + if has_new get fs0 a then 1 else 0)%Z
      (mk_world (downloaded get fs0 (files w) a) (stdout w)).
Proof.
  intros Hagree Hok. cbn [main_loop].
  rewrite sync_github_fetch by apply etag_path_directory.
  fold (etag_path_of (Config.name a)).
  fold (original_path_of (Config.name a)).
  rewrite (request_header_agree (files w) fs0) by done.
  unfold answered, has_new, downloaded, fetched in *.
  destruct (get (Config.url a) _) as [resp|]; [|done].
  destruct (not_modified resp) eqn:H304.
  - assert (is_new resp = false) as ->.
    { unfold is_new, not_modified in *. lia. }
    cbn [Z.eqb]. rewrite Z.add_0_r. by destruct w.
  - rewrite orb_false_r in Hok. rewrite Hok. done.
Qed.

(** A turn leaves the tags of the documents of other names as they were. *)
Lemma downloaded_agree fs0 fs a b :
  Config.name b ≠ Config.name a →
  downloaded get fs0 fs a !! etag_path_of (Config.name b)
  = fs !! etag_path_of (Config.name b).
Proof.
  intros Hne. apply downloaded_lookup_ne.
  - apply etag_not_original.
  - by intros Heq%etag_path_inj.
Qed.

(** The loop of [main] over answers with different names, from files that
    hold the tags that [fs0] holds: every request is the one that [fs0]
    gives, and the loop runs through while the requests are answered. *)
Lemma main_loop_run fs0 answers changed w :
  NoDup (Config.name <$> answers) →
  (∀ a, a ∈ answers →
        files w !! etag_path_of (Config.name a)
        = fs0 !! etag_path_of (Config.name a)) →
  (∀ a, a ∈ answers → answered get fs0 a = true) →
  main_loop get answers changed w
  = (inr (changed + Z.of_nat (length (filter (λ a, has_new get fs0 a = true)
                                        answers)))%Z,
     mk_world (foldl (downloaded get fs0) (files w) answers) (stdout w)).
Proof.
  revert changed w. induction answers as [|a answers IH];
    intros changed w Hnd Hagree Hans.
  { cbn. rewrite Z.add_0_r. by destruct w. }
  rewrite fmap_cons in Hnd. apply NoDup_cons in Hnd as [Ha Hnd].
  rewrite (main_loop_step fs0) by (by apply Hagree || apply Hans; left).
  rewrite IH; [|done| |].
  - cbn [files stdout foldl]. rewrite filter_cons.
    destruct (has_new get fs0 a).
    + rewrite decide_True by done. cbn [length]. f_equal. f_equal. lia.
    + rewrite decide_False by done. f_equal. f_equal. lia.
  - intros b Hb. cbn [files]. rewrite downloaded_agree.
    + apply Hagree. by right.
    + intros Heq. apply Ha. rewrite <-Heq. by apply list_elem_of_fmap_2.
  - intros b Hb. apply Hans. by right.
Qed.

(** The loop stops at the first request that is not answered, with the
    files that the turns before it left. *)
Lemma main_loop_stops fs0 before a after changed w :
  NoDup (Config.name <$> before ++ [a]) →
  (∀ b, b ∈ before ++ [a] →
        files w !! etag_path_of (Config.name b)
        = fs0 !! etag_path_of (Config.name b)) →
  (∀ b, b ∈ before → answered get fs0 b = true) →
  answered get fs0 a = false →
  main_loop get (before ++ a :: after) changed w
  = (inl (failure_of (fetched get fs0 a)),
     mk_world (foldl (downloaded get fs0) (files w) before) (stdout w)).
Proof.
  revert changed w. induction before as [|b before IH];
    intros changed w Hnd Hagree Hans Hfail.
  - cbn [app main_loop foldl].
    rewrite sync_github_fetch by apply etag_path_directory.
    fold (etag_path_of (Config.name a)).
    rewrite (request_header_agree (files w) fs0) by (apply Hagree; by left).
    unfold answered, fetched in *.
    destruct (get (Config.url a) _) as [resp|]; [|by destruct w].
    apply orb_false_iff in Hfail as [-> ->]. by destruct w.
  - rewrite <-app_comm_cons in *. rewrite fmap_cons in Hnd.
    apply NoDup_cons in Hnd as [Hb Hnd].
    rewrite (main_loop_step fs0) by (by apply Hagree || apply Hans; left).
    rewrite IH; [done|done| |..].
    + intros c Hc. cbn [files]. rewrite downloaded_agree.
      * apply Hagree. by right.
      * intros Heq. apply Hb. rewrite <-Heq. by apply list_elem_of_fmap_2.
    + intros c Hc. apply Hans. by right.
    + done.
Qed.

(** The source of a document after its turn. *)
Lemma downloaded_original fs0 fs a :
  downloaded get fs0 fs a !! original_path_of (Config.name a)
  = match fetched get fs0 a with
    | Some resp =>
        if is_new resp then Some (universal_newlines false (resp_text resp))
        else fs !! original_path_of (Config.name a)
    | None => fs !! original_path_of (Config.name a)
    end.
Proof.
  unfold downloaded. destruct (fetched get fs0 a) as [resp|]; [|done].
  destruct (is_new resp); [|done]. by rewrite lookup_insert_eq.
Qed.

(** The tag of a document after its turn. *)
Lemma downloaded_etag fs0 fs a :
  downloaded get fs0 fs a !! etag_path_of (Config.name a)
  = match fetched get fs0 a with
    | Some resp =>
        if is_new resp
        then store_etag (etag_path_of (Config.name a)) resp fs
             !! etag_path_of (Config.name a)
        else fs !! etag_path_of (Config.name a)
    | None => fs !! etag_path_of (Config.name a)
    end.
Proof.
  unfold downloaded. destruct (fetched get fs0 a) as [resp|]; [|done].
  destruct (is_new resp); [|done].
  by rewrite lookup_insert_ne by apply original_not_etag.
Qed.

Lemma strip_empty : strip is_space "" = "".
Proof. done. Qed.

End fetching.

(** X15. The conditional request of [sync_github] works across two calls,
    for a tag path [{dir}/{name}] with the name of a document and tags in
    ASCII.  When a call gets new content with a tag, it returns the content
    with the code 0 and stores the tag; the next call for the same tag file
    sends that tag, without the white space around it, and when the server
    then answers not modified it returns the code -1 with no content and
    changes nothing. *)
Theorem not_modified_round_trip
    (get1 get2 : string → option string → option response)
    (url dir name : string) (w : world) (resp1 resp2 : response)
    (etag : string) :
  let etag_path := tag_path dir name in
  let sent := strip is_space (universal_newlines false etag) in
  let run1 := sync_github get1 url etag_path w in
  valid_name name = true →
  ascii_tag (files w) etag_path →
  get1 url (request_header (files w) etag_path) = Some resp1 →
  is_new resp1 = true →
  header_etag resp1 = Some etag →
  is_ascii etag = true →
  sent ≠ "" →
  get2 url (Some sent) = Some resp2 →
  not_modified resp2 = true →
  run1.1 = inr (0%Z, resp_text resp1)
  ∧ files run1.2 = <[etag_path := universal_newlines false etag]> (files w)
  ∧ stdout run1.2 = stdout w
  ∧ sync_github get2 url etag_path run1.2 = (inr ((-1)%Z, ""), run1.2).
Proof.
  intros etag_path sent run1 _ _ Hget1 Hnew Htag _ Hsent Hget2 H304.
  assert (contains "/" etag_path = true) as Hdir by apply tag_path_directory.
  assert (etag ≠ "") as Hne by (by intros ->).
  assert (run1 = (inr (0%Z, resp_text resp1),
                  mk_world (<[etag_path := universal_newlines false etag]>
                              (files w)) (stdout w))) as ->.
  { unfold run1. rewrite sync_github_fetch, Hget1 by done.
    assert (not_modified resp1 = false) as ->.
    { unfold is_new, not_modified in *. lia. }
    rewrite Hnew. unfold store_etag. rewrite Htag.
    by rewrite decide_False by done. }
  cbn [fst snd files stdout]. split_and!; try done.
  rewrite sync_github_fetch by done. cbn [files].
  unfold request_header. rewrite lookup_insert_eq. cbn zeta.
  fold sent. rewrite decide_False by done. by rewrite Hget2, H304.
Qed.

Lemma not_modified_round_trip_witness :
  sync_github sample_get "u" "etag/oj"
    (sync_github sample_get "u" "etag/oj" empty_world).2
  = (inr ((-1)%Z, ""), (sync_github sample_get "u" "etag/oj" empty_world).2).
Proof.
  apply (not_modified_round_trip sample_get sample_get "u" "etag" "oj"
           empty_world (mk_response 200 (Some "W/tag1") basics_doc)
           (mk_response 304 None "") "W/tag1").
  - reflexivity.
  - intros content H. discriminate H.
  - reflexivity.
  - reflexivity.
  - reflexivity.
  - reflexivity.
  - intros H. vm_compute in H. discriminate H.
  - reflexivity.
  - reflexivity.
Defined.

(** X16. What [sync_github] leaves alone, for a tag path [{dir}/{name}]
    with the name of a document and a stored tag in ASCII.  It prints nothing and changes no file but
    the tag file.  It returns the code 0 or the code -1, the latter with no
    content.  When it raises, or returns the code -1, nothing has changed;
    it raises when the request fails or is answered by a status other than
    200 and 304, with that status.  For a tag path without any directory
    part it also raises, [FileNotFoundError] from [os.makedirs], when new
    content comes with a tag, and then too nothing has changed. *)
Theorem sync_github_frame
    (get : string → option string → option response)
    (url dir name : string) (w : world) :
  let etag_path := tag_path dir name in
  let run := sync_github get url etag_path w in
  let answer := get url (request_header (files w) etag_path) in
  valid_name name = true →
  ascii_tag (files w) etag_path →
  stdout run.2 = stdout w
  ∧ (∀ p, p ≠ etag_path → files run.2 !! p = files w !! p)
  ∧ (∀ ret content,
       run.1 = inr (ret, content) →
       (ret = 0%Z ∧ ∃ resp, answer = Some resp ∧ is_new resp = true
                            ∧ content = resp_text resp)
       ∨ (ret = (-1)%Z ∧ content = "" ∧ run.2 = w
          ∧ ∃ resp, answer = Some resp ∧ not_modified resp = true))
  ∧ (∀ e, run.1 = inl e →
          e = failure_of answer ∧ run.2 = w
          ∧ ∀ resp, answer = Some resp →
                    is_new resp = false ∧ not_modified resp = false)
  ∧ (∀ path resp etag,
       contains "/" path = false →
       ascii_tag (files w) path →
       get url (request_header (files w) path) = Some resp →
       is_new resp = true → header_etag resp = Some etag → etag ≠ "" →
       sync_github get url path w
       = (inl (FileError (FileNotFoundError "")), w)).
Proof.
  intros etag_path run answer _ _. unfold run.
  rewrite sync_github_fetch by apply tag_path_directory. fold answer.
  split_and!.
  5:{ intros path resp etag Hdir _. by apply sync_github_no_directory. }
  all: destruct answer as [resp|];
    [destruct (not_modified resp) eqn:H304;
     [|destruct (is_new resp) eqn:H200]|];
    cbn [fst snd files stdout]; try done.
  - intros p Hp. by apply store_etag_lookup_ne.
  - intros ret content [= <- <-]. right. split_and!; try done. by exists resp.
  - intros ret content [= <- <-]. left. split; [done|]. by exists resp.
  - intros e [= <-]. split_and!; try done. by intros ? [= <-].
  - intros e [= <-]. done.
Qed.

Lemma sync_github_frame_witness :
  stdout (sync_github sample_get "u" "etag/oj" empty_world).2 = []
  ∧ sync_github sample_get "u" "oj" empty_world
    = (inl (FileError (FileNotFoundError "")), empty_world).
Proof.
  destruct (sync_github_frame sample_get "u" "etag" "oj" empty_world)
    as (Hout & _ & _ & _ & Hraise).
  - reflexivity.
  - intros content H. discriminate H.
  - split; [exact Hout|].
    apply (Hraise "oj" (mk_response 200 (Some "W/tag1") basics_doc) "W/tag1");
      try reflexivity.
    + intros content H. discriminate H.
    + intros H. discriminate H.
Defined.

(** X17. [main] over answers of different names whose requests are all
    answered, by new content or by not modified.  It returns after one line
    of output, [true] when some document had new content and [false]
    otherwise.  Every request carries the tag that was stored before the
    run.  The source of a document with new content is the text of its
    response, as it will be read; the source of a document that was not
    modified is what it was.  Files that are neither the source nor the
    tag of an answer are not changed. *)
Theorem main_downloads (get : string → option string → option response)
    (answers : list Config.Answer) (w : world) :
  NoDup (Config.name <$> answers) →
  (∀ a, a ∈ answers → answered get (files w) a = true) →
  ∃ w',
    main_on get answers w = (inr (), w')
    ∧ stdout w'
      = stdout w ++ [if existsb (has_new get (files w)) answers
                     then "true" else "false"]
    ∧ (∀ a resp,
         a ∈ answers → fetched get (files w) a = Some resp →
         files w' !! original_path_of (Config.name a)
         = (if is_new resp
            then Some (universal_newlines false (resp_text resp))
            else files w !! original_path_of (Config.name a))
         ∧ files w' !! etag_path_of (Config.name a)
           = (if is_new resp
              then store_etag (etag_path_of (Config.name a)) resp (files w)
                   !! etag_path_of (Config.name a)
              else files w !! etag_path_of (Config.name a)))
    ∧ (∀ p,
         (∀ a, a ∈ answers →
               p ≠ original_path_of (Config.name a)
               ∧ p ≠ etag_path_of (Config.name a)) →
         files w' !! p = files w !! p).
Proof.
  intros Hnd Hans. unfold main_on.
  rewrite (main_loop_run get (files w)) by done.
  eexists. split; [done|]. cbn [files stdout]. split_and!.
  - f_equal. f_equal. rewrite Z.add_0_l.
    assert (∀ l, (Z.of_nat (length (filter (λ a, has_new get (files w) a = true) l))
                  =? 0)%Z
                 = negb (existsb (has_new get (files w)) l)) as H.
    { induction l as [|a l IH]; [done|]. rewrite filter_cons. cbn [existsb].
      destruct (has_new get (files w) a).
      - rewrite decide_True by done. cbn [length]. simpl. lia.
      - rewrite decide_False by done. by rewrite IH. }
    rewrite H. by destruct (existsb _ _).
  - intros a resp Hin Hresp. split.
    + rewrite (foldl_downloaded_lookup get _ _ _ a) by auto.
      by rewrite downloaded_original, Hresp.
    + rewrite (foldl_downloaded_lookup get _ _ _ a) by auto.
      by rewrite downloaded_etag, Hresp.
  - intros p Hp. by apply foldl_downloaded_lookup_ne.
Qed.

Lemma main_downloads_witness :
  ∃ w', main sample_get empty_world = (inr (), w')
        ∧ stdout w' = ["true"]
        ∧ files w' !! "original/cf.md" = Some basics_doc.
Proof.
  destruct (main_downloads sample_get Config.ANSWERS empty_world)
    as (w' & Hrun & Hout & Hfiles & _).
  - repeat constructor; set_solver.
  - intros a Ha. repeat (apply elem_of_cons in Ha as [->|Ha]); try reflexivity.
    all: by apply elem_of_nil in Ha.
  - exists w'. split_and!; [done|done|].
    refine (proj1 (Hfiles cf_answer
                     (mk_response 200 (Some "W/tag1") basics_doc) _ _)).
    + right. by left.
    + reflexivity.
Defined.

(** X18. [main] stops at the first request that is not answered.  When the
    answers before it have different names and are answered, it raises
    [HTTPError] with the status of the answer, or the exception of the
    request: nothing is printed, no later answer is requested, and the
    new sources of the answers before it stay written. *)
Theorem main_stops_at_failure
    (get : string → option string → option response)
    (before after : list Config.Answer) (a : Config.Answer) (w : world) :
  NoDup (Config.name <$> before ++ [a]) →
  (∀ b, b ∈ before → answered get (files w) b = true) →
  answered get (files w) a = false →
  ∃ w',
    main_on get (before ++ a :: after) w
    = (inl (failure_of (fetched get (files w) a)), w')
    ∧ stdout w' = stdout w
    ∧ (∀ b resp,
         b ∈ before → fetched get (files w) b = Some resp →
         is_new resp = true →
         files w' !! original_path_of (Config.name b)
         = Some (universal_newlines false (resp_text resp)))
    ∧ (∀ p,
         (∀ b, b ∈ before →
               p ≠ original_path_of (Config.name b)
               ∧ p ≠ etag_path_of (Config.name b)) →
         files w' !! p = files w !! p).
Proof.
  intros Hnd Hans Hfail. unfold main_on.
  rewrite (main_loop_stops get (files w)) by done.
  eexists. split; [done|]. cbn [files stdout]. split_and!; [done| |].
  - intros b resp Hin Hresp Hnew.
    rewrite fmap_app in Hnd. apply NoDup_app in Hnd as (Hnd & _ & _).
    rewrite (foldl_downloaded_lookup get _ _ _ b) by auto.
    by rewrite downloaded_original, Hresp, Hnew.
  - intros p Hp. by apply foldl_downloaded_lookup_ne.
Qed.

Lemma main_stops_at_failure_witness :
  ∃ w', main_on sample_get
          [Config.mk_answer "oj" "u1"; Config.mk_answer "cf" "u2"]
          (mk_world {[ "etag/cf" := "old" ]} [])
        = (inl (HTTPError 500), w')
        ∧ stdout w' = [].
Proof.
  destruct (main_stops_at_failure sample_get [Config.mk_answer "oj" "u1"] []
              (Config.mk_answer "cf" "u2")
              (mk_world {[ "etag/cf" := "old" ]} []))
    as (w' & Hrun & Hout & _).
  - repeat constructor; set_solver.
  - intros b ->%list_elem_of_singleton. reflexivity.
  - reflexivity.
  - exists w'. split; [exact Hrun|exact Hout].
Defined.

(** X19. The splitter works on what the downloader fetched.  After [main]
    has returned, [split] on the names of the answers processes every
    answer with new content whose name is valid from the text of its
    response: the directory of the document holds the landing page and the
    files that the splitter writes for that text, and nothing else. *)
Theorem fetched_document_is_split
    (markdown : string → list block)
    (get : string → option string → option response)
    (answers : list Config.Answer) (w : world) (a : Config.Answer)
    (resp : response) (p text : string) :
  let name := Config.name a in
  let content := universal_newlines false (resp_text resp) in
  let w1 := (main_on get answers w).2 in
  NoDup (Config.name <$> answers) →
  (∀ b, b ∈ answers → answered get (files w) b = true) →
  a ∈ answers →
  valid_name name = true →
  fetched get (files w) a = Some resp →
  is_new resp = true →
  under ("docs/" +:+ name) p = true →
  files (split markdown (Config.name <$> answers) w1).2 !! p = Some text
  ↔ (p = index_path_of name ∧ text = guide_content name)
    ∨ (p ≠ index_path_of name
       ∧ (p, text) ∈ (doc_output markdown name content).1).
Proof.
  intros name content w1 Hnd Hans Hin Hv Hresp Hnew Hu.
  apply split_directory_lookup; [by apply list_elem_of_fmap_2|done| |done].
  unfold w1, name, content, main_on.
  rewrite (main_loop_run get (files w)) by done. cbn [snd files].
  rewrite (foldl_downloaded_lookup get _ _ _ a) by auto.
  by rewrite downloaded_original, Hresp, Hnew.
Qed.

Lemma fetched_document_is_split_witness :
  files (split_main (λ _, basics_ast) (main sample_get empty_world).2).2
    !! "docs/cf/index.md"
  = Some (guide_content "cf").
Proof.
  apply (fetched_document_is_split (λ _, basics_ast) sample_get
           Config.ANSWERS empty_world cf_answer
           (mk_response 200 (Some "W/tag1") basics_doc)
           "docs/cf/index.md" (guide_content "cf")).
  - repeat constructor; set_solver.
  - intros b Hb. repeat (apply elem_of_cons in Hb as [->|Hb]); try reflexivity.
    all: by apply elem_of_nil in Hb.
  - right. by left.
  - reflexivity.
  - reflexivity.
  - reflexivity.
  - reflexivity.
  - left. split; reflexivity.
Defined.

(** ** Titles and coverage of the sidebar *)

Section sidebar.
Implicit Types (st : loop_state) (sec : section) (name : string)
  (sections : list section).

Lemma save_current_l1_titles st : text <$> save_current_l1 st = titles st.
Proof.
  unfold save_current_l1, titles.
  destruct (current_l1_name st) as [n|]; [|by rewrite app_nil_r].
  destruct (decide (n = "")); [by rewrite app_nil_r|].
  by rewrite fmap_app.
Qed.

Lemma default_l1_titles st :
  titles (default_l1 st)
  = titles st ++ match current_l1_name st with
                 | None => ["Content"]
                 | Some _ => []
                 end.
Proof.
  unfold default_l1, titles.
  destruct (current_l1_name st) as [n|] eqn:E; simpl; rewrite ?E;
    by rewrite ?app_nil_r.
Qed.

Lemma step_level2_titles name lines st sec :
  titles (step_level2 name lines st sec) = titles (default_l1 st)
  ∧ is_Some (current_l1_name (step_level2 name lines st sec)).
Proof.
  unfold step_level2.
  assert (is_Some (current_l1_name (default_l1 st))) as Hsome.
  { unfold default_l1. destruct (current_l1_name st) eqn:E; [|by eexists].
    rewrite E. by eexists. }
  destruct (current_l1_link (default_l1 st)); [done|].
  by destruct (heading_to_name _ _) as [fn u].
Qed.

Lemma step_level1_titles name lines st sec :
  titles (step_level1 name lines st sec)
  = titles st ++ (if decide (heading_text sec = "") then []
                  else [heading_text sec])
  ∧ is_Some (current_l1_name (step_level1 name lines st sec)).
Proof.
  unfold step_level1.
  destruct (is_too_long sec).
  - unfold titles at 1. cbn [sidebar_structure current_l1_name].
    by rewrite save_current_l1_titles.
  - destruct (heading_to_name _ _) as [fn u].
    unfold titles at 1. cbn [sidebar_structure current_l1_name].
    by rewrite save_current_l1_titles.
Qed.

Lemma run_sections_titles name lines st sections :
  titles (run_sections name lines st sections)
  = titles st
    ++ match current_l1_name st, leading_level sections with
       | None, Some 2 => ["Content"]
       | _, _ => []
       end
    ++ filter (λ t, t ≠ "")
         (heading_text <$> filter (λ sec, level sec = 1) sections).
Proof.
  unfold run_sections. revert st.
  induction sections as [|sec sections IH]; intros st.
  { cbn. destruct (current_l1_name st); by rewrite !app_nil_r. }
  cbn [foldl leading_level]. rewrite IH. rewrite filter_cons.
  unfold section_step.
  destruct (level sec =? 1) eqn:H1.
  - apply Nat.eqb_eq in H1. rewrite decide_True by done.
    destruct (step_level1_titles name lines st sec) as [-> [n ->]].
    rewrite fmap_cons, filter_cons. cbn [orb].
    rewrite H1. rewrite <-!app_assoc.
    destruct (current_l1_name st); cbn [app];
      by destruct (decide (heading_text sec = "")) as [->|?];
        [rewrite decide_False by (by intros [])|rewrite decide_True by done].
  - apply Nat.eqb_neq in H1. rewrite decide_False by done.
    destruct (level sec =? 2) eqn:H2; cbn [orb]; [|done].
    apply Nat.eqb_eq in H2.
    destruct (step_level2_titles name lines st sec) as [-> [n ->]].
    rewrite default_l1_titles, H2, <-app_assoc.
    by destruct (current_l1_name st).
Qed.

Lemma elem_of_structure_links_save st l :
  current_l1_name st ≠ Some "" →
  (current_l1_name st = None →
   current_l1_link st = None ∧ current_l1_items st = []) →
  l ∈ structure_links (sidebar_structure st)
  ∨ current_l1_link st = Some l
  ∨ l ∈ item_link <$> current_l1_items st →
  l ∈ structure_links (save_current_l1 st).
Proof.
  intros Hname Hnone Hl. unfold save_current_l1.
  destruct (current_l1_name st) as [n|].
  - rewrite decide_False by (by intros ->).
    apply elem_of_structure_links_app.
    destruct Hl as [Hl|Hl]; [by left|]. right.
    apply elem_of_entry_links. simpl. destruct Hl as [Hl|Hl]; [by left|].
    right. apply list_elem_of_fmap in Hl as (item & -> & Hitem). eauto.
  - destruct (Hnone eq_refl) as [Hlink Hitems].
    rewrite Hlink, Hitems in Hl. destruct Hl as [Hl|[Hl|Hl]]; [done|done|].
    by apply elem_of_nil in Hl.
Qed.

Lemma default_l1_covered st : covered st → covered (default_l1 st).
Proof.
  intros (Hname & Hnone & Hfiles). unfold default_l1.
  destruct (current_l1_name st) eqn:E; [by rewrite <-E in *|].
  destruct (Hnone eq_refl) as [Hlink Hitems].
  split_and!; simpl; [done|done|].
  intros p Hp. destruct (Hfiles p Hp) as (l & -> & Hl). exists l.
  split; [done|]. rewrite Hlink, Hitems in Hl. done.
Qed.

Lemma section_step_covered name lines st sec :
  (level sec = 1 → heading_text sec ≠ "") →
  covered st → covered (section_step name lines st sec).
Proof.
  intros Htitle Hst. unfold section_step.
  destruct (level sec =? 1) eqn:H1.
  - apply Nat.eqb_eq in H1. specialize (Htitle H1).
    destruct Hst as (Hname & Hnone & Hfiles). unfold step_level1.
    destruct (is_too_long sec).
    + split_and!; simpl; [by intros [=]|done|].
      intros p Hp. destruct (Hfiles p Hp) as (l & -> & Hl). exists l.
      split; [done|]. left. by apply elem_of_structure_links_save.
    + destruct (heading_to_name _ _) as [fn u].
      split_and!; simpl; [by intros [=]|done|].
      intros p Hp. rewrite fmap_app in Hp.
      apply elem_of_app in Hp as [Hp|Hp].
      * destruct (Hfiles p Hp) as (l & -> & Hl). exists l.
        split; [done|]. left. by apply elem_of_structure_links_save.
      * apply list_elem_of_singleton in Hp as ->. simpl.
        exists (link_of name fn). split; [by rewrite path_of_link_of|].
        right. by left.
  - destruct (level sec =? 2); [|done].
    apply default_l1_covered in Hst. unfold step_level2.
    destruct (current_l1_link (default_l1 st)) eqn:Hlink; [done|].
    destruct Hst as (Hname & Hnone & Hfiles).
    assert (is_Some (current_l1_name (default_l1 st))) as [n Hn].
    { unfold default_l1. destruct (current_l1_name st) eqn:E; [|by eexists].
      rewrite E. by eexists. }
    destruct (heading_to_name _ _) as [fn u].
    split_and!; simpl; [done|by rewrite Hn|].
    intros p Hp. rewrite fmap_app in Hp. rewrite fmap_app.
    apply elem_of_app in Hp as [Hp|Hp].
    + destruct (Hfiles p Hp) as (l & -> & Hl). exists l.
      split; [done|]. rewrite Hlink in Hl.
      destruct Hl as [Hl|[Hl|Hl]]; [by left|done|].
      right. right. apply elem_of_app. by left.
    + apply list_elem_of_singleton in Hp as ->. simpl.
      exists (link_of name fn). split; [by rewrite path_of_link_of|].
      right. right. apply elem_of_app. right. by left.
Qed.

Lemma run_sections_covered name lines st sections :
  Forall (λ sec, level sec = 1 → heading_text sec ≠ "") sections →
  covered st → covered (run_sections name lines st sections).
Proof.
  unfold run_sections. intros Htitles. revert st.
  induction Htitles as [|sec sections Hsec _ IH]; intros st Hst; [done|].
  cbn [foldl]. apply IH. by apply section_step_covered.
Qed.

End sidebar.

(** X20. The titles of the sidebar are the headings of level 1 in the order
    of the document.  The entries of the structure that the splitter
    returns have, in order, the texts of the level 1 sections whose text is
    not empty; before them comes one entry [Content] when the first section
    of level 1 or 2 is of level 2. *)
Theorem sidebar_titles (name : string) (lines : list string)
    (sections : list section) :
  text <$> (file_structure name lines sections).2
  = match leading_level sections with
    | Some 2 => ["Content"]
    | _ => []
    end
    ++ filter (λ t, t ≠ "")
         (heading_text <$> filter (λ sec, level sec = 1) sections).
Proof.
  unfold file_structure. cbn [snd].
  rewrite save_current_l1_titles, run_sections_titles. done.
Qed.

(** X21. When every level 1 section has a title, no file is left out of
    the sidebar: each file that the splitter writes is the file that a link
    of the returned structure names. *)
Theorem files_are_linked (name : string) (lines : list string)
    (sections : list section) (p : string) :
  Forall (λ sec, level sec = 1 → heading_text sec ≠ "") sections →
  p ∈ (file_structure name lines sections).1.*1 →
  ∃ l, l ∈ structure_links (file_structure name lines sections).2
       ∧ p = path_of_link l.
Proof.
  intros Htitles Hp. unfold file_structure in *. cbn [fst snd] in *.
  assert (covered initial_state) as Hinit.
  { split_and!; simpl; [done|done|]. intros q Hq. by apply elem_of_nil in Hq. }
  destruct (run_sections_covered name lines initial_state sections Htitles
              Hinit) as (Hname & Hnone & Hfiles).
  destruct (Hfiles p Hp) as (l & -> & Hl). exists l. split; [|done].
  by apply elem_of_structure_links_save.
Qed.

Lemma files_are_linked_witness :
  ∃ l, l ∈ structure_links
             (file_structure "cf" (replicate 600 "x") two_part_sections).2
       ∧ "docs/cf/4a.md" = path_of_link l.
Proof.
  apply (files_are_linked "cf" (replicate 600 "x") two_part_sections
           "docs/cf/4a.md").
  - repeat constructor; by intros _.
  - vm_compute. do 2 right. left.
Defined.

(** X22. When a document is processed, the template exists and the
    directory of the configuration file exists, [split] returns the
    dictionary of the run, which is not empty, and hands it to the
    configuration once, at the end: the configuration file holds the
    template with the marker replaced by the configuration generated from
    that dictionary, and the output of the run ends with the two lines of
    the configuration step and the last line. *)
Theorem split_writes_configuration (markdown : string → list block)
    (names : list string) (w : world) (name template : string) :
  name ∈ names →
  processable (files w) name = true →
  files w !! template_path = Some template →
  has_directory w config_directory →
  ∃ d out,
    (split markdown names w).1 = inr d
    ∧ name ∈ d.*1
    ∧ files (split markdown names w).2 !! config_path
      = Some (replace sidebar_marker (generate_sidebar_config d) template)
    ∧ stdout (split markdown names w).2
      = stdout w ++ out
        ++ ["Generating sidebar configuration...";
            "Updated docs/.vitepress/config.mjs"; "Done!"].
Proof.
  intros Hin Hok Htempl _. unfold split, mbind, io_bind, bind.
  destruct (split_documents_result markdown names [] w) as [out ->].
  pose proof (documents_result_keys markdown names [] (files w) (files w)
                name (λ _ _, eq_refl)) as Hkeys.
  pose proof (documents_result_same_inputs markdown names [] (files w))
    as Hsame.
  destruct (documents_result markdown [] (files w) names) as [d fs'].
  cbn [fst snd] in *.
  assert (name ∈ d.*1) as Hname by (apply Hkeys; by right).
  destruct d as [|entry d]; [by apply elem_of_nil in Hname|].
  unfold update_config_file, mbind, io_bind, bind, print, ret, read_file,
    write_file. cbn [files stdout].
  fold template_path config_path sidebar_marker.
  rewrite (Hsame template_path) by done. rewrite Htempl.
  cbn [fst snd files stdout].
  exists (entry :: d), out. split_and!; [done|done| |].
  - by rewrite lookup_insert_eq.
  - by rewrite <-!app_assoc.
Qed.

Lemma split_writes_configuration_witness :
  ∃ d out,
    (split (λ _, basics_ast) ["oj"; "x/y"] site_world).1 = inr d
    ∧ "oj" ∈ d.*1
    ∧ files (split (λ _, basics_ast) ["oj"; "x/y"] site_world).2
        !! config_path
      = Some (replace sidebar_marker (generate_sidebar_config d)
                "sidebar: { // template: sidebar }")
    ∧ stdout (split (λ _, basics_ast) ["oj"; "x/y"] site_world).2
      = stdout site_world ++ out
        ++ ["Generating sidebar configuration...";
            "Updated docs/.vitepress/config.mjs"; "Done!"].
Proof.
  apply (split_writes_configuration (λ _, basics_ast) ["oj"; "x/y"]
           site_world "oj" "sidebar: { // template: sidebar }").
  - by left.
  - reflexivity.
  - reflexivity.
  - reflexivity.
Defined.

(** ** Skipped documents and documents that stop the run *)

Section isolation.
Variable markdown : string → list block.
Variable unreadable : gmap string read_failure.
Implicit Types (w : world) (fs : gmap string string) (name p : string)
  (d : list (string * list nav_entry)) (names : list string).

Lemma split_document_returns d name w :
  ∃ d' w', split_document markdown d name w = (inr d', w').
Proof.
  destruct (split_document_world markdown d name w) as (d' & out & ->).
  eauto.
Qed.

(** A name whose source is not among the unreadable files is handled as in
    the first embedding. *)
Lemma split_document_reading_readable d name w :
  (valid_name name = true → unreadable !! original_path_of name = None) →
  split_document_reading markdown unreadable d name w
  = lift_run (split_document markdown d name w).
Proof.
  intros Hread. unfold split_document_reading.
  destruct (valid_name name); [|done]. by rewrite Hread.
Qed.

Lemma split_documents_reading_readable d names w :
  (∀ name, name ∈ names → valid_name name = true →
           unreadable !! original_path_of name = None) →
  split_documents_reading markdown unreadable d names w
  = lift_run (split_documents markdown d names w).
Proof.
  revert d w. induction names as [|name names IH]; intros d w Hread; [done|].
  cbn [split_documents_reading split_documents].
  rewrite split_document_reading_readable by (apply Hread; by left).
  unfold mbind, io_bind, bind.
  destruct (split_document_returns d name w) as (d' & w' & ->).
  unfold lift_run at 1. cbn [fst snd].
  apply IH. intros n Hn. apply Hread. by right.
Qed.

(** A loop that returns has met no source that cannot be read. *)
Lemma split_documents_reading_returned d names w d' :
  (split_documents_reading markdown unreadable d names w).1 = inr d' →
  ∀ name, name ∈ names → valid_name name = true →
          unreadable !! original_path_of name = None.
Proof.
  revert d w. induction names as [|n names IH]; intros d w Hrun name Hin Hv.
  { by apply elem_of_nil in Hin. }
  cbn [split_documents_reading] in Hrun.
  assert (valid_name n = true → unreadable !! original_path_of n = None)
    as Hgood.
  { intros Hvn. unfold split_document_reading in Hrun. rewrite Hvn in Hrun.
    by destruct (unreadable !! original_path_of n). }
  rewrite split_document_reading_readable in Hrun by done.
  destruct (split_document_returns d n w) as (d1 & w1 & Hstep).
  rewrite Hstep in Hrun. unfold lift_run in Hrun. cbn [fst snd] in Hrun.
  apply elem_of_cons in Hin as [->|Hin]; [auto|].
  by apply (IH d1 w1 Hrun).
Qed.

(** The files after the loop. *)
Lemma split_documents_files_lookup names d w p :
  files (split_documents markdown d names w).2 !! p
  = from_option id (files w !! p) (overlay markdown (files w) names p).
Proof.
  destruct (split_documents_result markdown names d w) as [out ->].
  cbn [snd files]. apply documents_result_lookup.
Qed.

End isolation.

(** C8, as stated, fails: a condition of one document terminates the whole
    run.  The source of the document "bad" exists and is not UTF-8: [split]
    raises [UnicodeDecodeError] at its turn, and the document "oj", whose
    name is valid and whose source can be read, is not processed: no file is
    written and the run ends after the first line of output. *)
Lemma unreadable_source_stops_the_run_counterexample :
  let run := split_reading (λ _, basics_ast) {[ "original/bad.md" := NotUTF8 ]}
               ["bad"; "oj"] site_world in
  valid_name "bad" = true
  ∧ processable (files site_world) "oj" = true
  ∧ run.1 = inl (UnicodeDecodeError "original/bad.md")
  ∧ files run.2 = files site_world
  ∧ files run.2 !! index_path_of "oj" = None
  ∧ stdout run.2 = ["Processing bad from original/bad.md..."].
Proof. vm_compute. split_and!; reflexivity. Qed.

(** C8 (amended). A name that fails the validation, and a valid name whose
    source does not exist, is skipped without raising: one line is printed
    for it, and neither the dictionary nor any file changes.  When the loop
    over the names returns, the keys of its dictionary are the names that
    are not skipped, and the dictionary and the files are those of the loop
    over these names alone; every document that is not skipped has been
    processed: its directory holds its landing page and the files of its
    sections, and nothing else; a skipped document has no file: no path
    has changed outside the directories of the processed documents, and
    nothing has changed in the directory of a valid name that is skipped;
    the line of every skipped document is in the output.  But the loop need
    not return: when a valid name among the names has a source that exists
    and cannot be read, the run raises. *)
Theorem skipped_documents_do_not_stop_the_run
    (markdown : string → list block)
    (unreadable : gmap string read_failure)
    (names : list string) (w : world) :
  let ok := λ name, processable (files w) name = true in
  let readable := λ name,
    valid_name name = true → unreadable !! original_path_of name = None in
  let run := split_documents_reading markdown unreadable [] names w in
  (∀ d name,
     ¬ ok name → readable name →
     split_document_reading markdown unreadable d name w
     = (inr d, mk_world (files w) (stdout w ++ [diagnostic name])))
  ∧ (∀ d,
       run.1 = inr d →
       (∀ name, name ∈ d.*1 ↔ name ∈ names ∧ ok name)
       ∧ (split_documents_reading markdown unreadable []
            (filter ok names) w).1 = inr d
       ∧ files run.2
         = files (split_documents_reading markdown unreadable []
                    (filter ok names) w).2
       ∧ (∀ name content p text,
            name ∈ names → valid_name name = true →
            files w !! original_path_of name = Some content →
            under ("docs/" +:+ name) p = true →
            files run.2 !! p = Some text
            ↔ (p = index_path_of name ∧ text = guide_content name)
              ∨ (p ≠ index_path_of name
                 ∧ (p, text) ∈ (doc_output markdown name content).1))
       ∧ (∀ p,
            (∀ name, name ∈ names → ok name →
                     under ("docs/" +:+ name) p = false) →
            files run.2 !! p = files w !! p)
       ∧ (∀ name p,
            name ∈ names → ¬ ok name → valid_name name = true →
            under ("docs/" +:+ name) p = true →
            files run.2 !! p = files w !! p)
       ∧ (∀ name,
            name ∈ names → ¬ ok name → diagnostic name ∈ stdout run.2))
  ∧ ((∃ name, name ∈ names ∧ valid_name name = true
              ∧ is_Some (unreadable !! original_path_of name)) →
     ∃ e, run.1 = inl e).
Proof.
  intros ok readable run.
  split; [|split].
  { intros d name Hskip Hname.
    rewrite split_document_reading_readable by done.
    rewrite split_document_skipped by (by apply not_true_is_false). done. }
  2:{ intros (name & Hin & Hv & Hbad).
      destruct run.1 as [e|d] eqn:E; [by exists e|].
      rewrite (split_documents_reading_returned markdown unreadable
                 [] names w d E name Hin Hv) in Hbad.
      by destruct Hbad. }
  intros d0 Hreturned.
  pose proof (split_documents_reading_returned markdown unreadable
                [] names w d0 Hreturned) as Hread.
  assert (∀ name, name ∈ filter ok names → readable name) as Hread'.
  { intros name Hin. apply list_elem_of_filter in Hin as [_ Hin].
    unfold readable. auto. }
  assert (run = lift_run (split_documents markdown [] names w)) as Hrun
    by by apply split_documents_reading_readable.
  rewrite (split_documents_reading_readable markdown unreadable []
             (filter ok names) w Hread').
  assert (same_inputs (files w) (files w)) as Hrefl by done.
  pose proof (documents_result_filter markdown names [] (files w) (files w)
                Hrefl) as Hfilter.
  destruct (split_documents_result markdown names [] w) as [out1 Hrun1].
  destruct (split_documents_result markdown
              (filter (λ name, processable (files w) name = true) names) [] w)
    as [out2 Hrun2].
  assert (d0 = (documents_result markdown [] (files w) names).1) as ->.
  { rewrite Hrun, Hrun1 in Hreturned. unfold lift_run in Hreturned.
    cbn [fst snd] in Hreturned. by injection Hreturned as <-. }
  assert (files run.2 = (documents_result markdown [] (files w) names).2)
    as Hfiles.
  { rewrite Hrun, Hrun1. done. }
  assert (∀ p, files run.2 !! p
               = from_option id (files w !! p)
                   (overlay markdown (files w) names p)) as Hlookup.
  { intros p. rewrite Hfiles. apply documents_result_lookup. }
  split_and!.
  - intros name.
    rewrite (documents_result_keys markdown names [] (files w) (files w))
      by done.
    simpl. split; [|by right]. intros [H|H]; [|done].
    by apply elem_of_nil in H.
  - unfold ok. rewrite Hrun2. unfold lift_run. cbn [fst snd].
    by rewrite Hfilter.
  - rewrite Hfiles. unfold ok. rewrite Hrun2. unfold lift_run.
    cbn [fst snd files]. by rewrite Hfilter.
  - intros name content p text Hin Hv Hsrc Hu. rewrite Hlookup.
    rewrite (overlay_elem markdown _ _ _ name content) by done.
    cbn [from_option id]. unfold doc_files.
    destruct (decide (p = index_path_of name)) as [->|Hne].
    + rewrite lookup_insert_eq. split.
      * intros [= <-]. by left.
      * intros [[_ ->]|[? _]]; done.
    + rewrite lookup_insert_ne by done. rewrite map_filter_empty.
      rewrite (put_files_lookup_iff _ ∅) by apply file_structure_distinct.
      split; [by right|]. by intros [[? _]|[_ ?]].
  - intros p Hp. rewrite Hlookup.
    destruct (overlay markdown (files w) names p) as [v|] eqn:E; [|done].
    apply overlay_Some in E as (n & c & Hn & Hvn & Hsrc & Hun & _).
    rewrite Hp in Hun; [done|done|].
    unfold ok, processable. rewrite Hvn, Hsrc.
    by rewrite bool_decide_eq_true_2 by eauto.
  - intros name p Hin Hskip Hv Hu. rewrite Hlookup.
    destruct (overlay markdown (files w) names p) as [v|] eqn:E; [|done].
    apply overlay_Some in E as (n & c & Hn & Hvn & Hsrc & Hun & _).
    assert (n = name) as -> by eauto using valid_directories_disjoint.
    destruct Hskip. unfold ok, processable. rewrite Hv, Hsrc.
    by rewrite bool_decide_eq_true_2 by eauto.
  - intros name Hin Hskip. rewrite Hrun. unfold lift_run.
    destruct (split_documents markdown [] names w) as [[e|d] w'] eqn:E;
      cbn [fst snd];
      pose proof (diagnostics_printed markdown names [] w (files w) name
                    Hrefl Hin (not_true_is_false _ Hskip)) as Hd;
      by rewrite E in Hd.
Qed.

Lemma skipped_documents_do_not_stop_the_run_witness :
  let run := split_documents_reading (λ _, basics_ast)
               {[ "original/bad.md" := NotUTF8 ]}
               [] ["x/y"; "oj"; "cf"] site_world in
  run.1 = inr [("oj", [mk_entry "Basics" (Some "/oj/basics") []])]
  ∧ files run.2 !! "docs/oj/index.md" = Some (guide_content "oj")
  ∧ diagnostic "cf" ∈ stdout run.2.
Proof.
  intros run.
  assert (run.1 = inr [("oj", [mk_entry "Basics" (Some "/oj/basics") []])])
    as Hrun by reflexivity.
  destruct (skipped_documents_do_not_stop_the_run (λ _, basics_ast)
              {[ "original/bad.md" := NotUTF8 ]} ["x/y"; "oj"; "cf"]
              site_world)
    as (_ & Hreturned & _).
  destruct (Hreturned _ Hrun) as (_ & _ & _ & Hdir & _ & _ & Hdiag).
  split_and!; [exact Hrun| |].
  - apply (Hdir "oj" basics_doc "docs/oj/index.md" (guide_content "oj")).
    + right. by left.
    + reflexivity.
    + reflexivity.
    + reflexivity.
    + left. split; reflexivity.
  - apply (Hdiag "cf").
    + do 2 right. by left.
    + intros H. vm_compute in H. discriminate H.
Defined.
